(** * Whalert: the price-alert monitor

    A shallow embedding of [src/alert-monitor.ts] (the Durable Object
    [TokenAlertMonitor]) and of the [cancelAlert] tool of
    [src/tools/tokenPriceAlert.ts], followed by the properties of one
    monitoring cycle, of the trigger conditions, of cancellation and of the
    [/myalerts] listing.

    - JavaScript numbers are IEEE-754 binary64 values: they are modelled by
      Rocq's primitive floats, whose operations are the same ones.
    - The [Map] kept under the storage key ['alerts'] is an insertion-ordered
      association list ([Array.from(map.values())] lists it in that order, and
      that order decides in which order pairs are fetched and messages sent).
    - An [async] method is a function from the storage to its result, the new
      storage and the list of events it caused (requests, messages, replies,
      console lines, pauses), written with [x <- m ;; k].
    - The outside world (DexScreener, Telegram) is an oracle [World].

    Left out: the wording of the messages (their interpolated values are
    kept), failures of the storage itself, and other requests running between
    two [await]s of a method. *)

From Stdlib Require Import List String Bool Arith ZArith Lia Permutation Floats.
Import ListNotations.

(* ================================================================== *)
(** ** JavaScript numbers *)
(* ================================================================== *)

Module Js.

Definition number := float.

(** [if (x)] on a number: false for [0], [-0] and [NaN]. *)
Definition truthy (x : number) : bool := negb (is_zero x || is_nan x).

(** [x > y] and [x >= y] are [y < x] and [y <= x]. *)
Definition gt (x y : number) : bool := (y <? x)%float.
Definition ge (x y : number) : bool := (y <=? x)%float.
Definition lt (x y : number) : bool := (x <? y)%float.
Definition le (x y : number) : bool := (x <=? y)%float.
(** [x === y] on numbers. *)
Definition seq (x y : number) : bool := (x =? y)%float.

Arguments gt : simpl never.
Arguments ge : simpl never.
Arguments lt : simpl never.
Arguments le : simpl never.
Arguments seq : simpl never.
Arguments truthy : simpl never.

(** The quotient the monitor computes, [(a - b) / b * 100]. *)
Definition percentOf (a b : number) : number := ((a - b) / b * 100)%float.

Arguments percentOf : simpl never.

End Js.

Import Js.

(* ================================================================== *)
(** ** Data model ([alert-monitor.ts], lines 7-37) *)
(* ================================================================== *)

Inductive AlertType := price_above | price_below | percent_change.

Definition AlertType_eqb (x y : AlertType) : bool :=
  match x, y with
  | price_above, price_above
  | price_below, price_below
  | percent_change, percent_change => true
  | _, _ => false
  end.

(** [interface PriceAlert]. [currentPrice] is the price at creation time (the
    specification's reference price). *)
Record PriceAlert := mkAlert {
  id : string;
  chatId : number;
  tokenAddress : string;
  tokenSymbol : string;
  tokenName : string;
  chainId : string;
  pairAddress : string;
  alertType : AlertType;
  targetValue : number;
  currentPrice : number;
  createdAt : number;
  lastChecked : option number
}.

(** [interface DexPairData], after JSON decoding. [priceUsd] holds the number
    that [parseFloat] yields on the [priceUsd] string ([NaN] when the string
    is not numeric); [priceChange_h24] is [priceChange?.h24]. *)
Record DexPairData := mkPair {
  priceUsd : number;
  priceChange_h24 : option number;
  volume_h24 : option number;
  marketCap : option number
}.

(** What one [fetch] of the DexScreener search URL can come to. *)
Inductive FetchResult :=
| NetworkError                          (* fetch() rejects *)
| HttpStatus (status : nat)             (* response.ok is false *)
| MalformedBody                         (* response.json() rejects, or the
                                           body has not the declared shape *)
| Pairs (pairs : option (list DexPairData)).  (* data.pairs of an ok response *)

(** The first pair of a usable response: the only case in which the monitor
    has a price. *)
Definition firstPair (r : FetchResult) : option DexPairData :=
  match r with
  | Pairs (Some (pairData :: _)) => Some pairData
  | _ => None
  end.

(** The Markdown messages are templates over the values below; the model
    keeps the interpolated values and leaves the rendering ([toFixed],
    [toUpperCase], string concatenation) out. *)
Inductive TriggerMessage :=
| NoMessage
| Surpassed (alert : PriceAlert) (current change : number)
| FallenBelow (alert : PriceAlert) (current change : number)
| Gained (alert : PriceAlert) (current percentChange : number)
| Dropped (alert : PriceAlert) (current absPercentChange : number).

Inductive InfoLine :=
| MarketCapM (millions : number)
| MarketCapK (thousands : number)
| Change24h (plusSign : bool) (h24 : number).

Inductive Message :=
| TriggerNote (body : TriggerMessage) (additionalInfo : list InfoLine)
              (chain : string)
| CancelNote (tokenName tokenSymbol alertId : string).

(** Console lines, one constructor per [console.log/warn/error] call. *)
Inductive LogLine :=
| LogRegistered (alertId : string)
| LogRemoved (alertId : string)
| LogNoActiveAlerts
| LogInitiating (count : nat)
| ErrHttp (pair : string) (status : nat)
| WarnNoMarketData (pair : string)
| LogTriggered (alertId : string)
| ErrNotification (alertId : string)
| ErrPair (pair : string)
| LogCycleCompleted
| ErrListPrice (pair : string)
| ErrCancelNote.

(** One entry of [alertsWithPrices] in the [/myalerts] handler:
    [{alert: PriceAlert; currentPrice: number}]. *)
Record PricedAlert := mkPriced {
  alert : PriceAlert;
  shownPrice : number
}.

Inductive Condition :=
| CondAbove (target : number)
| CondBelow (target : number)
| CondPercent (plusSign : bool) (target : number).

(** One rendered entry of the [/myalerts] reply (the [map] callback). *)
Record ListedAlert := mkListed {
  position : nat;
  listedName : string;
  listedSymbol : string;
  listedChain : string;
  listedPrice : number;
  eightDecimals : bool;
  condition : Condition
}.

Inductive Reply :=
| ReplyNoAlerts
| ReplyFetching
| ReplyAlertList (count : nat) (alertList : list ListedAlert).

(** Observable actions, in the order they happen. *)
Inductive Event :=
| EvFetch (pair : string)
| EvSend (chat : number) (msg : Message) (delivered : bool)
| EvReply (r : Reply)
| EvConsole (line : LogLine)
| EvSleep (ms : nat).

(** The world outside the Durable Object: DexScreener's answer for a pair
    address, and whether Telegram accepts a message ([false]: [sendMessage]
    rejects) or a reply to a command ([false]: [ctx.reply] rejects).  A cycle
    requests a pair address once (proved below without relying on this) and
    sends at most one message per alert, each naming its alert, so one answer
    per request is all that a cycle can observe. *)
Record World := mkWorld {
  http_get : string -> FetchResult;
  sendMessage : number -> Message -> bool;
  ctx_reply : number -> Reply -> bool
}.

(* ================================================================== *)
(** ** The stored [Map<string, PriceAlert>] *)
(* ================================================================== *)

Module AlertMap.

Definition t := list (string * PriceAlert).

(** [map.set(k, v)]: an existing key keeps its place, a new one goes last. *)
Fixpoint set (k : string) (v : PriceAlert) (m : t) : t :=
  match m with
  | [] => [(k, v)]
  | (k', v') :: m' =>
      if String.eqb k' k then (k, v) :: m' else (k', v') :: set k v m'
  end.

(** [map.delete(k)]. *)
Definition delete (k : string) (m : t) : t :=
  filter (fun e => negb (String.eqb (fst e) k)) m.

(** [map.get(k)]. *)
Fixpoint get (k : string) (m : t) : option PriceAlert :=
  match m with
  | [] => None
  | (k', v) :: m' => if String.eqb k' k then Some v else get k m'
  end.

(** [Array.from(map.values())]. *)
Definition values (m : t) : list PriceAlert := map snd m.

Definition keys (m : t) : list string := map fst m.

(** What [addAlert] maintains: a key occurs once (a JavaScript [Map] cannot
    hold it twice) and is the [id] of the alert stored under it. *)
Definition wf (m : t) : Prop :=
  NoDup (keys m) /\ forall k v, In (k, v) m -> k = id v.

End AlertMap.

(** The value under the storage key ['alerts']; [None] is [undefined]. *)
Definition Storage := option AlertMap.t.

Definition entries (s : Storage) : AlertMap.t :=
  match s with Some m => m | None => [] end.

(* ================================================================== *)
(** ** Asynchronous code as state passing with an event log *)
(* ================================================================== *)

(** An [async] method of the Durable Object: from the storage to its result,
    the storage it leaves, and the events it caused, oldest first. *)
Definition M (A : Type) : Type := Storage -> A * Storage * list Event.

Definition ret {A} (a : A) : M A := fun s => (a, s, []).

Definition bind {A B} (m : M A) (f : A -> M B) : M B :=
  fun s =>
    let '(a, s1, e1) := m s in
    let '(b, s2, e2) := f a s1 in
    (b, s2, e1 ++ e2).

Declare Scope monitor_scope.
Delimit Scope monitor_scope with monitor.
Notation "x <- m ;; k" := (bind m (fun x => k))
  (at level 61, m at next level, right associativity) : monitor_scope.
Notation "m ;; k" := (bind m (fun _ => k))
  (at level 61, right associativity) : monitor_scope.
Local Open Scope monitor_scope.

Arguments bind : simpl never.

Definition valueOf {A} (r : A * Storage * list Event) : A := fst (fst r).
Definition storeOf {A} (r : A * Storage * list Event) : Storage := snd (fst r).
Definition eventsOf {A} (r : A * Storage * list Event) : list Event := snd r.

Definition emit (e : Event) : M unit := fun s => (tt, s, [e]).

(** [ctx.storage.get('alerts')] and [ctx.storage.put('alerts', m)]. *)
Definition storage_get : M (option AlertMap.t) := fun s => (s, s, []).
Definition storage_put (m : AlertMap.t) : M unit := fun _ => (tt, Some m, []).

Definition console (line : LogLine) : M unit := emit (EvConsole line).
Definition sleep (ms : nat) : M unit := emit (EvSleep ms).

(** [await ctx.reply(text)] in the chat of the command; [false] when it
    rejects.  No call of it is inside a [try], so a rejection leaves the
    handler.  The event records the call, whatever Telegram answers. *)
Definition reply (w : World) (chat : number) (r : Reply) : M bool :=
  emit (EvReply r) ;; ret (ctx_reply w chat r).

(** [await fetch(...)], with the decoding of the response. *)
Definition fetch (w : World) (pair : string) : M FetchResult :=
  emit (EvFetch pair) ;; ret (http_get w pair).

(** [await bot.api.sendMessage(chat, text)]; [false] when it throws. *)
Definition send (w : World) (chat : number) (msg : Message) : M bool :=
  let ok := sendMessage w chat msg in
  emit (EvSend chat msg ok) ;; ret ok.

(** [for (const x of l) { body }]. *)
Fixpoint forEach {A} (l : list A) (body : A -> M unit) : M unit :=
  match l with
  | [] => ret tt
  | x :: l' => body x ;; forEach l' body
  end.

(** A loop whose body pushes onto an array declared before it: the pushed
    entries are the result. *)
Fixpoint forEachPush {A B} (l : list A) (body : A -> M (list B)) : M (list B) :=
  match l with
  | [] => ret []
  | x :: l' => ys <- body x ;; zs <- forEachPush l' body ;; ret (ys ++ zs)
  end.

(* ================================================================== *)
(** ** [class TokenAlertMonitor] *)
(* ================================================================== *)

Module Monitor.

(** [getAllAlerts] (lines 185-189). *)
Definition getAllAlerts : M (list PriceAlert) :=
  alertsMap <- storage_get ;;
  match alertsMap with
  | None => ret []
  | Some m => ret (AlertMap.values m)
  end.

(** [getAlertsForChat] (lines 192-195). *)
Definition getAlertsForChat (chat : number) : M (list PriceAlert) :=
  alerts <- getAllAlerts ;;
  ret (filter (fun a => seq (chatId a) chat) alerts).

(** [addAlert] (lines 198-206). *)
Definition addAlert (a : PriceAlert) : M unit :=
  stored <- storage_get ;;
  let alertsMap := match stored with Some m => m | None => [] end in
  storage_put (AlertMap.set (id a) a alertsMap) ;;
  console (LogRegistered (id a)).

(** [removeAlert] (lines 209-216).  It is declared [Promise<void>] and has no
    [return]: whoever awaits it receives [undefined], here [None]. *)
Definition removeAlert (alertId : string) : M (option PriceAlert) :=
  alertsMap <- storage_get ;;
  match alertsMap with
  | Some m =>
      storage_put (AlertMap.delete alertId m) ;;
      console (LogRemoved alertId) ;;
      ret None
  | None => ret None
  end.

(** The batching loop (lines 230-235 and 82-87):
    [existing = pairMap.get(k) || []; existing.push(alert); pairMap.set(k, existing)]. *)
Fixpoint pushTo (k : string) (a : PriceAlert)
    (pairMap : list (string * list PriceAlert)) : list (string * list PriceAlert) :=
  match pairMap with
  | [] => [(k, [a])]
  | (k', existing) :: rest =>
      if String.eqb k' k then (k', existing ++ [a]) :: rest
      else (k', existing) :: pushTo k a rest
  end.

Definition groupByPair (alerts : list PriceAlert) : list (string * list PriceAlert) :=
  fold_left (fun pairMap a => pushTo (pairAddress a) a pairMap) alerts [].

(** The condition checks of [checkAlerts] (lines 268-311): [shouldTrigger]
    and [triggerMessage] for one alert and the price just fetched. *)
Definition checkCondition (a : PriceAlert) (livePrice : number) : bool * TriggerMessage :=
  if AlertType_eqb (alertType a) price_above && gt livePrice (targetValue a) then
    (true, Surpassed a livePrice (percentOf livePrice (currentPrice a)))
  else if AlertType_eqb (alertType a) price_below && lt livePrice (targetValue a) then
    (true, FallenBelow a livePrice (percentOf livePrice (currentPrice a)))
  else if AlertType_eqb (alertType a) percent_change then
    let percentChange := percentOf livePrice (currentPrice a) in
    if gt (targetValue a) 0%float && ge percentChange (targetValue a) then
      (true, Gained a livePrice percentChange)
    else if lt (targetValue a) 0%float && le percentChange (targetValue a) then
      (true, Dropped a livePrice (abs percentChange))
    else (false, NoMessage)
  else (false, NoMessage).

Definition shouldTrigger (a : PriceAlert) (livePrice : number) : bool :=
  fst (checkCondition a livePrice).

(** Lines 317-326. *)
Definition additionalInfo (pairData : DexPairData) : list InfoLine :=
  (match marketCap pairData with
   | Some mc =>
       if truthy mc then
         [if ge mc 1000000%float then MarketCapM (mc / 1000000)%float
          else MarketCapK (mc / 1000)%float]
       else []
   | None => []
   end) ++
  (match priceChange_h24 pairData with
   | Some h24 => if truthy h24 then [Change24h (gt h24 0%float) h24] else []
   | None => []
   end).

Definition triggerNote (pairData : DexPairData) (a : PriceAlert)
    (triggerMessage : TriggerMessage) : Message :=
  TriggerNote triggerMessage (additionalInfo pairData) (chainId a).

(** The [try]/[catch] of lines 315-339: the removal follows the send inside
    the [try], so a send that throws goes straight to the [catch]. *)
Definition notify (w : World) (pairData : DexPairData) (a : PriceAlert)
    (triggerMessage : TriggerMessage) : M unit :=
  sent <- send w (chatId a) (triggerNote pairData a triggerMessage) ;;
  if sent then
    removeAlert (id a) ;;
    console (LogTriggered (id a))
  else
    console (ErrNotification (id a)).

(** The body of the inner loop (lines 267-341). *)
Definition checkAlert (w : World) (pairData : DexPairData) (livePrice : number)
    (a : PriceAlert) : M unit :=
  let '(should, triggerMessage) := checkCondition a livePrice in
  if should then notify w pairData a triggerMessage else ret tt.

(** The body of the outer loop (lines 240-349).  The two [continue]s and the
    [catch] all skip the alerts of the pair, and the pause with them. *)
Definition checkPair (w : World) (entry : string * list PriceAlert) : M unit :=
  let '(pairKey, pairAlerts) := entry in
  response <- fetch w pairKey ;;
  match response with
  | NetworkError | MalformedBody => console (ErrPair pairKey)
  | HttpStatus status => console (ErrHttp pairKey status)
  | Pairs None | Pairs (Some []) => console (WarnNoMarketData pairKey)
  | Pairs (Some (pairData :: _)) =>
      forEach pairAlerts (checkAlert w pairData (priceUsd pairData)) ;;
      sleep 200
  end.

(** [checkAlerts] (lines 219-352). *)
Definition checkAlerts (w : World) : M unit :=
  alerts <- getAllAlerts ;;
  if Nat.eqb (List.length alerts) 0 then
    console LogNoActiveAlerts
  else
    console (LogInitiating (List.length alerts)) ;;
    forEach (groupByPair alerts) (checkPair w) ;;
    console LogCycleCompleted.

(** The [/myalerts] handler, lines 81-128: one request per pair; the entry
    shows the fetched price, or the stored one when there is none. *)
Definition withStoredPrice (a : PriceAlert) : PricedAlert :=
  mkPriced a (currentPrice a).

Definition pricePair (w : World) (entry : string * list PriceAlert) : M (list PricedAlert) :=
  let '(pairKey, pairAlerts) := entry in
  response <- fetch w pairKey ;;
  match response with
  | NetworkError | MalformedBody =>
      console (ErrListPrice pairKey) ;;
      ret (map withStoredPrice pairAlerts)
  | HttpStatus _ | Pairs None | Pairs (Some []) =>
      sleep 200 ;;
      ret (map withStoredPrice pairAlerts)
  | Pairs (Some (pairData :: _)) =>
      sleep 200 ;;
      ret (map (fun a => mkPriced a (priceUsd pairData)) pairAlerts)
  end.

Definition priceAlerts (w : World) (alerts : list PriceAlert) : M (list PricedAlert) :=
  forEachPush (groupByPair alerts) (pricePair w).

(** The double nearest to [0.01], as JavaScript reads the literal. *)
Definition cent : number := 0x1.47ae147ae147bp-7%float.

(** The [map] callback of lines 130-149. *)
Definition renderAlert (index : nat) (item : PricedAlert) : ListedAlert :=
  let a := alert item in
  mkListed (index + 1) (tokenName a) (tokenSymbol a) (chainId a)
    (shownPrice item) (lt (shownPrice item) cent)
    (match alertType a with
     | price_above => CondAbove (targetValue a)
     | price_below => CondBelow (targetValue a)
     | percent_change => CondPercent (gt (targetValue a) 0%float) (targetValue a)
     end).

Fixpoint mapFrom {A B} (f : nat -> A -> B) (index : nat) (l : list A) : list B :=
  match l with
  | [] => []
  | x :: l' => f index x :: mapFrom f (S index) l'
  end.

(** The [/myalerts] command (lines 70-155).  When Telegram rejects the reply
    of line 79 the handler ends there, before any price request; after the
    two other replies nothing is left to do either way. *)
Definition myalerts (w : World) (chat : number) : M unit :=
  alerts <- getAlertsForChat chat ;;
  if Nat.eqb (List.length alerts) 0 then
    reply w chat ReplyNoAlerts ;;
    ret tt
  else
    accepted <- reply w chat ReplyFetching ;;
    if accepted then
      alertsWithPrices <- priceAlerts w alerts ;;
      reply w chat (ReplyAlertList (List.length alertsWithPrices)
                      (mapFrom renderAlert 0 alertsWithPrices)) ;;
      ret tt
    else ret tt.

End Monitor.

(* ================================================================== *)
(** ** The [cancelAlert] tool ([tools/tokenPriceAlert.ts], lines 351-404) *)
(* ================================================================== *)

Module Tools.

(** The text the tool hands back. *)
Inductive ToolText :=
| NotLocated (alertId : string)
| Canceled (alertId tokenSymbol : string)
| CancelError.

(** [alertMonitor.removeAlert(alertId)] is awaited and its value tested with
    [if (!alert)].  The outer [catch] ([CancelError]) is reached only when the
    call itself rejects, which the storage of this model never does. *)
Definition cancelAlert (w : World) (alertId : string) (telegramChatId : option number)
    : M ToolText :=
  removed <- Monitor.removeAlert alertId ;;
  match removed with
  | None => ret (NotLocated alertId)
  | Some a =>
      (match telegramChatId with
       | Some chat =>
           if truthy chat then
             sent <- send w chat (CancelNote (tokenName a) (tokenSymbol a) alertId) ;;
             if sent then ret tt else console ErrCancelNote
           else ret tt
       | None => ret tt
       end) ;;
      ret (Canceled alertId (tokenSymbol a))
  end.

End Tools.

(* ================================================================== *)
(** ** The vocabulary of the statements *)
(* ================================================================== *)

Module Observe.

Import Monitor.

(** The alerts a cycle starts from: what [getAllAlerts] returns. *)
Definition snapshot (s : Storage) : list PriceAlert := AlertMap.values (entries s).

(** The message sent for an alert whose condition holds at [pairData]. *)
Definition noteFor (pairData : DexPairData) (a : PriceAlert) : Message :=
  triggerNote pairData a (snd (checkCondition a (priceUsd pairData))).

(** The condition holds and Telegram accepts the message. *)
Definition fires (w : World) (pairData : DexPairData) (a : PriceAlert) : bool :=
  shouldTrigger a (priceUsd pairData) && sendMessage w (chatId a) (noteFor pairData a).

(** The same, with the price the world serves for the pair address [k]. *)
Definition firesVia (w : World) (k : string) (a : PriceAlert) : bool :=
  match firstPair (http_get w k) with
  | Some pairData => fires w pairData a
  | None => false
  end.

Definition delivered (w : World) (a : PriceAlert) : bool :=
  firesVia w (pairAddress a) a.

(** The ways a price request fails: the request throws, the status is not
    ok, the body cannot be read, or it lists no pair. *)
Definition lookupFails (r : FetchResult) : Prop :=
  match r with
  | NetworkError | HttpStatus _ | MalformedBody
  | Pairs None | Pairs (Some []) => True
  | Pairs (Some (_ :: _)) => False
  end.

(** The entry shown for an alert when its pair address [k] is looked up:
    the fetched price, or else the stored one. *)
Definition shownFor (w : World) (k : string) (a : PriceAlert) : PricedAlert :=
  mkPriced a (match firstPair (http_get w k) with
              | Some pairData => priceUsd pairData
              | None => currentPrice a
              end).

(** How many events of a run satisfy a test. *)
Definition countEvents (p : Event -> bool) (l : list Event) : nat :=
  List.length (filter p l).

Definition isFetchOf (k : string) (e : Event) : bool :=
  match e with
  | EvFetch k' => String.eqb k' k
  | _ => false
  end.

Definition isFetch (e : Event) : bool :=
  match e with
  | EvFetch _ => true
  | _ => false
  end.

(** A test that only price requests can pass. *)
Definition fetchTest (p : Event -> bool) : Prop :=
  forall e, isFetch e = false -> p e = false.

Definition PairMap := list (string * list PriceAlert).

(** All alerts of a pair map, group after group. *)
Definition members (pairMap : PairMap) : list PriceAlert :=
  List.concat (map snd pairMap).

(** A pair map is a partition by key: keys differ, no group is empty, and a
    group holds alerts of its own pair address only. *)
Definition partitioned (pairMap : PairMap) : Prop :=
  NoDup (map fst pairMap) /\
  forall k g, In (k, g) pairMap ->
    g <> [] /\ forall a, In a g -> pairAddress a = k.

(** The storage holds a well-formed map (or none yet). *)
Definition wfStore (s : Storage) : Prop := AlertMap.wf (entries s).

End Observe.

(* ================================================================== *)
(** ** Concrete alerts and worlds *)
(* ================================================================== *)

Module Samples.

Local Open Scope string_scope.
Local Open Scope float_scope.

(** The alerts of the specification's two end-to-end scenarios. *)
Definition aboveHundred : PriceAlert :=
  mkAlert "alert_1" 7 "0xtoken" "PEPE" "Pepe" "ethereum" "0xpair"
          price_above 100 90 1700000000000 None.

Definition belowHundred : PriceAlert :=
  mkAlert "alert_2" 7 "0xtoken" "PEPE" "Pepe" "ethereum" "0xpair"
          price_below 100 110 1700000000000 None.

Definition dropTen : PriceAlert :=
  mkAlert "alert_3" 7 "0xtoken" "PEPE" "Pepe" "ethereum" "0xpair"
          percent_change (-10) 50 1700000000000 None.

(** A [percent_change] alert created while the price read [0]. *)
Definition gainTenFromZero : PriceAlert :=
  mkAlert "alert_4" 8 "0xother" "DOGE" "Doge" "bsc" "0xzero"
          percent_change 10 0 1700000000000 None.

(** The same with the price [-0], and with the target [-10]. *)
Definition gainTenFromMinusZero : PriceAlert :=
  mkAlert "alert_5" 8 "0xother" "DOGE" "Doge" "bsc" "0xzero"
          percent_change 10 (-0) 1700000000000 None.

Definition dropTenFromMinusZero : PriceAlert :=
  mkAlert "alert_6" 8 "0xother" "DOGE" "Doge" "bsc" "0xzero"
          percent_change (-10) (-0) 1700000000000 None.

Definition quote (p : number) : FetchResult :=
  Pairs (Some [mkPair p None None None]).

(** DexScreener serves [p] for every pair; Telegram accepts or rejects every
    message, and accepts every reply. *)
Definition flatWorld (p : number) (accept : bool) : World :=
  mkWorld (fun _ => quote p) (fun _ _ => accept) (fun _ _ => true).

(** DexScreener answers every request with HTTP 500. *)
Definition downWorld : World :=
  mkWorld (fun _ => HttpStatus 500) (fun _ _ => true) (fun _ _ => true).

(** Only the pair ["0xpair"] is served (at [p]); the others get HTTP 500. *)
Definition onePairWorld (p : number) : World :=
  mkWorld (fun k => if String.eqb k "0xpair" then quote p else HttpStatus 500)
          (fun _ _ => true) (fun _ _ => true).

(** DexScreener serves [p] for every pair; Telegram rejects every reply to a
    command. *)
Definition noReplyWorld (p : number) : World :=
  mkWorld (fun _ => quote p) (fun _ _ => true) (fun _ _ => false).

Definition oneAlert : Storage := Some [("alert_1", aboveHundred)].

Definition twoPairs : Storage :=
  Some [("alert_1", aboveHundred); ("alert_3", dropTen);
        ("alert_4", gainTenFromZero)].

End Samples.

(* ================================================================== *)
(** ** Facts about JavaScript numbers *)
(* ================================================================== *)

Module JsFacts.

Lemma SFcompare_antisym (x y : spec_float) :
  SFcompare y x = option_map CompOpp (SFcompare x y).
Proof.
  destruct x as [sx|sx| |sx mx ex], y as [sy|sy| |sy my ey]; simpl;
    try reflexivity;
    try (destruct sx; reflexivity);
    try (destruct sy; reflexivity);
    try (destruct sx, sy; reflexivity).
  destruct sx, sy; simpl; try reflexivity;
    rewrite (Z.compare_antisym ex ey), (ZC4 my mx);
    destruct (ex ?= ey)%Z; simpl; try reflexivity;
    destruct (Pos.compare_cont Eq mx my); reflexivity.
Qed.

Lemma lt_asym (x y : number) : lt x y = true -> lt y x = false.
Proof.
  unfold lt. rewrite !ltb_spec. unfold SFltb.
  rewrite (SFcompare_antisym (Prim2SF x) (Prim2SF y)).
  destruct (SFcompare (Prim2SF x) (Prim2SF y)) as [[]|]; simpl; congruence.
Qed.

Lemma seq_not_lt (x y : number) :
  seq x y = true -> lt x y = false /\ lt y x = false.
Proof.
  unfold seq, lt. rewrite eqb_spec, !ltb_spec. unfold SFeqb, SFltb.
  rewrite (SFcompare_antisym (Prim2SF x) (Prim2SF y)).
  destruct (SFcompare (Prim2SF x) (Prim2SF y)) as [[]|]; simpl;
    intuition congruence.
Qed.

Lemma lt_not_nan_r (x y : number) : lt x y = true -> Prim2SF y <> S754_nan.
Proof.
  unfold lt. rewrite ltb_spec. unfold SFltb. intros H E. rewrite E in H.
  destruct (Prim2SF x); discriminate.
Qed.

Lemma lt_not_nan_l (x y : number) : lt x y = true -> Prim2SF x <> S754_nan.
Proof.
  unfold lt. rewrite ltb_spec. unfold SFltb. intros H E. rewrite E in H.
  discriminate.
Qed.

Lemma le_nan_r (x y : number) : Prim2SF y = S754_nan -> le x y = false.
Proof.
  unfold le. rewrite leb_spec. unfold SFleb. intros ->.
  destruct (Prim2SF x); reflexivity.
Qed.

Lemma le_nan_l (x y : number) : Prim2SF x = S754_nan -> le x y = false.
Proof. unfold le. rewrite leb_spec. unfold SFleb. now intros ->. Qed.

(** Everything that is not [NaN] is at most [+Infinity] and at least
    [-Infinity]. *)
Lemma le_pinf (x y : number) :
  Prim2SF x <> S754_nan -> Prim2SF y = S754_infinity false -> le x y = true.
Proof.
  unfold le. rewrite leb_spec. unfold SFleb. intros Hx ->.
  destruct (Prim2SF x) as [s|s| |s m e]; try congruence;
    try destruct s; reflexivity.
Qed.

Lemma le_ninf (x y : number) :
  Prim2SF y <> S754_nan -> Prim2SF x = S754_infinity true -> le x y = true.
Proof.
  unfold le. rewrite leb_spec. unfold SFleb. intros Hy ->.
  destruct (Prim2SF y) as [s|s| |s m e]; try congruence;
    try destruct s; reflexivity.
Qed.

Lemma Prim2SF_zero : Prim2SF 0%float = S754_zero false.
Proof. reflexivity. Qed.

Lemma Prim2SF_hundred : exists m e, Prim2SF 100%float = S754_finite false m e.
Proof. eexists; eexists; reflexivity. Qed.

Lemma percentOf_spec (a b : number) :
  Prim2SF (percentOf a b) =
  SF64mul (SF64div (SF64sub (Prim2SF a) (Prim2SF b)) (Prim2SF b)) (Prim2SF 100%float).
Proof. unfold percentOf. now rewrite mul_spec, div_spec, sub_spec. Qed.

(** Division by a zero reference: the sign of [a] decides the infinity, and
    [0 / 0] is [NaN]. *)
Lemma percentOf_zero_pos (a : number) :
  lt 0%float a = true -> Prim2SF (percentOf a 0%float) = S754_infinity false.
Proof.
  unfold lt. rewrite ltb_spec. intros H. rewrite percentOf_spec, Prim2SF_zero.
  destruct Prim2SF_hundred as (m & e & ->).
  unfold SFltb in H. rewrite Prim2SF_zero in H.
  destruct (Prim2SF a) as [s|s| |s ma ea]; simpl in H; try discriminate;
    destruct s; try discriminate; reflexivity.
Qed.

Lemma percentOf_zero_neg (a : number) :
  lt a 0%float = true -> Prim2SF (percentOf a 0%float) = S754_infinity true.
Proof.
  unfold lt. rewrite ltb_spec. intros H. rewrite percentOf_spec, Prim2SF_zero.
  destruct Prim2SF_hundred as (m & e & ->).
  unfold SFltb in H. rewrite Prim2SF_zero in H.
  destruct (Prim2SF a) as [s|s| |s ma ea]; simpl in H; try discriminate;
    destruct s; try discriminate; reflexivity.
Qed.

Lemma percentOf_zero_zero (a : number) :
  seq a 0%float = true -> Prim2SF (percentOf a 0%float) = S754_nan.
Proof.
  unfold seq. rewrite eqb_spec. intros H. rewrite percentOf_spec, Prim2SF_zero.
  unfold SFeqb in H. rewrite Prim2SF_zero in H.
  destruct (Prim2SF a) as [s|s| |s ma ea]; simpl in H; try discriminate;
    destruct s; try discriminate; reflexivity.
Qed.

(** [x === 0] holds of the two zeros, [0] and [-0], and of nothing else. *)
Lemma seq_zero_cases (x : number) :
  seq x 0%float = true -> x = 0%float \/ x = (-0)%float.
Proof.
  unfold seq. rewrite eqb_spec, Prim2SF_zero. intros H.
  rewrite <- (SF2Prim_Prim2SF x).
  destruct (Prim2SF x) as [s|s| |s m e]; simpl in H; try discriminate;
    destruct s; try discriminate; [right|left]; reflexivity.
Qed.

Lemma Prim2SF_neg_zero : Prim2SF (-0)%float = S754_zero true.
Proof. reflexivity. Qed.

(** Division by the reference [-0]: the infinities change sides. *)
Lemma percentOf_negzero_pos (a : number) :
  lt 0%float a = true -> Prim2SF (percentOf a (-0)%float) = S754_infinity true.
Proof.
  unfold lt. rewrite ltb_spec. intros H. rewrite percentOf_spec, Prim2SF_neg_zero.
  destruct Prim2SF_hundred as (m & e & ->).
  unfold SFltb in H. rewrite Prim2SF_zero in H.
  destruct (Prim2SF a) as [s|s| |s ma ea]; simpl in H; try discriminate;
    destruct s; try discriminate; reflexivity.
Qed.

Lemma percentOf_negzero_neg (a : number) :
  lt a 0%float = true -> Prim2SF (percentOf a (-0)%float) = S754_infinity false.
Proof.
  unfold lt. rewrite ltb_spec. intros H. rewrite percentOf_spec, Prim2SF_neg_zero.
  destruct Prim2SF_hundred as (m & e & ->).
  unfold SFltb in H. rewrite Prim2SF_zero in H.
  destruct (Prim2SF a) as [s|s| |s ma ea]; simpl in H; try discriminate;
    destruct s; try discriminate; reflexivity.
Qed.

Lemma percentOf_negzero_zero (a : number) :
  seq a 0%float = true -> Prim2SF (percentOf a (-0)%float) = S754_nan.
Proof.
  unfold seq. rewrite eqb_spec. intros H. rewrite percentOf_spec, Prim2SF_neg_zero.
  unfold SFeqb in H. rewrite Prim2SF_zero in H.
  destruct (Prim2SF a) as [s|s| |s ma ea]; simpl in H; try discriminate;
    destruct s; try discriminate; reflexivity.
Qed.

End JsFacts.

(* ================================================================== *)
(** ** Reasoning about runs *)
(* ================================================================== *)

Import Observe.

Section Runs.

Context {A B : Type}.

Lemma storeOf_bind (m : M A) (f : A -> M B) (s : Storage) :
  storeOf (bind m f s) = storeOf (f (valueOf (m s)) (storeOf (m s))).
Proof.
  unfold bind, storeOf, valueOf.
  destruct (m s) as [[a s1] e1]; cbn.
  destruct (f a s1) as [[b s2] e2]; reflexivity.
Qed.

Lemma eventsOf_bind (m : M A) (f : A -> M B) (s : Storage) :
  eventsOf (bind m f s) =
  eventsOf (m s) ++ eventsOf (f (valueOf (m s)) (storeOf (m s))).
Proof.
  unfold bind, storeOf, valueOf, eventsOf.
  destruct (m s) as [[a s1] e1]; cbn.
  destruct (f a s1) as [[b s2] e2]; reflexivity.
Qed.

Lemma valueOf_bind (m : M A) (f : A -> M B) (s : Storage) :
  valueOf (bind m f s) = valueOf (f (valueOf (m s)) (storeOf (m s))).
Proof.
  unfold bind, storeOf, valueOf.
  destruct (m s) as [[a s1] e1]; cbn.
  destruct (f a s1) as [[b s2] e2]; reflexivity.
Qed.

End Runs.

Lemma run_ret {A} (a : A) (s : Storage) : ret a s = (a, s, []).
Proof. reflexivity. Qed.

Lemma run_emit (e : Event) (s : Storage) : emit e s = (tt, s, [e]).
Proof. reflexivity. Qed.

Lemma run_console (line : LogLine) (s : Storage) :
  console line s = (tt, s, [EvConsole line]).
Proof. reflexivity. Qed.

Lemma run_sleep (ms : nat) (s : Storage) : sleep ms s = (tt, s, [EvSleep ms]).
Proof. reflexivity. Qed.

Lemma run_reply (w : World) (chat : number) (r : Reply) (s : Storage) :
  reply w chat r s = (ctx_reply w chat r, s, [EvReply r]).
Proof. reflexivity. Qed.

Lemma run_fetch (w : World) (k : string) (s : Storage) :
  fetch w k s = (http_get w k, s, [EvFetch k]).
Proof. reflexivity. Qed.

Lemma run_send (w : World) (chat : number) (msg : Message) (s : Storage) :
  send w chat msg s =
  (sendMessage w chat msg, s, [EvSend chat msg (sendMessage w chat msg)]).
Proof. reflexivity. Qed.

Lemma run_storage_get (s : Storage) : storage_get s = (s, s, []).
Proof. reflexivity. Qed.

Lemma run_storage_put (m : AlertMap.t) (s : Storage) :
  storage_put m s = (tt, Some m, []).
Proof. reflexivity. Qed.

Lemma storeOf_triple {A} (a : A) (s : Storage) (l : list Event) :
  storeOf (a, s, l) = s.
Proof. reflexivity. Qed.

Lemma valueOf_triple {A} (a : A) (s : Storage) (l : list Event) :
  valueOf (a, s, l) = a.
Proof. reflexivity. Qed.

Lemma eventsOf_triple {A} (a : A) (s : Storage) (l : list Event) :
  eventsOf (a, s, l) = l.
Proof. reflexivity. Qed.

Create Rewrite HintDb run.

#[global] Hint Rewrite @storeOf_bind @eventsOf_bind @valueOf_bind
  @run_ret run_emit run_console run_sleep run_reply run_fetch run_send
  run_storage_get run_storage_put
  @storeOf_triple @valueOf_triple @eventsOf_triple : run.

Lemma countEvents_app (p : Event -> bool) (l1 l2 : list Event) :
  countEvents p (l1 ++ l2) = countEvents p l1 + countEvents p l2.
Proof. unfold countEvents. now rewrite filter_app, length_app. Qed.

Section Loops.

Context {A : Type} (body : A -> M unit).

(** An event that an iteration always causes is among the events of the
    loop. *)
Lemma forEach_event (e : Event) (x : A) (l : list A) :
  In x l ->
  (forall s, In e (eventsOf (body x s))) ->
  forall s, In e (eventsOf (forEach l body s)).
Proof.
  intros Hx He. induction l as [|y l IH]; [destruct Hx|].
  intros s. cbn [forEach]. rewrite eventsOf_bind. apply in_or_app.
  destruct Hx as [->|Hx]; [left; apply He | right; now apply IH].
Qed.

(** Counting: when each iteration causes [c x] matching events whatever the
    storage, the loop causes their sum. *)
Lemma forEach_count (p : Event -> bool) (c : A -> nat) (l : list A) :
  (forall x s, In x l -> countEvents p (eventsOf (body x s)) = c x) ->
  forall s, countEvents p (eventsOf (forEach l body s)) = list_sum (map c l).
Proof.
  induction l as [|y l IH]; intros Hc s; [reflexivity|].
  cbn [forEach map]. rewrite eventsOf_bind, countEvents_app.
  rewrite Hc by (now left). simpl list_sum. f_equal. apply IH.
  intros x s' Hx. apply Hc. now right.
Qed.

(** The stored entries after a loop, when each iteration keeps exactly the
    entries whose key passes [keep x]. *)
Lemma forEach_entries (keep : A -> string -> Prop) (l : list A) :
  (forall x s k v, In x l ->
     In (k, v) (entries (storeOf (body x s))) <->
     In (k, v) (entries s) /\ keep x k) ->
  forall s k v,
    In (k, v) (entries (storeOf (forEach l body s))) <->
    In (k, v) (entries s) /\ forall x, In x l -> keep x k.
Proof.
  induction l as [|y l IH]; intros Hstep s k v.
  - cbn. tauto.
  - cbn [forEach]. rewrite storeOf_bind, IH.
    + rewrite Hstep by (now left). split.
      * intros [[Hin Hy] Hl]. split; [assumption|].
        intros x [<-|Hx]; auto.
      * intros [Hin Hall]. repeat split; auto.
        -- apply Hall. now left.
        -- intros x Hx. apply Hall. now right.
    + intros x s' k' v' Hx. apply Hstep. now right.
Qed.

End Loops.

Module AlertMapFacts.

Import AlertMap.

Lemma in_delete (i k : string) (v : PriceAlert) (m : t) :
  In (k, v) (delete i m) <-> In (k, v) m /\ i <> k.
Proof.
  unfold delete. rewrite filter_In. cbn [fst].
  rewrite negb_true_iff, String.eqb_neq. intuition congruence.
Qed.

Lemma in_values (a : PriceAlert) (m : t) :
  In a (values m) <-> exists k, In (k, a) m.
Proof.
  unfold values. rewrite in_map_iff. split.
  - intros [[k v] [E H]]. cbn in E. subst. now exists k.
  - intros [k H]. now exists (k, a).
Qed.

Lemma wf_entry (m : t) (a : PriceAlert) :
  wf m -> In a (values m) -> In (id a, a) m.
Proof.
  intros [_ Hid] Ha. apply in_values in Ha as [k Hk].
  now rewrite <- (Hid _ _ Hk).
Qed.

Lemma NoDup_keys_functional (m : t) (k : string) (v v' : PriceAlert) :
  NoDup (keys m) -> In (k, v) m -> In (k, v') m -> v = v'.
Proof.
  unfold keys. induction m as [|[k0 v0] m IH]; cbn; [tauto|].
  intros Hnd H1 H2. inversion Hnd as [|? ? Hnotin Hnd']; subst.
  destruct H1 as [E1|H1], H2 as [E2|H2].
  - congruence.
  - inversion E1; subst. exfalso. apply Hnotin.
    change k with (fst (k, v')). now apply in_map.
  - inversion E2; subst. exfalso. apply Hnotin.
    change k with (fst (k, v)). now apply in_map.
  - now apply IH.
Qed.

(** In a well-formed map two stored alerts with the same [id] are the same
    alert. *)
Lemma wf_id_inj (m : t) (a b : PriceAlert) :
  wf m -> In a (values m) -> In b (values m) -> id a = id b -> a = b.
Proof.
  intros Hwf Ha Hb E.
  pose proof (@wf_entry m a Hwf Ha) as Ha'.
  pose proof (@wf_entry m b Hwf Hb) as Hb'.
  rewrite E in Ha'. destruct Hwf as [Hnd _].
  exact (@NoDup_keys_functional m (id b) a b Hnd Ha' Hb').
Qed.

End AlertMapFacts.

(* ================================================================== *)
(** ** Batching by pair address *)
(* ================================================================== *)

Module Grouping.

Import Monitor Observe.

Lemma pushTo_keys (k : string) (a : PriceAlert) (pairMap : PairMap) (k' : string) :
  In k' (map fst (pushTo k a pairMap)) <-> k' = k \/ In k' (map fst pairMap).
Proof.
  induction pairMap as [|[k0 g0] rest IH]; cbn.
  - intuition congruence.
  - destruct (String.eqb_spec k0 k) as [->|Hne]; cbn.
    + intuition congruence.
    + rewrite IH. intuition congruence.
Qed.

Lemma pushTo_NoDup (k : string) (a : PriceAlert) (pairMap : PairMap) :
  NoDup (map fst pairMap) -> NoDup (map fst (pushTo k a pairMap)).
Proof.
  induction pairMap as [|[k0 g0] rest IH]; cbn; intros Hnd.
  - constructor; [intros []|constructor].
  - inversion Hnd as [|? ? Hnotin Hnd']; subst.
    destruct (String.eqb_spec k0 k) as [->|Hne]; cbn.
    + now constructor.
    + constructor; [|now apply IH].
      rewrite pushTo_keys. intros [E|Hin]; [now apply Hne|now apply Hnotin].
Qed.

Lemma pushTo_in (k : string) (a : PriceAlert) (pairMap : PairMap)
    (k' : string) (g' : list PriceAlert) :
  In (k', g') (pushTo k a pairMap) ->
  In (k', g') pairMap \/
  (k' = k /\ (g' = [a] \/ exists g0, In (k, g0) pairMap /\ g' = g0 ++ [a])).
Proof.
  induction pairMap as [|[k0 g0] rest IH]; cbn.
  - intros [E|[]]. inversion E; subst. right. auto.
  - destruct (String.eqb_spec k0 k) as [->|Hne]; cbn.
    + intros [E|Hin]; [|now left; right].
      inversion E; subst. right. split; [reflexivity|].
      right. exists g0. auto.
    + intros [E|Hin]; [now left; left|].
      destruct (IH Hin) as [H|[-> [->|[g1 [H1 ->]]]]]; [now left; right| |].
      * right. auto.
      * right. split; [reflexivity|]. right. exists g1. auto.
Qed.

Lemma pushTo_partitioned (a : PriceAlert) (pairMap : PairMap) :
  partitioned pairMap -> partitioned (pushTo (pairAddress a) a pairMap).
Proof.
  intros [Hnd Hg]. split; [now apply pushTo_NoDup|].
  intros k g Hin.
  destruct (pushTo_in _ _ _ _ _ Hin) as [H|[-> [->|[g0 [H0 ->]]]]].
  - now apply Hg.
  - split; [discriminate|]. intros b [<-|[]]. reflexivity.
  - destruct (Hg _ _ H0) as [_ Hk]. split.
    + destruct g0; discriminate.
    + intros b Hb. apply in_app_or in Hb as [Hb|[<-|[]]]; auto.
Qed.

Lemma members_pushTo (k : string) (a : PriceAlert) (pairMap : PairMap) :
  Permutation (members (pushTo k a pairMap)) (a :: members pairMap).
Proof.
  unfold members. induction pairMap as [|[k0 g0] rest IH]; cbn.
  - apply Permutation_refl.
  - destruct (String.eqb_spec k0 k) as [->|Hne]; cbn.
    + rewrite <- app_assoc. cbn.
      apply Permutation_sym, Permutation_middle.
    + eapply Permutation_trans;
        [apply Permutation_app_head, IH | apply Permutation_sym, Permutation_middle].
Qed.

Lemma fold_pushTo (alerts : list PriceAlert) (pairMap : PairMap) :
  partitioned pairMap ->
  let result := fold_left (fun pm a => pushTo (pairAddress a) a pm) alerts pairMap in
  partitioned result /\ Permutation (members result) (members pairMap ++ alerts).
Proof.
  revert pairMap. induction alerts as [|a alerts IH]; intros pairMap Hp; cbn.
  - split; [assumption|]. now rewrite app_nil_r.
  - destruct (IH _ (pushTo_partitioned a pairMap Hp)) as [Hp' Hperm].
    split; [assumption|].
    eapply Permutation_trans; [exact Hperm|].
    eapply Permutation_trans;
      [apply Permutation_app_tail, members_pushTo|].
    cbn. apply Permutation_middle.
Qed.

(** The batching loop partitions its input. *)
Lemma groupByPair_partitioned (alerts : list PriceAlert) :
  partitioned (groupByPair alerts).
Proof.
  apply (fold_pushTo alerts []).
  split; [constructor|intros k g []].
Qed.

Lemma groupByPair_members (alerts : list PriceAlert) :
  Permutation (members (groupByPair alerts)) alerts.
Proof.
  apply (fold_pushTo alerts []).
  split; [constructor|intros k g []].
Qed.

Lemma in_members (pairMap : PairMap) (a : PriceAlert) :
  In a (members pairMap) <-> exists k g, In (k, g) pairMap /\ In a g.
Proof.
  unfold members. rewrite in_concat. split.
  - intros [g [Hg Ha]]. apply in_map_iff in Hg as [[k g'] [E Hin]].
    cbn in E. subst. eauto.
  - intros [k [g [Hin Ha]]]. exists g. split; [|assumption].
    apply in_map_iff. now exists (k, g).
Qed.

(** An alert of a group is an alert of the input with the group's key. *)
Lemma group_member (alerts : list PriceAlert) (k : string)
    (g : list PriceAlert) (a : PriceAlert) :
  In (k, g) (groupByPair alerts) -> In a g ->
  In a alerts /\ pairAddress a = k.
Proof.
  intros Hin Ha. split.
  - apply (Permutation_in _ (groupByPair_members alerts)).
    apply in_members. eauto.
  - destruct (groupByPair_partitioned alerts) as [_ Hg].
    now apply (Hg _ _ Hin).
Qed.

(** Every alert of the input is in the group of its pair address. *)
Lemma member_group (alerts : list PriceAlert) (a : PriceAlert) :
  In a alerts ->
  exists g, In (pairAddress a, g) (groupByPair alerts) /\ In a g.
Proof.
  intros Ha.
  apply (Permutation_in _ (Permutation_sym (groupByPair_members alerts))) in Ha.
  apply in_members in Ha as [k [g [Hin Hg]]].
  destruct (group_member _ _ _ _ Hin Hg) as [_ <-]. eauto.
Qed.

End Grouping.

(* ================================================================== *)
(** ** One monitoring cycle *)
(* ================================================================== *)

Module Cycle.

Import Monitor Observe JsFacts Grouping AlertMapFacts.

Lemma getAllAlerts_run (s : Storage) : getAllAlerts s = (snapshot s, s, []).
Proof. destruct s; reflexivity. Qed.

Lemma removeAlert_store (i : string) (s : Storage) :
  storeOf (removeAlert i s) = option_map (AlertMap.delete i) s.
Proof. destruct s; reflexivity. Qed.

Lemma removeAlert_value (i : string) (s : Storage) :
  valueOf (removeAlert i s) = None.
Proof. destruct s; reflexivity. Qed.

Lemma removeAlert_entries (i : string) (s : Storage) (k : string) (v : PriceAlert) :
  In (k, v) (entries (storeOf (removeAlert i s))) <-> In (k, v) (entries s) /\ i <> k.
Proof.
  rewrite removeAlert_store. destruct s as [m|]; cbn.
  - apply in_delete.
  - tauto.
Qed.

Lemma notify_store (w : World) (pairData : DexPairData) (a : PriceAlert)
    (msg : TriggerMessage) (s : Storage) :
  storeOf (notify w pairData a msg s) =
  if sendMessage w (chatId a) (triggerNote pairData a msg)
  then option_map (AlertMap.delete (id a)) s else s.
Proof.
  unfold notify. autorewrite with run.
  destruct (sendMessage w (chatId a) (triggerNote pairData a msg));
    autorewrite with run; [apply removeAlert_store|reflexivity].
Qed.

Lemma checkAlert_store (w : World) (pairData : DexPairData) (a : PriceAlert)
    (s : Storage) :
  storeOf (checkAlert w pairData (priceUsd pairData) a s) =
  if fires w pairData a then option_map (AlertMap.delete (id a)) s else s.
Proof.
  unfold checkAlert, fires, noteFor, shouldTrigger.
  destruct (checkCondition a (priceUsd pairData)) as [should msg].
  cbn [fst snd]. destruct should; cbn [andb];
    [apply notify_store|reflexivity].
Qed.

Lemma checkAlert_entries (w : World) (pairData : DexPairData) (a : PriceAlert)
    (s : Storage) (k : string) (v : PriceAlert) :
  In (k, v) (entries (storeOf (checkAlert w pairData (priceUsd pairData) a s))) <->
  In (k, v) (entries s) /\ (fires w pairData a = true -> id a <> k).
Proof.
  rewrite checkAlert_store. destruct (fires w pairData a).
  - destruct s as [m|]; cbn; [rewrite in_delete|]; tauto.
  - intuition discriminate.
Qed.

Lemma checkPair_entries (w : World) (pairKey : string) (g : list PriceAlert)
    (s : Storage) (k : string) (v : PriceAlert) :
  In (k, v) (entries (storeOf (checkPair w (pairKey, g) s))) <->
  In (k, v) (entries s) /\
  forall b, In b g -> firesVia w pairKey b = true -> id b <> k.
Proof.
  unfold checkPair, firesVia. autorewrite with run.
  destruct (http_get w pairKey) as [| | |[[|pairData rest]|]];
    cbn [firstPair]; autorewrite with run;
    try (intuition discriminate).
  apply (forEach_entries (checkAlert w pairData (priceUsd pairData))
           (fun b k => fires w pairData b = true -> id b <> k)).
  intros b s' k' v' _. apply checkAlert_entries.
Qed.

(** The storage after a cycle: exactly the entries whose key is not the [id]
    of a delivered alert of the snapshot, each as it was. *)
Lemma checkAlerts_entries (w : World) (s : Storage) (k : string) (v : PriceAlert) :
  In (k, v) (entries (storeOf (checkAlerts w s))) <->
  In (k, v) (entries s) /\
  forall b, In b (snapshot s) -> delivered w b = true -> id b <> k.
Proof.
  unfold checkAlerts. rewrite storeOf_bind, getAllAlerts_run.
  autorewrite with run.
  destruct (snapshot s) as [|a0 alerts] eqn:Hsnap.
  - cbn. intuition.
  - cbn [List.length Nat.eqb]. autorewrite with run.
    rewrite (forEach_entries (checkPair w)
               (fun e k => forall b, In b (snd e) ->
                             firesVia w (fst e) b = true -> id b <> k)).
    + split; intros [Hin Hall]; (split; [assumption|]).
      * intros b Hb Hd.
        destruct (member_group (a0 :: alerts) b Hb) as [g [Hg Hbg]].
        exact (Hall _ Hg b Hbg Hd).
      * intros [k0 g] Hg b Hbg Hf. cbn [fst snd] in *.
        destruct (group_member _ _ _ _ Hg Hbg) as [Hb <-].
        now apply Hall.
    + intros [k0 g] s' k' v' _. apply checkPair_entries.
Qed.

Lemma lookupFails_firstPair (r : FetchResult) :
  lookupFails r <-> firstPair r = None.
Proof.
  destruct r as [| | |[[|pairData rest]|]]; cbn; intuition discriminate.
Qed.

(** In a well-formed storage an alert of the snapshot survives the cycle
    exactly when it is not delivered. *)
Lemma survives_iff (w : World) (s : Storage) (b : PriceAlert) :
  AlertMap.wf (entries s) -> In b (snapshot s) ->
  In (id b, b) (entries (storeOf (checkAlerts w s))) <-> delivered w b = false.
Proof.
  intros Hwf Hb. rewrite checkAlerts_entries. split.
  - intros [_ Hall]. destruct (delivered w b) eqn:Hd; [|reflexivity].
    now destruct (Hall b Hb Hd).
  - intros Hd. split; [now apply wf_entry|].
    intros c Hc Hdc E.
    rewrite (wf_id_inj _ _ _ Hwf Hc Hb E) in Hdc. congruence.
Qed.

End Cycle.

(* ================================================================== *)
(** ** The events of a cycle *)
(* ================================================================== *)

Module Trace.

Import Monitor Observe Grouping AlertMapFacts Cycle.

Lemma isFetchOf_fetchTest (k : string) : fetchTest (isFetchOf k).
Proof. intros [k'| | | |]; cbn; congruence. Qed.

Lemma isFetch_fetchTest : fetchTest isFetch.
Proof. intros e H. exact H. Qed.

Lemma countEvents_none (p : Event -> bool) (l : list Event) :
  (forall e, In e l -> p e = false) -> countEvents p l = 0.
Proof.
  unfold countEvents. induction l as [|e l IH]; intros H; [reflexivity|].
  cbn. rewrite (H e) by (now left). apply IH. intros e' He'. apply H. now right.
Qed.

Lemma removeAlert_events (i : string) (s : Storage) (e : Event) :
  In e (eventsOf (removeAlert i s)) -> e = EvConsole (LogRemoved i).
Proof.
  unfold removeAlert. autorewrite with run.
  destruct s; autorewrite with run; cbn; intuition.
Qed.

(** Evaluating one alert makes no price request. *)
Lemma checkAlert_no_fetch (w : World) (pairData : DexPairData) (livePrice : number)
    (a : PriceAlert) (s : Storage) (e : Event) :
  In e (eventsOf (checkAlert w pairData livePrice a s)) -> isFetch e = false.
Proof.
  unfold checkAlert. destruct (checkCondition a livePrice) as [should msg].
  destruct should; [|intros []].
  unfold notify. autorewrite with run.
  destruct (sendMessage w (chatId a) (triggerNote pairData a msg));
    autorewrite with run; intros H;
    repeat (apply in_app_or in H as [H|H]);
    try (destruct H as [<-|[]]; reflexivity).
  now rewrite (removeAlert_events _ _ _ H).
Qed.

Lemma checkAlert_count (p : Event -> bool) (w : World) (pairData : DexPairData)
    (livePrice : number) (a : PriceAlert) (s : Storage) :
  fetchTest p -> countEvents p (eventsOf (checkAlert w pairData livePrice a s)) = 0.
Proof.
  intros Hp. apply countEvents_none. intros e He. apply Hp.
  exact (checkAlert_no_fetch _ _ _ _ _ _ He).
Qed.

Lemma sum_zero {X} (l : list X) : list_sum (map (fun _ => 0) l) = 0.
Proof. induction l; cbn; auto. Qed.

(** A pair costs one request, its own, whatever the number of its alerts and
    whatever the answer. *)
Lemma checkPair_count (p : Event -> bool) (w : World) (pairKey : string)
    (g : list PriceAlert) (s : Storage) :
  fetchTest p ->
  countEvents p (eventsOf (checkPair w (pairKey, g) s)) =
  if p (EvFetch pairKey) then 1 else 0.
Proof.
  intros Hp. unfold checkPair. autorewrite with run.
  rewrite !countEvents_app.
  assert (E0 : countEvents p [EvFetch pairKey] = if p (EvFetch pairKey) then 1 else 0)
    by (unfold countEvents; cbn; now destruct (p (EvFetch pairKey))).
  rewrite E0.
  match goal with |- _ + ?x = _ => enough (x = 0) as -> by apply Nat.add_0_r end.
  destruct (http_get w pairKey) as [| | |[[|pairData rest]|]];
    autorewrite with run;
    try (apply countEvents_none; intros e [<-|[]]; now apply Hp).
  rewrite countEvents_app.
  rewrite (forEach_count (checkAlert w pairData (priceUsd pairData)) p (fun _ => 0)).
  - rewrite sum_zero. apply countEvents_none. intros e [<-|[]]. now apply Hp.
  - intros a s' _. now apply checkAlert_count.
Qed.

Lemma indicator_sum_absent (k : string) (pairMap : PairMap) :
  ~ In k (map fst pairMap) ->
  list_sum (map (fun e => if String.eqb (fst e) k then 1 else 0) pairMap) = 0.
Proof.
  induction pairMap as [|[k0 g0] rest IH]; cbn; intros Hk; [reflexivity|].
  destruct (String.eqb_spec k0 k) as [->|Hne]; [tauto|]. apply IH. tauto.
Qed.

Lemma indicator_sum_present (k : string) (pairMap : PairMap) :
  NoDup (map fst pairMap) -> In k (map fst pairMap) ->
  list_sum (map (fun e => if String.eqb (fst e) k then 1 else 0) pairMap) = 1.
Proof.
  induction pairMap as [|[k0 g0] rest IH]; cbn; intros Hnd Hk; [tauto|].
  inversion Hnd as [|? ? Hnotin Hnd']; subst.
  destruct (String.eqb_spec k0 k) as [->|Hne].
  - now rewrite indicator_sum_absent.
  - apply IH; [assumption|]. destruct Hk; [contradiction|assumption].
Qed.

Lemma sum_ones {X} (l : list X) : list_sum (map (fun _ => 1) l) = List.length l.
Proof. induction l; cbn; auto. Qed.

(** The requests of a whole cycle, counted with a test [p]: the console lines
    around the loop add none. *)
Lemma checkAlerts_count (p : Event -> bool) (w : World) (s : Storage) :
  fetchTest p ->
  countEvents p (eventsOf (checkAlerts w s)) =
  list_sum (map (fun e => if p (EvFetch (fst e)) then 1 else 0)
              (groupByPair (snapshot s))).
Proof.
  intros Hp. unfold checkAlerts. rewrite eventsOf_bind, getAllAlerts_run.
  autorewrite with run.
  destruct (snapshot s) as [|a0 alerts] eqn:Hsnap.
  - cbn [List.length Nat.eqb]. autorewrite with run. cbn.
    unfold countEvents. cbn. now rewrite (Hp (EvConsole LogNoActiveAlerts)).
  - cbn [List.length Nat.eqb]. autorewrite with run.
    change (?x :: ?l ++ ?r) with ([x] ++ l ++ r).
    rewrite !countEvents_app.
    rewrite (countEvents_none p [EvConsole _])
      by (intros e [<-|[]]; now apply Hp).
    rewrite (countEvents_none p [EvConsole LogCycleCompleted])
      by (intros e [<-|[]]; now apply Hp).
    rewrite Nat.add_0_r. cbn [Nat.add].
    apply forEach_count. intros [k0 g] s' _. now apply checkPair_count.
Qed.

(** Find an event in a concatenation of event lists. *)
Ltac among := repeat rewrite in_app_iff; cbn [In]; auto 12.

(** What evaluating one alert always causes, whatever the storage. *)
Lemma checkAlert_sends (w : World) (pairData : DexPairData) (a : PriceAlert)
    (s : Storage) :
  shouldTrigger a (priceUsd pairData) = true ->
  In (EvSend (chatId a) (noteFor pairData a)
        (sendMessage w (chatId a) (noteFor pairData a)))
     (eventsOf (checkAlert w pairData (priceUsd pairData) a s)).
Proof.
  unfold shouldTrigger, noteFor, checkAlert.
  destruct (checkCondition a (priceUsd pairData)) as [should msg].
  cbn [fst snd]. intros ->. unfold notify. autorewrite with run. among.
Qed.

Lemma checkAlert_logs_failure (w : World) (pairData : DexPairData) (a : PriceAlert)
    (s : Storage) :
  shouldTrigger a (priceUsd pairData) = true ->
  sendMessage w (chatId a) (noteFor pairData a) = false ->
  In (EvConsole (ErrNotification (id a)))
     (eventsOf (checkAlert w pairData (priceUsd pairData) a s)).
Proof.
  unfold shouldTrigger, noteFor, checkAlert.
  destruct (checkCondition a (priceUsd pairData)) as [should msg].
  cbn [fst snd]. intros -> Hsend. unfold notify. autorewrite with run.
  rewrite Hsend. autorewrite with run. among.
Qed.

Lemma checkPair_fetches (w : World) (pairKey : string) (g : list PriceAlert)
    (s : Storage) :
  In (EvFetch pairKey) (eventsOf (checkPair w (pairKey, g) s)).
Proof.
  unfold checkPair. autorewrite with run. among.
Qed.

(** An event of the evaluation of an alert is an event of the pair's turn,
    provided the pair was served. *)
Lemma checkPair_event (w : World) (pairKey : string) (g : list PriceAlert)
    (pairData : DexPairData) (b : PriceAlert) (e : Event) (s : Storage) :
  firstPair (http_get w pairKey) = Some pairData ->
  In b g ->
  (forall s', In e (eventsOf (checkAlert w pairData (priceUsd pairData) b s'))) ->
  In e (eventsOf (checkPair w (pairKey, g) s)).
Proof.
  intros Hq Hb He.
  pose proof (forEach_event (checkAlert w pairData (priceUsd pairData)) e b g Hb He)
    as Hloop.
  unfold checkPair. autorewrite with run.
  destruct (http_get w pairKey) as [| | |[[|pd rest]|]]; try discriminate.
  cbn in Hq. injection Hq as ->. autorewrite with run. among.
Qed.

(** An event that the turn of a group always causes is an event of the
    cycle. *)
Lemma checkAlerts_pair_event (w : World) (s : Storage) (k : string)
    (g : list PriceAlert) (e : Event) :
  In (k, g) (groupByPair (snapshot s)) ->
  (forall s', In e (eventsOf (checkPair w (k, g) s'))) ->
  In e (eventsOf (checkAlerts w s)).
Proof.
  intros Hg He. unfold checkAlerts. rewrite eventsOf_bind, getAllAlerts_run.
  autorewrite with run.
  destruct (snapshot s) as [|a0 alerts] eqn:Hsnap; [destruct Hg|].
  pose proof (forEach_event (checkPair w) e (k, g) _ Hg He) as Hloop.
  cbn [List.length Nat.eqb]. autorewrite with run. among.
Qed.

Lemma checkAlerts_event (w : World) (s : Storage) (pairData : DexPairData)
    (b : PriceAlert) (e : Event) :
  In b (snapshot s) ->
  firstPair (http_get w (pairAddress b)) = Some pairData ->
  (forall s', In e (eventsOf (checkAlert w pairData (priceUsd pairData) b s'))) ->
  In e (eventsOf (checkAlerts w s)).
Proof.
  intros Hb Hq He. destruct (member_group _ _ Hb) as [g [Hg Hbg]].
  apply (checkAlerts_pair_event w s _ g e Hg).
  intros s'. now apply (checkPair_event w _ g pairData b e s').
Qed.

End Trace.

(* ================================================================== *)
(** ** The storage stays well formed *)
(* ================================================================== *)

Module Invariant.

Import Monitor Observe Grouping AlertMapFacts Cycle.
Import AlertMap.

Lemma NoDup_map_filter {X Y} (f : X -> Y) (p : X -> bool) (l : list X) :
  NoDup (map f l) -> NoDup (map f (filter p l)).
Proof.
  induction l as [|x l IH]; cbn; intros Hnd; [constructor|].
  inversion Hnd as [|? ? Hnotin Hnd']; subst.
  destruct (p x); cbn; [|now apply IH].
  constructor; [|now apply IH].
  intros Hin. apply Hnotin. apply in_map_iff in Hin as [y [E Hy]].
  apply filter_In in Hy as [Hy _]. rewrite <- E. now apply in_map.
Qed.

Lemma wf_delete (i : string) (m : t) : wf m -> wf (delete i m).
Proof.
  intros [Hnd Hid]. split.
  - now apply NoDup_map_filter.
  - intros k v Hin. apply in_delete in Hin as [Hin _]. now apply Hid.
Qed.

Lemma set_keys (k : string) (v : PriceAlert) (m : t) (k' : string) :
  In k' (keys (set k v m)) <-> k' = k \/ In k' (keys m).
Proof.
  unfold keys. induction m as [|[k0 v0] m IH]; cbn.
  - intuition congruence.
  - destruct (String.eqb_spec k0 k) as [->|Hne]; cbn.
    + intuition congruence.
    + rewrite IH. intuition congruence.
Qed.

Lemma set_in (k : string) (v : PriceAlert) (m : t) (k' : string) (v' : PriceAlert) :
  In (k', v') (set k v m) -> (k', v') = (k, v) \/ In (k', v') m.
Proof.
  induction m as [|[k0 v0] m IH]; cbn.
  - intuition congruence.
  - destruct (String.eqb_spec k0 k) as [->|Hne]; cbn.
    + intuition congruence.
    + intros [E|Hin]; [now right; left|]. destruct (IH Hin); auto.
Qed.

Lemma wf_set (a : PriceAlert) (m : t) : wf m -> wf (set (id a) a m).
Proof.
  intros [Hnd Hid]. split.
  - clear Hid. unfold keys in *. induction m as [|[k0 v0] m IH]; cbn.
    + constructor; [intros []|constructor].
    + inversion Hnd as [|? ? Hnotin Hnd']; subst.
      destruct (String.eqb_spec k0 (id a)) as [->|Hne]; cbn.
      * now constructor.
      * constructor; [|now apply IH].
        intros Hin. apply (set_keys (id a) a m k0) in Hin as [E|Hin]; auto.
  - intros k v Hin. apply set_in in Hin as [E|Hin]; [|now apply Hid].
    now inversion E.
Qed.

(** A loop keeps what each of its iterations keeps. *)
Lemma forEach_preserves {X} (P : Storage -> Prop) (body : X -> M unit) (l : list X) :
  (forall x s, P s -> P (storeOf (body x s))) ->
  forall s, P s -> P (storeOf (forEach l body s)).
Proof.
  intros Hstep. induction l as [|x l IH]; intros s Hs; [exact Hs|].
  cbn [forEach]. rewrite storeOf_bind. apply IH. now apply Hstep.
Qed.

Lemma wfStore_delete (i : string) (s : Storage) :
  wfStore s -> wfStore (option_map (delete i) s).
Proof. destruct s as [m|]; cbn; [apply wf_delete|auto]. Qed.

(** [addAlert], [removeAlert] and [checkAlerts] keep the storage well formed,
    and it is well formed before the first [addAlert]. *)
Lemma wfStore_initial : wfStore None.
Proof. split; [constructor|intros k v []]. Qed.

Lemma addAlert_wf (a : PriceAlert) (s : Storage) :
  wfStore s -> wfStore (storeOf (addAlert a s)).
Proof.
  intros Hs. unfold addAlert. autorewrite with run. unfold wfStore. cbn [entries].
  apply wf_set. destruct s as [m|]; [exact Hs|exact wfStore_initial].
Qed.

Lemma removeAlert_wf (i : string) (s : Storage) :
  wfStore s -> wfStore (storeOf (removeAlert i s)).
Proof. rewrite removeAlert_store. apply wfStore_delete. Qed.

Lemma checkAlerts_wf (w : World) (s : Storage) :
  wfStore s -> wfStore (storeOf (checkAlerts w s)).
Proof.
  intros Hs. unfold checkAlerts. rewrite storeOf_bind, getAllAlerts_run.
  autorewrite with run.
  destruct (Nat.eqb (List.length (snapshot s)) 0); autorewrite with run;
    [exact Hs|].
  apply forEach_preserves; [|exact Hs].
  intros [k g] s' Hs'. unfold checkPair. autorewrite with run.
  destruct (http_get w k) as [| | |[[|pairData rest]|]]; autorewrite with run;
    try exact Hs'.
  apply forEach_preserves; [|exact Hs'].
  intros b s2 Hs2. rewrite checkAlert_store.
  destruct (fires w pairData b); [now apply wfStore_delete|exact Hs2].
Qed.

End Invariant.

(* ================================================================== *)
(** ** The trigger conditions *)
(* ================================================================== *)

Module Conditions.

Import Monitor Observe JsFacts.

(** Decide every test of an [if] chain. *)
Ltac branches :=
  cbn;
  repeat match goal with
         | |- context [if ?c then _ else _] => destruct c; cbn
         end;
  try reflexivity.

(** [shouldTrigger] read off the [if]/[else if] chain, one kind at a time. *)
Lemma shouldTrigger_above (a : PriceAlert) (p : number) :
  alertType a = price_above -> shouldTrigger a p = gt p (targetValue a).
Proof.
  intros E. unfold shouldTrigger, checkCondition. rewrite E. branches.
Qed.

Lemma shouldTrigger_below (a : PriceAlert) (p : number) :
  alertType a = price_below -> shouldTrigger a p = lt p (targetValue a).
Proof.
  intros E. unfold shouldTrigger, checkCondition. rewrite E. branches.
Qed.

Lemma shouldTrigger_percent (a : PriceAlert) (p : number) :
  alertType a = percent_change ->
  shouldTrigger a p =
  (gt (targetValue a) 0%float && ge (percentOf p (currentPrice a)) (targetValue a))
  || (lt (targetValue a) 0%float && le (percentOf p (currentPrice a)) (targetValue a)).
Proof.
  intros E. unfold shouldTrigger, checkCondition. rewrite E. cbn.
  destruct (gt (targetValue a) 0%float &&
            ge (percentOf p (currentPrice a)) (targetValue a)); [reflexivity|].
  now destruct (lt (targetValue a) 0%float &&
                le (percentOf p (currentPrice a)) (targetValue a)).
Qed.

Lemma gt_lt (x y : number) : gt x y = lt y x.
Proof. reflexivity. Qed.

Lemma ge_le (x y : number) : ge x y = le y x.
Proof. reflexivity. Qed.

(** [+Infinity] is not below a negative number, [-Infinity] not above a
    positive one. *)
Lemma pinf_not_le_negative (x y : number) :
  Prim2SF x = S754_infinity false -> lt y 0%float = true -> le x y = false.
Proof.
  unfold lt, le. rewrite leb_spec, ltb_spec, Prim2SF_zero. intros ->.
  unfold SFltb, SFleb.
  destruct (Prim2SF y) as [[]|[]| |[] m e]; cbn; congruence.
Qed.

Lemma ninf_not_ge_positive (x y : number) :
  Prim2SF x = S754_infinity true -> lt 0%float y = true -> le y x = false.
Proof.
  unfold lt, le. rewrite leb_spec, ltb_spec, Prim2SF_zero. intros ->.
  unfold SFltb, SFleb.
  destruct (Prim2SF y) as [[]|[]| |[] m e]; cbn; congruence.
Qed.

(** A [percent_change] alert whose change comes out infinite or [NaN]. *)
Lemma percent_at_pinf (a : PriceAlert) (p : number) :
  alertType a = percent_change ->
  Prim2SF (percentOf p (currentPrice a)) = S754_infinity false ->
  shouldTrigger a p = gt (targetValue a) 0%float.
Proof.
  intros E Hinf. rewrite (shouldTrigger_percent a p E), !gt_lt, !ge_le.
  destruct (lt 0%float (targetValue a)) eqn:Ht.
  - rewrite (le_pinf _ _ (lt_not_nan_r _ _ Ht) Hinf). reflexivity.
  - cbn. destruct (lt (targetValue a) 0%float) eqn:Ht'; [|reflexivity].
    now rewrite (pinf_not_le_negative _ _ Hinf Ht').
Qed.

Lemma percent_at_ninf (a : PriceAlert) (p : number) :
  alertType a = percent_change ->
  Prim2SF (percentOf p (currentPrice a)) = S754_infinity true ->
  shouldTrigger a p = lt (targetValue a) 0%float.
Proof.
  intros E Hinf. rewrite (shouldTrigger_percent a p E), !gt_lt, !ge_le.
  destruct (lt 0%float (targetValue a)) eqn:Ht.
  - rewrite (ninf_not_ge_positive _ _ Hinf Ht), (lt_asym _ _ Ht). reflexivity.
  - cbn. destruct (lt (targetValue a) 0%float) eqn:Ht'; [|reflexivity].
    now rewrite (le_ninf _ _ (lt_not_nan_l _ _ Ht') Hinf).
Qed.

Lemma percent_at_nan (a : PriceAlert) (p : number) :
  alertType a = percent_change ->
  Prim2SF (percentOf p (currentPrice a)) = S754_nan ->
  shouldTrigger a p = false.
Proof.
  intros E Hnan. rewrite (shouldTrigger_percent a p E), !gt_lt, !ge_le.
  rewrite (le_nan_r _ _ Hnan), (le_nan_l _ _ Hnan).
  now rewrite !andb_false_r.
Qed.

End Conditions.

(* ================================================================== *)
(** ** The [/myalerts] listing *)
(* ================================================================== *)

Module Listing.

Import Monitor Observe Grouping Trace Cycle.

Section PushLoops.

Context {A B : Type} (body : A -> M (list B)).

Lemma forEachPush_value (f : A -> list B) (l : list A) :
  (forall x s, In x l -> valueOf (body x s) = f x) ->
  forall s, valueOf (forEachPush l body s) = flat_map f l.
Proof.
  induction l as [|x l IH]; intros Hf s; [reflexivity|].
  cbn [forEachPush flat_map]. autorewrite with run.
  rewrite Hf by (now left). f_equal. apply IH.
  intros y s' Hy. apply Hf. now right.
Qed.

Lemma forEachPush_store (l : list A) :
  (forall x s, storeOf (body x s) = s) ->
  forall s, storeOf (forEachPush l body s) = s.
Proof.
  intros Hs. induction l as [|x l IH]; intros s; [reflexivity|].
  cbn [forEachPush]. autorewrite with run. now rewrite IH, Hs.
Qed.

Lemma forEachPush_count (p : Event -> bool) (c : A -> nat) (l : list A) :
  (forall x s, In x l -> countEvents p (eventsOf (body x s)) = c x) ->
  forall s, countEvents p (eventsOf (forEachPush l body s)) = list_sum (map c l).
Proof.
  induction l as [|x l IH]; intros Hc s; [reflexivity|].
  cbn [forEachPush map]. autorewrite with run. rewrite !countEvents_app.
  rewrite Hc by (now left). simpl list_sum.
  rewrite (IH (fun y s' Hy => Hc y s' (or_intror Hy))).
  change (countEvents p []) with 0. lia.
Qed.

End PushLoops.

Lemma pricePair_value (w : World) (k : string) (g : list PriceAlert) (s : Storage) :
  valueOf (pricePair w (k, g) s) = map (shownFor w k) g.
Proof.
  unfold pricePair, shownFor. autorewrite with run.
  destruct (http_get w k) as [| | |[[|pairData rest]|]]; autorewrite with run;
    reflexivity.
Qed.

Lemma pricePair_store (w : World) (e : string * list PriceAlert) (s : Storage) :
  storeOf (pricePair w e s) = s.
Proof.
  destruct e as [k g]. unfold pricePair. autorewrite with run.
  destruct (http_get w k) as [| | |[[|pairData rest]|]]; autorewrite with run;
    reflexivity.
Qed.

Lemma pricePair_count (p : Event -> bool) (w : World) (k : string)
    (g : list PriceAlert) (s : Storage) :
  fetchTest p ->
  countEvents p (eventsOf (pricePair w (k, g) s)) = if p (EvFetch k) then 1 else 0.
Proof.
  intros Hp. unfold pricePair. autorewrite with run.
  rewrite !countEvents_app.
  assert (E0 : countEvents p [EvFetch k] = if p (EvFetch k) then 1 else 0)
    by (unfold countEvents; cbn; now destruct (p (EvFetch k))).
  rewrite E0.
  match goal with |- _ + ?x = _ => enough (x = 0) as -> by apply Nat.add_0_r end.
  destruct (http_get w k) as [| | |[[|pairData rest]|]]; autorewrite with run;
    apply countEvents_none;
    intros e He; repeat (apply in_app_or in He as [He|He]);
    try (destruct He as [<-|[]]; now apply Hp); destruct He.
Qed.

Lemma map_alert_shownFor (w : World) (k : string) (g : list PriceAlert) :
  map alert (map (shownFor w k) g) = g.
Proof. rewrite map_map. cbn. apply map_id. Qed.

Lemma alerts_of_listing (w : World) (pairMap : PairMap) :
  map alert (flat_map (fun e => map (shownFor w (fst e)) (snd e)) pairMap)
  = members pairMap.
Proof.
  unfold members. induction pairMap as [|[k g] rest IH]; [reflexivity|].
  cbn [flat_map map List.concat fst snd].
  now rewrite map_app, map_alert_shownFor, IH.
Qed.

Lemma getAlertsForChat_run (chat : number) (s : Storage) :
  getAlertsForChat chat s =
  (filter (fun a => seq (chatId a) chat) (snapshot s), s, []).
Proof.
  unfold getAlertsForChat, bind. rewrite getAllAlerts_run. reflexivity.
Qed.

Lemma priceAlerts_value (w : World) (alerts : list PriceAlert) (s : Storage) :
  valueOf (priceAlerts w alerts s) =
  flat_map (fun e => map (shownFor w (fst e)) (snd e)) (groupByPair alerts).
Proof.
  unfold priceAlerts. apply forEachPush_value.
  intros [k g] s' _. apply pricePair_value.
Qed.

Lemma priceAlerts_store (w : World) (alerts : list PriceAlert) (s : Storage) :
  storeOf (priceAlerts w alerts s) = s.
Proof.
  unfold priceAlerts. apply forEachPush_store. intros e s'. apply pricePair_store.
Qed.

(** The three runs of the handler: nothing to list, the first reply
    rejected, the first reply accepted. *)
Lemma myalerts_none (w : World) (chat : number) (s : Storage) :
  filter (fun a => seq (chatId a) chat) (snapshot s) = [] ->
  myalerts w chat s = (tt, s, [EvReply ReplyNoAlerts]).
Proof.
  intros Hnone. unfold myalerts, bind.
  rewrite getAlertsForChat_run, Hnone. reflexivity.
Qed.

Lemma myalerts_rejected (w : World) (chat : number) (s : Storage) :
  filter (fun a => seq (chatId a) chat) (snapshot s) <> [] ->
  ctx_reply w chat ReplyFetching = false ->
  myalerts w chat s = (tt, s, [EvReply ReplyFetching]).
Proof.
  intros Hsome Hno. unfold myalerts, bind.
  rewrite getAlertsForChat_run.
  destruct (filter _ (snapshot s)) as [|a0 rest]; [congruence|].
  cbn [List.length Nat.eqb]. rewrite run_reply, Hno. reflexivity.
Qed.

Lemma myalerts_accepted (w : World) (chat : number) (s : Storage)
    (alerts : list PriceAlert) :
  alerts = filter (fun a => seq (chatId a) chat) (snapshot s) ->
  alerts <> [] ->
  ctx_reply w chat ReplyFetching = true ->
  eventsOf (myalerts w chat s) =
    EvReply ReplyFetching ::
    eventsOf (priceAlerts w alerts s) ++
    [EvReply (ReplyAlertList (List.length (valueOf (priceAlerts w alerts s)))
                (mapFrom renderAlert 0 (valueOf (priceAlerts w alerts s))))] /\
  storeOf (myalerts w chat s) = s.
Proof.
  intros Hdef Hsome Hyes. unfold myalerts.
  rewrite eventsOf_bind, storeOf_bind, getAlertsForChat_run.
  autorewrite with run. rewrite <- Hdef. clear Hdef.
  destruct alerts as [|a0 rest]; [congruence|].
  cbn [List.length Nat.eqb]. autorewrite with run. rewrite Hyes.
  autorewrite with run. rewrite priceAlerts_store, app_nil_r.
  split; reflexivity.
Qed.

End Listing.

(* ================================================================== *)
(** ** The sample stores at work *)
(* ================================================================== *)

Module SampleFacts.

Import Monitor Observe.

Lemma twoPairs_wf : AlertMap.wf (entries Samples.twoPairs).
Proof.
  split.
  - repeat constructor; cbn; intuition discriminate.
  - intros k v Hin. cbn in Hin.
    destruct Hin as [E|[E|[E|[]]]]; inversion E; reflexivity.
Qed.

Lemma oneAlert_wf : AlertMap.wf (entries Samples.oneAlert).
Proof.
  split.
  - repeat constructor; cbn; intuition discriminate.
  - intros k v Hin. cbn in Hin. destruct Hin as [E|[]]; inversion E; reflexivity.
Qed.

(** The failing input of C2: the alert is live, the first cancellation
    removes it and still reports it as not located, exactly as the second
    cancellation does. *)
Lemma cancel_live_alert_not_located :
  AlertMap.get "alert_1"%string (entries Samples.oneAlert) = Some Samples.aboveHundred /\
  Tools.cancelAlert Samples.downWorld "alert_1"%string (Some 7%float) Samples.oneAlert =
    (Tools.NotLocated "alert_1"%string, Some [],
     [EvConsole (LogRemoved "alert_1"%string)]) /\
  Tools.cancelAlert Samples.downWorld "alert_1"%string (Some 7%float) (Some []) =
    (Tools.NotLocated "alert_1"%string, Some [],
     [EvConsole (LogRemoved "alert_1"%string)]).
Proof. repeat split. Qed.

(** The two end-to-end scenarios of the specification.  At [95] the alert
    "above 100" stays; at [101] one message is sent and the alert is gone. *)
Example scenario_above_pending :
  checkAlerts (Samples.flatWorld 95%float true) Samples.oneAlert =
  (tt, Samples.oneAlert,
   [EvConsole (LogInitiating 1); EvFetch "0xpair"%string; EvSleep 200;
    EvConsole LogCycleCompleted]).
Proof. reflexivity. Qed.

Example scenario_above_fires :
  checkAlerts (Samples.flatWorld 101%float true) Samples.oneAlert =
  (tt, Some [],
   [EvConsole (LogInitiating 1); EvFetch "0xpair"%string;
    EvSend 7%float
      (TriggerNote
         (Surpassed Samples.aboveHundred 101%float (percentOf 101%float 90%float))
         [] "ethereum"%string)
      true;
    EvConsole (LogRemoved "alert_1"%string);
    EvConsole (LogTriggered "alert_1"%string);
    EvSleep 200; EvConsole LogCycleCompleted]).
Proof. reflexivity. Qed.

(** A 12% drop meets the target of -10%, an 8% drop does not. *)
Example scenario_drop :
  percentOf 44%float 50%float = (-12)%float /\
  shouldTrigger Samples.dropTen 44%float = true /\
  percentOf 46%float 50%float = (-8)%float /\
  shouldTrigger Samples.dropTen 46%float = false.
Proof. repeat split. Qed.

(** The sample stores are what [addAlert] builds. *)
Example oneAlert_added :
  storeOf (addAlert Samples.aboveHundred None) = Samples.oneAlert.
Proof. reflexivity. Qed.

End SampleFacts.

(* ================================================================== *)
(** ** The claims *)
(* ================================================================== *)

Import Monitor Observe JsFacts Cycle Grouping Trace Conditions AlertMapFacts
  Listing SampleFacts.

(** C5. A [price_above] alert triggers iff the fetched price is strictly
    greater than its target, a [price_below] alert iff it is strictly less;
    when the price equals the target, neither triggers. *)
Theorem above_below_strict (a : PriceAlert) (p : number) :
  (alertType a = price_above ->
     (shouldTrigger a p = true <-> gt p (targetValue a) = true) /\
     (seq p (targetValue a) = true -> shouldTrigger a p = false)) /\
  (alertType a = price_below ->
     (shouldTrigger a p = true <-> lt p (targetValue a) = true) /\
     (seq p (targetValue a) = true -> shouldTrigger a p = false)).
Proof.
  split; intros E.
  - rewrite (shouldTrigger_above a p E). split; [reflexivity|].
    intros Heq. rewrite gt_lt. now destruct (seq_not_lt _ _ Heq).
  - rewrite (shouldTrigger_below a p E). split; [reflexivity|].
    intros Heq. now destruct (seq_not_lt _ _ Heq).
Qed.

Lemma above_below_strict_witness :
  (shouldTrigger Samples.aboveHundred 101%float = true <->
   gt 101%float (targetValue Samples.aboveHundred) = true) /\
  shouldTrigger Samples.aboveHundred 100%float = false /\
  (shouldTrigger Samples.belowHundred 99%float = true <->
   lt 99%float (targetValue Samples.belowHundred) = true) /\
  shouldTrigger Samples.belowHundred 100%float = false.
Proof.
  destruct (above_below_strict Samples.aboveHundred 101%float) as [Ha _].
  destruct (above_below_strict Samples.aboveHundred 100%float) as [Ha' _].
  destruct (above_below_strict Samples.belowHundred 99%float) as [_ Hb].
  destruct (above_below_strict Samples.belowHundred 100%float) as [_ Hb'].
  split; [exact (proj1 (Ha eq_refl))|].
  split; [exact (proj2 (Ha' eq_refl) eq_refl)|].
  split; [exact (proj1 (Hb eq_refl))|].
  exact (proj2 (Hb' eq_refl) eq_refl).
Defined.

(** C6. For a [percent_change] alert with a nonzero reference price and
    [pct = (price - reference) / reference * 100]: with a positive target it
    triggers iff [pct >= target], with a negative target iff [pct <= target],
    and with a zero target never. *)
Theorem percent_change_rule (a : PriceAlert) (p : number) :
  alertType a = percent_change ->
  seq (currentPrice a) 0%float = false ->
  let pct := percentOf p (currentPrice a) in
  (gt (targetValue a) 0%float = true ->
     (shouldTrigger a p = true <-> ge pct (targetValue a) = true)) /\
  (lt (targetValue a) 0%float = true ->
     (shouldTrigger a p = true <-> le pct (targetValue a) = true)) /\
  (seq (targetValue a) 0%float = true -> shouldTrigger a p = false).
Proof.
  intros E _ pct. rewrite (shouldTrigger_percent a p E). fold pct.
  split; [|split].
  - intros Hpos. rewrite Hpos. rewrite gt_lt in Hpos.
    rewrite (lt_asym _ _ Hpos). cbn. now rewrite orb_false_r.
  - intros Hneg. rewrite Hneg. rewrite gt_lt, (lt_asym _ _ Hneg). cbn.
    reflexivity.
  - intros Hzero. destruct (seq_not_lt _ _ Hzero) as [H1 H2].
    rewrite gt_lt, H1, H2. reflexivity.
Qed.

Lemma percent_change_rule_witness :
  shouldTrigger Samples.dropTen 44%float = true /\
  shouldTrigger Samples.dropTen 46%float = false.
Proof.
  destruct (percent_change_rule Samples.dropTen 44%float eq_refl eq_refl)
    as (_ & Hneg & _).
  destruct (percent_change_rule Samples.dropTen 46%float eq_refl eq_refl)
    as (_ & Hneg' & _).
  split.
  - apply (proj2 (Hneg eq_refl)). reflexivity.
  - destruct (shouldTrigger Samples.dropTen 46%float) eqn:E; [|reflexivity].
    pose proof (proj1 (Hneg' eq_refl) eq_refl) as Hle.
    vm_compute in Hle. discriminate Hle.
Defined.

(** C3, as the specification states it, fails: a [percent_change] alert with
    reference price [0] and target [+10] triggers at the price [1], because
    [(1 - 0) / 0 * 100] is [+Infinity]. *)
Lemma zero_reference_triggers :
  alertType Samples.gainTenFromZero = percent_change /\
  seq (currentPrice Samples.gainTenFromZero) 0%float = true /\
  percentOf 1%float (currentPrice Samples.gainTenFromZero) = infinity /\
  shouldTrigger Samples.gainTenFromZero 1%float = true.
Proof. repeat split. Qed.

(** C3, amended. With a reference price that is zero (for JavaScript, [0]
    and [-0]) nothing is raised and nothing is guarded.  With the reference
    [0] the quotient is [+Infinity] for a positive price and [-Infinity] for
    a negative one: at a positive price the alert triggers exactly when its
    target is positive, at a negative price exactly when its target is
    negative.  With the reference [-0] the infinities change sides, and the
    two rules with them.  At the price zero the quotient is [NaN] and the
    alert never triggers. *)
Theorem zero_reference_rule (a : PriceAlert) (p : number) :
  alertType a = percent_change ->
  seq (currentPrice a) 0%float = true ->
  (currentPrice a = 0%float \/ currentPrice a = (-0)%float) /\
  (currentPrice a = 0%float ->
     (lt 0%float p = true -> shouldTrigger a p = gt (targetValue a) 0%float) /\
     (lt p 0%float = true -> shouldTrigger a p = lt (targetValue a) 0%float)) /\
  (currentPrice a = (-0)%float ->
     (lt 0%float p = true -> shouldTrigger a p = lt (targetValue a) 0%float) /\
     (lt p 0%float = true -> shouldTrigger a p = gt (targetValue a) 0%float)) /\
  (seq p 0%float = true -> shouldTrigger a p = false).
Proof.
  intros E Hzero.
  split; [exact (seq_zero_cases _ Hzero)|].
  split; [|split].
  - intros Href. split; intros Hp.
    + apply (percent_at_pinf a p E). rewrite Href. now apply percentOf_zero_pos.
    + apply (percent_at_ninf a p E). rewrite Href. now apply percentOf_zero_neg.
  - intros Href. split; intros Hp.
    + apply (percent_at_ninf a p E). rewrite Href. now apply percentOf_negzero_pos.
    + apply (percent_at_pinf a p E). rewrite Href. now apply percentOf_negzero_neg.
  - intros Hp. apply (percent_at_nan a p E).
    destruct (seq_zero_cases _ Hzero) as [-> | ->];
      [now apply percentOf_zero_zero|now apply percentOf_negzero_zero].
Qed.

Lemma zero_reference_rule_witness :
  shouldTrigger Samples.gainTenFromZero 1%float = true /\
  shouldTrigger Samples.gainTenFromZero 0%float = false /\
  shouldTrigger Samples.gainTenFromMinusZero 1%float = false /\
  shouldTrigger Samples.dropTenFromMinusZero 1%float = true.
Proof.
  destruct (zero_reference_rule Samples.gainTenFromZero 1%float eq_refl eq_refl)
    as (_ & Hpos & _ & _).
  destruct (zero_reference_rule Samples.gainTenFromZero 0%float eq_refl eq_refl)
    as (_ & _ & _ & Hzero).
  destruct (zero_reference_rule Samples.gainTenFromMinusZero 1%float eq_refl eq_refl)
    as (_ & _ & Hgain & _).
  destruct (zero_reference_rule Samples.dropTenFromMinusZero 1%float eq_refl eq_refl)
    as (_ & _ & Hdrop & _).
  split; [|split; [|split]].
  - exact (proj1 (Hpos eq_refl) eq_refl).
  - exact (Hzero eq_refl).
  - exact (proj1 (Hgain eq_refl) eq_refl).
  - exact (proj1 (Hdrop eq_refl) eq_refl).
Defined.

(** C9. A cycle over an empty store writes one console line and returns: no
    price request, the storage as it was. *)
Theorem empty_store_cycle (w : World) (s : Storage) :
  snapshot s = [] ->
  checkAlerts w s = (tt, s, [EvConsole LogNoActiveAlerts]) /\
  countEvents isFetch (eventsOf (checkAlerts w s)) = 0 /\
  storeOf (checkAlerts w s) = s.
Proof.
  intros Hempty.
  assert (E : checkAlerts w s = (tt, s, [EvConsole LogNoActiveAlerts])).
  { unfold checkAlerts, bind. rewrite getAllAlerts_run, Hempty. reflexivity. }
  rewrite E. repeat split.
Qed.

Lemma empty_store_cycle_witness :
  checkAlerts Samples.downWorld None = (tt, None, [EvConsole LogNoActiveAlerts]) /\
  storeOf (checkAlerts Samples.downWorld (Some [])) = Some [].
Proof.
  split.
  - exact (proj1 (empty_store_cycle Samples.downWorld None eq_refl)).
  - exact (proj2 (proj2 (empty_store_cycle Samples.downWorld (Some []) eq_refl))).
Defined.

(** C7. The cycle partitions its snapshot by pair address and makes one
    price request per group: however many alerts share a pair address, that
    address is requested exactly once. *)
Theorem one_lookup_per_pair (w : World) (s : Storage) :
  let groups := groupByPair (snapshot s) in
  partitioned groups /\
  Permutation (members groups) (snapshot s) /\
  countEvents isFetch (eventsOf (checkAlerts w s)) = List.length groups /\
  forall a, In a (snapshot s) ->
    countEvents (isFetchOf (pairAddress a)) (eventsOf (checkAlerts w s)) = 1.
Proof.
  intros groups. split; [apply groupByPair_partitioned|].
  split; [apply groupByPair_members|]. split.
  - rewrite (checkAlerts_count isFetch w s isFetch_fetchTest). cbn [isFetch].
    apply sum_ones.
  - intros a Ha.
    rewrite (checkAlerts_count _ w s (isFetchOf_fetchTest (pairAddress a))).
    cbn [isFetchOf].
    destruct (groupByPair_partitioned (snapshot s)) as [Hnd _].
    apply indicator_sum_present; [assumption|].
    destruct (member_group _ _ Ha) as [g [Hg _]].
    change (pairAddress a) with (fst (pairAddress a, g)). now apply in_map.
Qed.

Lemma one_lookup_per_pair_witness :
  countEvents (isFetchOf (pairAddress Samples.aboveHundred))
    (eventsOf (checkAlerts (Samples.flatWorld 95%float true) Samples.twoPairs)) = 1.
Proof.
  apply (one_lookup_per_pair (Samples.flatWorld 95%float true) Samples.twoPairs).
  cbn. left. reflexivity.
Defined.

(** C10. A cycle only deletes: every entry of the storage after it is an
    entry of the storage before it, under the same key and with the same
    record; so the keys after are keys before and the alerts after are
    alerts before, field for field. *)
Theorem cycle_only_deletes (w : World) (s : Storage) :
  let after := storeOf (checkAlerts w s) in
  (forall k v, In (k, v) (entries after) -> In (k, v) (entries s)) /\
  incl (AlertMap.keys (entries after)) (AlertMap.keys (entries s)) /\
  incl (snapshot after) (snapshot s).
Proof.
  intros after.
  assert (H : forall k v, In (k, v) (entries after) -> In (k, v) (entries s)).
  { intros k v Hin. now apply (checkAlerts_entries w s k v). }
  split; [exact H|]. split.
  - intros k Hk. apply in_map_iff in Hk as [[k' v] [<- Hin]].
    unfold AlertMap.keys. apply in_map. now apply H.
  - intros a Ha. apply in_values in Ha as [k Hk]. apply in_values.
    exists k. now apply H.
Qed.

Lemma cycle_only_deletes_witness :
  In ("alert_3"%string, Samples.dropTen) (entries Samples.twoPairs).
Proof.
  apply (cycle_only_deletes (Samples.flatWorld 101%float true) Samples.twoPairs).
  vm_compute. left. reflexivity.
Defined.

(** C8. When the price request of a pair fails, every alert of that pair is
    in the storage after the cycle as it was before; and every alert whose
    own pair is served is still requested and evaluated: its message is sent
    when its condition holds, and it leaves the storage exactly when that
    message is accepted. *)
Theorem lookup_failure_isolated (w : World) (s : Storage) (a : PriceAlert) :
  AlertMap.wf (entries s) ->
  In a (snapshot s) ->
  lookupFails (http_get w (pairAddress a)) ->
  let after := checkAlerts w s in
  In (id a, a) (entries (storeOf after)) /\
  forall b pairData,
    In b (snapshot s) ->
    firstPair (http_get w (pairAddress b)) = Some pairData ->
    pairAddress b <> pairAddress a /\
    In (EvFetch (pairAddress b)) (eventsOf after) /\
    (shouldTrigger b (priceUsd pairData) = true ->
       In (EvSend (chatId b) (noteFor pairData b)
             (sendMessage w (chatId b) (noteFor pairData b)))
          (eventsOf after)) /\
    (In (id b, b) (entries (storeOf after)) <-> fires w pairData b = false).
Proof.
  intros Hwf Ha Hfail after. apply lookupFails_firstPair in Hfail. split.
  - apply survives_iff; [assumption..|].
    unfold delivered, firesVia. now rewrite Hfail.
  - intros b pairData Hb Hq. repeat split.
    + intros E. rewrite E in Hq. congruence.
    + destruct (member_group _ _ Hb) as [g [Hg _]].
      apply (checkAlerts_pair_event w s _ g _ Hg).
      intros s'. apply checkPair_fetches.
    + intros Hshould. apply (checkAlerts_event w s pairData b _ Hb Hq).
      intros s'. now apply checkAlert_sends.
    + intros Hin. apply (survives_iff w s b Hwf Hb) in Hin.
      unfold delivered, firesVia in Hin. now rewrite Hq in Hin.
    + intros Hf. apply (survives_iff w s b Hwf Hb).
      unfold delivered, firesVia. now rewrite Hq.
Qed.

Lemma lookup_failure_isolated_witness :
  In ("alert_4"%string, Samples.gainTenFromZero)
     (entries (storeOf (checkAlerts (Samples.onePairWorld 101%float) Samples.twoPairs))) /\
  In (EvFetch "0xpair"%string)
     (eventsOf (checkAlerts (Samples.onePairWorld 101%float) Samples.twoPairs)).
Proof.
  assert (Hin : In Samples.gainTenFromZero (snapshot Samples.twoPairs))
    by (cbn; auto).
  assert (Hin' : In Samples.aboveHundred (snapshot Samples.twoPairs))
    by (cbn; auto).
  destruct (lookup_failure_isolated (Samples.onePairWorld 101%float)
              Samples.twoPairs Samples.gainTenFromZero twoPairs_wf Hin I)
    as [Hkept Hothers].
  split; [exact Hkept|].
  exact (proj1 (proj2 (Hothers Samples.aboveHundred _ Hin' eq_refl))).
Defined.

(** C1, as the specification states it, fails: the alert's condition holds
    at the price [101], Telegram rejects the message, the failure is logged,
    and the cycle leaves the alert in the storage. *)
Lemma failed_send_keeps_alert :
  shouldTrigger Samples.aboveHundred 101%float = true /\
  In (EvSend 7%float
        (noteFor (mkPair 101%float None None None) Samples.aboveHundred) false)
     (eventsOf (checkAlerts (Samples.flatWorld 101%float false) Samples.oneAlert)) /\
  In (EvConsole (ErrNotification "alert_1"%string))
     (eventsOf (checkAlerts (Samples.flatWorld 101%float false) Samples.oneAlert)) /\
  storeOf (checkAlerts (Samples.flatWorld 101%float false) Samples.oneAlert)
  = Samples.oneAlert.
Proof.
  split; [reflexivity|]. split; [|split; [|reflexivity]].
  - vm_compute. right. right. left. reflexivity.
  - vm_compute. right. right. right. left. reflexivity.
Qed.

(** C1, amended. For an alert whose pair is served and whose condition
    holds, the message is sent; when the send fails, the failure is logged
    and the alert stays in the storage as it was (the removal follows the
    send inside the same [try]); when the send succeeds, the alert is absent
    from the storage after the cycle. *)
Theorem failed_send_retains (w : World) (s : Storage) (a : PriceAlert)
    (pairData : DexPairData) :
  AlertMap.wf (entries s) ->
  In a (snapshot s) ->
  firstPair (http_get w (pairAddress a)) = Some pairData ->
  shouldTrigger a (priceUsd pairData) = true ->
  let after := checkAlerts w s in
  let sent := sendMessage w (chatId a) (noteFor pairData a) in
  In (EvSend (chatId a) (noteFor pairData a) sent) (eventsOf after) /\
  (sent = false ->
     In (EvConsole (ErrNotification (id a))) (eventsOf after) /\
     In (id a, a) (entries (storeOf after))) /\
  (sent = true ->
     ~ In (id a) (AlertMap.keys (entries (storeOf after)))).
Proof.
  intros Hwf Ha Hq Hshould after sent.
  assert (Hd : delivered w a = sent).
  { unfold delivered, firesVia, fires. rewrite Hq, Hshould. reflexivity. }
  split; [|split].
  - apply (checkAlerts_event w s pairData a _ Ha Hq).
    intros s'. now apply checkAlert_sends.
  - intros Hfail. split.
    + apply (checkAlerts_event w s pairData a _ Ha Hq).
      intros s'. now apply checkAlert_logs_failure.
    + apply survives_iff; [assumption..|]. now rewrite Hd.
  - intros Hok Hin. unfold AlertMap.keys in Hin.
    apply in_map_iff in Hin as [[k v] [E Hin]]. cbn in E. subst k.
    apply checkAlerts_entries in Hin as [_ Hall].
    apply (Hall a Ha); [now rewrite Hd|reflexivity].
Qed.

Lemma failed_send_retains_witness :
  In ("alert_1"%string, Samples.aboveHundred)
     (entries (storeOf (checkAlerts (Samples.flatWorld 101%float false) Samples.oneAlert))) /\
  ~ In "alert_1"%string
     (AlertMap.keys
        (entries (storeOf (checkAlerts (Samples.flatWorld 101%float true) Samples.oneAlert)))).
Proof.
  assert (Hin : In Samples.aboveHundred (snapshot Samples.oneAlert))
    by (cbn; auto).
  split.
  - exact (proj2 (proj1 (proj2
      (failed_send_retains (Samples.flatWorld 101%float false) Samples.oneAlert
         Samples.aboveHundred (mkPair 101%float None None None)
         oneAlert_wf Hin eq_refl eq_refl)) eq_refl)).
  - exact (proj2 (proj2
      (failed_send_retains (Samples.flatWorld 101%float true) Samples.oneAlert
         Samples.aboveHundred (mkPair 101%float None None None)
         oneAlert_wf Hin eq_refl eq_refl)) eq_refl).
Defined.

(** C2. [removeAlert] deletes the entry but hands nothing back, so
    [cancelAlert] takes its "could not be located" branch on every call: on
    the first call for a live alert as on the second.  Nothing is thrown in
    either case. *)
Theorem cancel_never_returns_record (w : World) (alertId : string)
    (telegramChatId : option number) (s : Storage) :
  valueOf (removeAlert alertId s) = None /\
  Tools.cancelAlert w alertId telegramChatId s =
    (Tools.NotLocated alertId, option_map (AlertMap.delete alertId) s,
     eventsOf (removeAlert alertId s)).
Proof.
  split; [apply removeAlert_value|].
  unfold Tools.cancelAlert, bind.
  destruct s as [m|]; reflexivity.
Qed.

(** C4, as the specification states it, fails on its last point: nothing in
    the reply tells a stored price from a fetched one.  With DexScreener down
    the listing of the alert created at [90] is, event for event, the listing
    obtained when DexScreener serves [90]. *)
Lemma stale_price_unlabelled :
  lookupFails (http_get Samples.downWorld "0xpair"%string) /\
  firstPair (http_get (Samples.flatWorld 90%float true) "0xpair"%string)
    = Some (mkPair 90%float None None None) /\
  myalerts Samples.downWorld 7%float Samples.oneAlert
    = myalerts (Samples.flatWorld 90%float true) 7%float Samples.oneAlert.
Proof. repeat split. Qed.

(** C4, amended. The listing holds exactly the stored alerts of the
    recipient, batched by pair address; an entry shows the price fetched for
    its pair address, or the alert's stored price when that request fails.
    When Telegram accepts the reply that announces the fetching, each pair
    address is requested once and the list is replied, rendered from these
    entries alone (so a stored price is not marked); when Telegram rejects
    it, the handler ends there, without a request and without a list.  The
    storage is left as it was. *)
Theorem listing_shows_fetched_or_stored (w : World) (chat : number) (s : Storage) :
  let alerts := filter (fun a => seq (chatId a) chat) (snapshot s) in
  let listed := valueOf (priceAlerts w alerts s) in
  let run := myalerts w chat s in
  valueOf (getAlertsForChat chat s) = alerts /\
  Permutation (map alert listed) alerts /\
  (forall item, In item listed ->
     shownPrice item =
     match firstPair (http_get w (pairAddress (alert item))) with
     | Some pairData => priceUsd pairData
     | None => currentPrice (alert item)
     end) /\
  (ctx_reply w chat ReplyFetching = true ->
     (forall a, In a alerts ->
        countEvents (isFetchOf (pairAddress a)) (eventsOf run) = 1) /\
     (alerts <> [] ->
        In (EvReply (ReplyAlertList (List.length listed)
                       (mapFrom renderAlert 0 listed)))
           (eventsOf run))) /\
  (alerts <> [] -> ctx_reply w chat ReplyFetching = false ->
     eventsOf run = [EvReply ReplyFetching]) /\
  storeOf run = s.
Proof.
  intros alerts listed run.
  assert (Hdef : alerts = filter (fun a => seq (chatId a) chat) (snapshot s))
    by reflexivity.
  split; [now rewrite getAlertsForChat_run|].
  split; [|split; [|split; [|split]]].
  - unfold listed. rewrite priceAlerts_value, alerts_of_listing.
    apply groupByPair_members.
  - intros item Hitem. unfold listed in Hitem.
    rewrite priceAlerts_value in Hitem.
    apply in_flat_map in Hitem as [[k g] [Hg Hitem]]. cbn [fst snd] in Hitem.
    apply in_map_iff in Hitem as [a [<- Ha]].
    destruct (group_member _ _ _ _ Hg Ha) as [_ <-]. reflexivity.
  - intros Hyes. split.
    + intros a Ha.
      assert (Hsome : alerts <> []) by (intros E; rewrite E in Ha; destruct Ha).
      unfold run.
      rewrite (proj1 (myalerts_accepted w chat s alerts Hdef Hsome Hyes)).
      change (EvReply ReplyFetching :: ?l) with ([EvReply ReplyFetching] ++ l).
      rewrite !countEvents_app. unfold priceAlerts.
      rewrite (forEachPush_count (pricePair w) (isFetchOf (pairAddress a))
                 (fun e => if String.eqb (fst e) (pairAddress a) then 1 else 0)).
      * rewrite indicator_sum_present.
        -- unfold countEvents. cbn. reflexivity.
        -- apply groupByPair_partitioned.
        -- destruct (member_group _ _ Ha) as [g [Hg _]].
           change (pairAddress a) with (fst (pairAddress a, g)). now apply in_map.
      * intros [k g] s' _.
        now rewrite (pricePair_count _ w k g s' (isFetchOf_fetchTest _)).
    + intros Hsome. unfold run.
      rewrite (proj1 (myalerts_accepted w chat s alerts Hdef Hsome Hyes)).
      right. apply in_or_app. right. now left.
  - intros Hsome Hno. unfold run.
    now rewrite (myalerts_rejected w chat s Hsome Hno).
  - unfold run. destruct alerts as [|a0 rest] eqn:Halerts.
    + now rewrite (myalerts_none w chat s (eq_sym Hdef)).
    + destruct (ctx_reply w chat ReplyFetching) eqn:Hreply.
      * apply (myalerts_accepted w chat s (a0 :: rest) Hdef); [discriminate|exact Hreply].
      * rewrite (myalerts_rejected w chat s); [reflexivity| |exact Hreply].
        rewrite <- Hdef. discriminate.
Qed.

Lemma listing_shows_fetched_or_stored_witness :
  countEvents (isFetchOf "0xpair"%string)
    (eventsOf (myalerts (Samples.onePairWorld 95%float) 7%float Samples.twoPairs)) = 1 /\
  In (EvReply (ReplyAlertList 2
        (mapFrom renderAlert 0
           [mkPriced Samples.aboveHundred 95%float;
            mkPriced Samples.dropTen 95%float])))
     (eventsOf (myalerts (Samples.onePairWorld 95%float) 7%float Samples.twoPairs)) /\
  eventsOf (myalerts (Samples.noReplyWorld 95%float) 7%float Samples.twoPairs)
  = [EvReply ReplyFetching].
Proof.
  pose proof (listing_shows_fetched_or_stored
                (Samples.onePairWorld 95%float) 7%float Samples.twoPairs) as H.
  pose proof (listing_shows_fetched_or_stored
                (Samples.noReplyWorld 95%float) 7%float Samples.twoPairs) as H'.
  cbv zeta in H, H'.
  destruct H as (_ & _ & _ & Haccepted & _ & _).
  destruct H' as (_ & _ & _ & _ & Hrejected & _).
  destruct (Haccepted eq_refl) as [Hcount Hreply].
  split; [|split].
  - apply (Hcount Samples.aboveHundred). vm_compute. left. reflexivity.
  - apply Hreply. vm_compute. discriminate.
  - apply Hrejected; [vm_compute; discriminate|reflexivity].
Defined.

(* ================================================================== *)
(** * The creation tools and further properties *)
(* ================================================================== *)

(* ================================================================== *)
(** ** The [confirmTokenAlert] and [tokenPriceAlert] tools
       ([tools/tokenPriceAlert.ts], lines 86-349) *)
(* ================================================================== *)

(** The arguments of [confirmTokenAlert] (lines 238-261). *)
Module Params.

Record t := mk {
  tokenChoice : number;
  pairAddress : string;
  tokenAddress : string;
  tokenSymbol : string;
  tokenName : string;
  chainId : string;
  currentPrice : number;
  alertType : AlertType;
  targetValue : number;
  telegramChatId : number
}.

End Params.

(** One pair of a DexScreener search, with the fields the search tool reads
    (lines 34-62); [priceUsd] is the parsed number, as in [DexPairData]. *)
Module TokenPair.

Record t := mk {
  chainId : string;
  url : string;
  pairAddress : string;
  baseTokenAddress : string;
  baseTokenName : string;
  baseTokenSymbol : string;
  priceUsd : number;
  marketCap : option number;
  priceChange_h24 : option number
}.

End TokenPair.

(** [String.prototype.toUpperCase] on the characters of ASCII, which are
    all that a chain identifier ("solana", "ethereum", "bsc") holds: the
    letters [a] to [z] become [A] to [Z], everything else is kept. *)
Definition upperChar (c : Ascii.ascii) : Ascii.ascii :=
  let n := Ascii.nat_of_ascii c in
  if Nat.leb 97 n && Nat.leb n 122 then Ascii.ascii_of_nat (n - 32) else c.

Fixpoint toUpperCase (s : string) : string :=
  match s with
  | EmptyString => EmptyString
  | String c rest => String (upperChar c) (toUpperCase rest)
  end.

(** [interface TokenOption] (lines 69-81); the formatted strings are kept as
    the values they are formatted from. *)
Module TokenOption.

Record t := mk {
  index : nat;
  name : string;
  symbol : string;
  chain : string;
  eightDecimals : bool;
  priceRaw : number;
  marketCap : option InfoLine;
  change24h : option InfoLine;
  pairAddress : string;
  tokenAddress : string;
  dexUrl : string
}.

End TokenOption.

Module Creation.

Import Monitor.

(** [conditionText] (lines 283-291). *)
Inductive ConditionText :=
| GoesAbove (target : number)
| DropsBelow (target : number)
| Rises (percent : number)
| Drops (percent : number).

Definition conditionText (params : Params.t) : ConditionText :=
  match Params.alertType params with
  | price_above => GoesAbove (Params.targetValue params)
  | price_below => DropsBelow (Params.targetValue params)
  | percent_change =>
      if gt (Params.targetValue params) 0%float
      then Rises (abs (Params.targetValue params))
      else Drops (abs (Params.targetValue params))
  end.

(** The Telegram confirmation (lines 315-322) and the tool's own text (lines
    297-310), as the values their templates interpolate. *)
Record ConfirmationNote := mkNote {
  noteName : string;
  noteSymbol : string;
  noteCondition : ConditionText;
  notePrice : number;
  noteEightDecimals : bool
}.

Record ActivationText := mkText {
  textName : string;
  textSymbol : string;
  textChain : string;
  textPrice : number;
  textEightDecimals : bool;
  textCondition : ConditionText;
  textChat : number;
  textAlertId : string
}.

(** What the tool returns: the text and [_metadata] ([alertId], [alert];
    [status] is always ['active']).  The outer [catch] is reached only when
    [addAlert] rejects, which the storage of this model never does. *)
Inductive ConfirmResult :=
| Activated (text : ActivationText) (alertId : string) (alert : PriceAlert).

(** What the tool does: it acts on the Durable Object, sends one Telegram
    message, and logs when that send throws. *)
Inductive ToolEvent :=
| InMonitor (e : Event)
| ConfirmationSend (chat : number) (note : ConfirmationNote) (delivered : bool)
| ConfirmationFailed.

(** [confirmTokenAlert] (lines 262-348).  [newId] is the generated
    [alert_<Date.now()>_<random>] and [now] the [Date.now()] of [createdAt]:
    the clock and the random source are inputs.  [accepts] tells whether
    Telegram takes the confirmation. *)
Definition confirmTokenAlert (accepts : number -> ConfirmationNote -> bool)
    (newId : string) (now : number) (params : Params.t)
    (s : Storage) : ConfirmResult * Storage * list ToolEvent :=
  let alert :=
    mkAlert newId (Params.telegramChatId params) (Params.tokenAddress params)
      (Params.tokenSymbol params) (Params.tokenName params)
      (Params.chainId params) (Params.pairAddress params)
      (Params.alertType params) (Params.targetValue params)
      (Params.currentPrice params) now None in
  let added := addAlert alert s in
  let eightDecimals := lt (Params.currentPrice params) cent in
  let responseText :=
    mkText (Params.tokenName params) (Params.tokenSymbol params)
      (Params.chainId params) (Params.currentPrice params) eightDecimals
      (conditionText params) (Params.telegramChatId params) (id alert) in
  let note :=
    mkNote (Params.tokenName params) (Params.tokenSymbol params)
      (conditionText params) (Params.currentPrice params) eightDecimals in
  let sent := accepts (Params.telegramChatId params) note in
  (Activated responseText (id alert) alert,
   storeOf added,
   map InMonitor (eventsOf added)
   ++ ConfirmationSend (Params.telegramChatId params) note sent
   :: (if sent then [] else [ConfirmationFailed])).

(** What the search request of [tokenPriceAlert] can come to. *)
Inductive SearchResponse :=
| SearchThrows
| SearchStatus (status : nat)
| SearchPairs (pairs : option (list TokenPair.t)).

(** The [map] callback of lines 136-165. *)
Definition tokenOption (index : nat) (pair : TokenPair.t) : TokenOption.t :=
  let price := TokenPair.priceUsd pair in
  TokenOption.mk (index + 1)
    (TokenPair.baseTokenName pair) (TokenPair.baseTokenSymbol pair)
    (toUpperCase (TokenPair.chainId pair))
    (lt price cent) price
    (match TokenPair.marketCap pair with
     | Some mc =>
         if truthy mc then
           Some (if ge mc 1000000%float then MarketCapM (mc / 1000000)%float
                 else MarketCapK (mc / 1000)%float)
         else None
     | None => None
     end)
    (match TokenPair.priceChange_h24 pair with
     | Some h24 => if truthy h24 then Some (Change24h (gt h24 0%float) h24) else None
     | None => None
     end)
    (TokenPair.pairAddress pair) (TokenPair.baseTokenAddress pair)
    (TokenPair.url pair).

(** What the search tool answers.  [AwaitingConfirmation] carries the last
    number the user may choose ([1-${topPairs.length}]), the number of pairs
    found, the options and the alert configuration of [_metadata]. *)
Inductive Proposal :=
| SearchFailed (status : nat)
| NoTokensFound (searchQuery : string)
| AwaitingConfirmation (lastChoice total : nat) (tokens : list TokenOption.t)
    (alertType : AlertType) (target chat : number)
| SetupError.

(** [tokenPriceAlert] (lines 96-231). *)
Definition tokenPriceAlert (search : string -> SearchResponse)
    (searchQuery : string) (alertType : AlertType)
    (targetValue telegramChatId : number) : Proposal :=
  match search searchQuery with
  | SearchThrows => SetupError
  | SearchStatus status => SearchFailed status
  | SearchPairs None | SearchPairs (Some []) => NoTokensFound searchQuery
  | SearchPairs (Some pairs) =>
      let topPairs := firstn 5 pairs in
      AwaitingConfirmation (List.length topPairs) (List.length pairs)
        (mapFrom tokenOption 0 topPairs) alertType targetValue telegramChatId
  end.

End Creation.

(* ================================================================== *)
(** ** More vocabulary *)
(* ================================================================== *)

Module ObserveMore.

Import Monitor Observe.

Definition isSend (e : Event) : bool :=
  match e with
  | EvSend _ _ _ => true
  | _ => false
  end.

Definition isReply (e : Event) : bool :=
  match e with
  | EvReply _ => true
  | _ => false
  end.

Definition isSleep (e : Event) : bool :=
  match e with
  | EvSleep _ => true
  | _ => false
  end.

Definition isTriggeredLine (e : Event) : bool :=
  match e with
  | EvConsole (LogTriggered _) => true
  | _ => false
  end.

Definition isFailureLine (e : Event) : bool :=
  match e with
  | EvConsole (ErrNotification _) => true
  | _ => false
  end.

Definition isLookupFailureLine (e : Event) : bool :=
  match e with
  | EvConsole (ErrPair _) | EvConsole (ErrHttp _ _)
  | EvConsole (WarnNoMarketData _) => true
  | _ => false
  end.

(** How the turn of the pair address [k] ends: with the pause when the pair
    is served, with a console line when its lookup fails. *)
Definition pairOutcome (w : World) (k : string) : Event :=
  match http_get w k with
  | NetworkError | MalformedBody => EvConsole (ErrPair k)
  | HttpStatus status => EvConsole (ErrHttp k status)
  | Pairs None | Pairs (Some []) => EvConsole (WarnNoMarketData k)
  | Pairs (Some (_ :: _)) => EvSleep 200
  end.

(** A test that only pauses and lookup-failure lines can pass. *)
Definition outcomeTest (p : Event -> bool) : Prop :=
  forall e, isSleep e || isLookupFailureLine e = false -> p e = false.

(** The events that evaluating an alert causes besides the console line of
    [removeAlert]. *)
Definition alertEvent (e : Event) : bool :=
  isSend e || isTriggeredLine e || isFailureLine e.

(** A test that only those events can pass. *)
Definition alertTest (p : Event -> bool) : Prop :=
  forall e, alertEvent e = false -> p e = false.

(** The alert a trigger message is about. *)
Definition alertOf (m : Message) : option PriceAlert :=
  match m with
  | TriggerNote (Surpassed a _ _) _ _
  | TriggerNote (FallenBelow a _ _) _ _
  | TriggerNote (Gained a _ _) _ _
  | TriggerNote (Dropped a _ _) _ _ => Some a
  | _ => None
  end.

(** The pair address [k] is served. *)
Definition served (w : World) (k : string) : bool :=
  match firstPair (http_get w k) with
  | Some _ => true
  | None => false
  end.

(** The pair of the alert is served and the alert's condition holds at the
    served price. *)
Definition conditionMet (w : World) (a : PriceAlert) : bool :=
  match firstPair (http_get w (pairAddress a)) with
  | Some pairData => shouldTrigger a (priceUsd pairData)
  | None => false
  end.

(** What evaluating the alert [a] at [pairData] sends and logs. *)
Definition noticesAt (w : World) (pairData : DexPairData) (a : PriceAlert) : list Event :=
  if shouldTrigger a (priceUsd pairData) then
    let sent := sendMessage w (chatId a) (noteFor pairData a) in
    [EvSend (chatId a) (noteFor pairData a) sent;
     EvConsole (if sent then LogTriggered (id a) else ErrNotification (id a))]
  else [].

Definition noticesVia (w : World) (k : string) (a : PriceAlert) : list Event :=
  match firstPair (http_get w k) with
  | Some pairData => noticesAt w pairData a
  | None => []
  end.

Definition notices (w : World) (a : PriceAlert) : list Event :=
  noticesVia w (pairAddress a) a.

(** The storages that the operations of the monitor and of the tools can
    produce, starting from a Durable Object that has stored nothing. *)
Inductive reachable : Storage -> Prop :=
| reach_start : reachable None
| reach_addAlert (a : PriceAlert) (s : Storage) :
    reachable s -> reachable (storeOf (addAlert a s))
| reach_removeAlert (i : string) (s : Storage) :
    reachable s -> reachable (storeOf (removeAlert i s))
| reach_checkAlerts (w : World) (s : Storage) :
    reachable s -> reachable (storeOf (checkAlerts w s))
| reach_myalerts (w : World) (chat : number) (s : Storage) :
    reachable s -> reachable (storeOf (myalerts w chat s))
| reach_cancelAlert (w : World) (i : string) (chat : option number) (s : Storage) :
    reachable s -> reachable (storeOf (Tools.cancelAlert w i chat s))
| reach_confirmTokenAlert (accepts : number -> Creation.ConfirmationNote -> bool)
    (newId : string) (now : number) (params : Params.t) (s : Storage) :
    reachable s ->
    reachable (snd (fst (Creation.confirmTokenAlert accepts newId now params s))).

(** The console line that closes the evaluation of an alert whose condition
    is met: of either kind. *)
Definition isNoticeLine (e : Event) : bool :=
  isTriggeredLine e || isFailureLine e.

(** The events of a log that come before its first send. *)
Fixpoint untilSend (events : list Event) : list Event :=
  match events with
  | [] => []
  | e :: rest => if isSend e then [] else e :: untilSend rest
  end.

(** A log in which every send is followed by the console line of its alert
    ("triggered and removed" when the message was accepted, "failed to
    deliver" when not), with at most the line of [removeAlert] between the
    two, and which has no such line anywhere else. *)
Inductive paired : list Event -> Prop :=
| paired_nil : paired []
| paired_other (e : Event) (rest : list Event) :
    isSend e = false -> isNoticeLine e = false ->
    paired rest -> paired (e :: rest)
| paired_notice (chat : number) (note : Message) (sent : bool) (b : PriceAlert)
    (quiet rest : list Event) :
    alertOf note = Some b ->
    quiet = [] \/ quiet = [EvConsole (LogRemoved (id b))] ->
    paired rest ->
    paired (EvSend chat note sent :: quiet ++
            EvConsole (if sent then LogTriggered (id b) else ErrNotification (id b))
            :: rest).

(** The alerts of a list with the pair address [k], in the order of the
    list. *)
Definition withPair (k : string) (alerts : list PriceAlert) : list PriceAlert :=
  filter (fun a => String.eqb (pairAddress a) k) alerts.

(** The storage after one cycle in each of the worlds [ws], in turn. *)
Definition afterCycles (ws : list World) (s : Storage) : Storage :=
  fold_left (fun s' w => storeOf (checkAlerts w s')) ws s.

End ObserveMore.

(* ================================================================== *)
(** ** More concrete inputs *)
(* ================================================================== *)

Module MoreSamples.

Local Open Scope string_scope.
Local Open Scope float_scope.

(** The arguments that create [Samples.aboveHundred]. *)
Definition aboveHundredParams : Params.t :=
  Params.mk 1 "0xpair" "0xtoken" "PEPE" "Pepe" "ethereum" 90
            price_above 100 7.

Definition pepePair (address : string) (p : number) : TokenPair.t :=
  TokenPair.mk "ethereum" "https://dexscreener.com/ethereum/0xpair" address
               "0xtoken" "Pepe" "PEPE" p None None.

(** A search that finds six pairs for every query. *)
Definition sixPairs : list TokenPair.t :=
  [pepePair "0xa" 1; pepePair "0xb" 2; pepePair "0xc" 3;
   pepePair "0xd" 4; pepePair "0xe" 5; pepePair "0xf" 6].

Definition sixPairSearch (query : string) : Creation.SearchResponse :=
  Creation.SearchPairs (Some sixPairs).

End MoreSamples.

(* ================================================================== *)
(** ** Lookup, insertion and deletion in the stored map *)
(* ================================================================== *)

Module AlertMapMore.

Import AlertMap.

Lemma get_set_same (k : string) (v : PriceAlert) (m : t) :
  get k (set k v m) = Some v.
Proof.
  induction m as [|[k0 v0] m IH]; cbn.
  - now rewrite String.eqb_refl.
  - destruct (String.eqb_spec k0 k) as [->|Hne]; cbn.
    + now rewrite String.eqb_refl.
    + destruct (String.eqb_spec k0 k); [contradiction|exact IH].
Qed.

Lemma get_set_other (k k' : string) (v : PriceAlert) (m : t) :
  k' <> k -> get k' (set k v m) = get k' m.
Proof.
  intros Hne. induction m as [|[k0 v0] m IH]; cbn.
  - destruct (String.eqb_spec k k'); [congruence|reflexivity].
  - destruct (String.eqb_spec k0 k) as [->|Hne0]; cbn.
    + destruct (String.eqb_spec k k'); [congruence|reflexivity].
    + now rewrite IH.
Qed.

Lemma get_delete_same (k : string) (m : t) : get k (delete k m) = None.
Proof.
  unfold delete. induction m as [|[k0 v0] m IH]; cbn; [reflexivity|].
  destruct (String.eqb_spec k0 k) as [->|Hne]; cbn; [exact IH|].
  destruct (String.eqb_spec k0 k); [contradiction|exact IH].
Qed.

Lemma get_delete_other (k k' : string) (m : t) :
  k' <> k -> get k' (delete k m) = get k' m.
Proof.
  intros Hne. unfold delete. induction m as [|[k0 v0] m IH]; cbn; [reflexivity|].
  destruct (String.eqb_spec k0 k) as [->|Hne0]; cbn.
  - destruct (String.eqb_spec k k'); [congruence|exact IH].
  - now rewrite IH.
Qed.

Lemma get_none (k : string) (m : t) : get k m = None <-> ~ In k (keys m).
Proof.
  unfold keys. induction m as [|[k0 v0] m IH]; cbn; [tauto|].
  destruct (String.eqb_spec k0 k) as [->|Hne].
  - split; [discriminate|]. intros H. exfalso. apply H. now left.
  - rewrite IH. tauto.
Qed.

Lemma get_some_in (k : string) (v : PriceAlert) (m : t) :
  get k m = Some v -> In (k, v) m.
Proof.
  induction m as [|[k0 v0] m IH]; cbn; [discriminate|].
  destruct (String.eqb_spec k0 k) as [->|Hne].
  - intros E. injection E as ->. now left.
  - intros E. right. now apply IH.
Qed.

Lemma in_get (k : string) (v : PriceAlert) (m : t) :
  NoDup (keys m) -> In (k, v) m -> get k m = Some v.
Proof.
  unfold keys. induction m as [|[k0 v0] m IH]; cbn; [tauto|].
  intros Hnd Hin. inversion Hnd as [|? ? Hnotin Hnd']; subst.
  destruct Hin as [E|Hin].
  - injection E as -> ->. now rewrite String.eqb_refl.
  - destruct (String.eqb_spec k0 k) as [->|Hne]; [|now apply IH].
    exfalso. apply Hnotin. change k with (fst (k, v)). now apply in_map.
Qed.

Lemma set_fresh (k : string) (v : PriceAlert) (m : t) :
  ~ In k (keys m) -> set k v m = m ++ [(k, v)].
Proof.
  unfold keys. induction m as [|[k0 v0] m IH]; cbn; intros Hk; [reflexivity|].
  destruct (String.eqb_spec k0 k) as [->|Hne]; [tauto|].
  rewrite IH; [reflexivity|tauto].
Qed.

Lemma set_present (k : string) (v : PriceAlert) (m : t) :
  In k (keys m) -> keys (set k v m) = keys m.
Proof.
  unfold keys. induction m as [|[k0 v0] m IH]; cbn; intros Hk; [tauto|].
  destruct (String.eqb_spec k0 k) as [->|Hne]; cbn; [reflexivity|].
  rewrite IH; [reflexivity|]. destruct Hk; [contradiction|assumption].
Qed.

Lemma delete_absent (k : string) (m : t) : ~ In k (keys m) -> delete k m = m.
Proof.
  unfold keys, delete. induction m as [|[k0 v0] m IH]; cbn; intros Hk; [reflexivity|].
  destruct (String.eqb_spec k0 k) as [->|Hne]; cbn; [tauto|].
  rewrite IH; [reflexivity|tauto].
Qed.

Lemma delete_keys (k : string) (m : t) : ~ In k (keys (delete k m)).
Proof.
  intros Hin. unfold keys in Hin. apply in_map_iff in Hin as [[k0 v0] [E Hin]].
  cbn in E. subst k0. apply AlertMapFacts.in_delete in Hin as [_ Hne].
  now apply Hne.
Qed.

Lemma delete_set_fresh (k : string) (v : PriceAlert) (m : t) :
  ~ In k (keys m) -> delete k (set k v m) = m.
Proof.
  intros Hk. rewrite (set_fresh k v m Hk). unfold delete.
  rewrite filter_app. cbn. rewrite String.eqb_refl. cbn. rewrite app_nil_r.
  now apply delete_absent.
Qed.

Lemma delete_twice (k : string) (m : t) : delete k (delete k m) = delete k m.
Proof. apply delete_absent, delete_keys. Qed.

End AlertMapMore.

(* ================================================================== *)
(** ** What a cycle sends and logs, alert by alert *)
(* ================================================================== *)

Module Accounting.

Import ObserveMore.

Lemma forEach_event_inv {X} (body : X -> M unit) (e : Event) (l : list X) :
  forall s, In e (eventsOf (forEach l body s)) ->
  exists x s', In x l /\ In e (eventsOf (body x s')).
Proof.
  induction l as [|y l IH]; intros s Hin; [destruct Hin|].
  cbn [forEach] in Hin. rewrite eventsOf_bind in Hin.
  apply in_app_or in Hin as [Hin|Hin].
  - exists y, s. split; [now left|assumption].
  - destruct (IH _ Hin) as (x & s' & Hx & He). exists x, s'. split; [now right|assumption].
Qed.

Lemma removeAlert_event_list (i : string) (s : Storage) :
  eventsOf (removeAlert i s) = [] \/
  eventsOf (removeAlert i s) = [EvConsole (LogRemoved i)].
Proof. destruct s; [right|left]; reflexivity. Qed.

(** The events of the evaluation of one alert: its notices, with the console
    line of [removeAlert] between them when the message was accepted. *)
Lemma checkAlert_events (w : World) (pairData : DexPairData) (a : PriceAlert)
    (s : Storage) (e : Event) :
  In e (eventsOf (checkAlert w pairData (priceUsd pairData) a s)) ->
  In e (noticesAt w pairData a) \/ e = EvConsole (LogRemoved (id a)).
Proof.
  unfold checkAlert, noticesAt, noteFor, shouldTrigger.
  destruct (checkCondition a (priceUsd pairData)) as [should msg].
  cbn [fst snd]. destruct should; [|intros []].
  unfold notify. autorewrite with run.
  destruct (sendMessage w (chatId a) (triggerNote pairData a msg));
    autorewrite with run; intros H;
    repeat (apply in_app_or in H as [H|H]);
    try (destruct H as [<-|[]]; left; cbn; auto).
  right. exact (removeAlert_events _ _ _ H).
Qed.

Lemma noticesAt_events (w : World) (pairData : DexPairData) (a : PriceAlert)
    (s : Storage) (e : Event) :
  In e (noticesAt w pairData a) ->
  In e (eventsOf (checkAlert w pairData (priceUsd pairData) a s)).
Proof.
  unfold checkAlert, noticesAt, noteFor, shouldTrigger.
  destruct (checkCondition a (priceUsd pairData)) as [should msg].
  cbn [fst snd]. destruct should; [|intros []].
  unfold notify. autorewrite with run.
  destruct (sendMessage w (chatId a) (triggerNote pairData a msg));
    autorewrite with run; intros [<-|[<-|[]]]; among.
Qed.

Lemma alertTest_removed (p : Event -> bool) (i : string) :
  alertTest p -> p (EvConsole (LogRemoved i)) = false.
Proof. intros Hp. now apply Hp. Qed.

Lemma countEvents_cons (p : Event -> bool) (e : Event) (l : list Event) :
  countEvents p (e :: l) = (if p e then 1 else 0) + countEvents p l.
Proof. unfold countEvents. cbn. now destruct (p e). Qed.

Lemma checkAlert_notice_count (p : Event -> bool) (w : World)
    (pairData : DexPairData) (a : PriceAlert) (s : Storage) :
  alertTest p ->
  countEvents p (eventsOf (checkAlert w pairData (priceUsd pairData) a s)) =
  countEvents p (noticesAt w pairData a).
Proof.
  intros Hp. unfold checkAlert, noticesAt, noteFor, shouldTrigger.
  destruct (checkCondition a (priceUsd pairData)) as [should msg].
  cbn [fst snd]. destruct should; [|reflexivity].
  unfold notify. autorewrite with run.
  destruct (sendMessage w (chatId a) (triggerNote pairData a msg));
    autorewrite with run; rewrite !countEvents_app, !countEvents_cons;
    change (countEvents p []) with 0; [|lia].
  destruct (removeAlert_event_list (id a) s) as [-> | ->].
  - change (countEvents p []) with 0. lia.
  - rewrite countEvents_cons, (alertTest_removed p (id a) Hp).
    change (countEvents p []) with 0. lia.
Qed.

Lemma sum_map_ext_in {X} (f g : X -> nat) (l : list X) :
  (forall x, In x l -> f x = g x) -> list_sum (map f l) = list_sum (map g l).
Proof. intros H. f_equal. now apply map_ext_in. Qed.

(** The notices of a pair's turn are those of its alerts; a pair that is
    not served has none. *)
Lemma checkPair_notice_count (p : Event -> bool) (w : World) (k : string)
    (g : list PriceAlert) (s : Storage) :
  alertTest p ->
  countEvents p (eventsOf (checkPair w (k, g) s)) =
  list_sum (map (fun b => countEvents p (noticesVia w k b)) g).
Proof.
  intros Hp. unfold checkPair, noticesVia. autorewrite with run.
  rewrite !countEvents_app, countEvents_cons, (Hp (EvFetch k)) by reflexivity.
  change (countEvents p []) with 0.
  destruct (http_get w k) as [| | |[[|pairData rest]|]]; cbn [firstPair];
    autorewrite with run;
    try (rewrite countEvents_cons, Hp by reflexivity;
         change (countEvents p []) with 0; now rewrite sum_zero).
  rewrite countEvents_app, countEvents_cons, (Hp (EvSleep 200)) by reflexivity.
  change (countEvents p []) with 0.
  rewrite (forEach_count (checkAlert w pairData (priceUsd pairData)) p
             (fun b => countEvents p (noticesAt w pairData b))).
  - lia.
  - intros b s' _. now apply checkAlert_notice_count.
Qed.

Lemma sum_members (f : PriceAlert -> nat) (pairMap : PairMap) :
  list_sum (map (fun e => list_sum (map f (snd e))) pairMap) =
  list_sum (map f (members pairMap)).
Proof.
  unfold members. induction pairMap as [|[k g] rest IH]; [reflexivity|].
  cbn [map List.concat snd]. rewrite map_app, list_sum_app. simpl list_sum.
  now rewrite IH.
Qed.

Lemma sum_permutation {X} (f : X -> nat) (l l' : list X) :
  Permutation l l' -> list_sum (map f l) = list_sum (map f l').
Proof.
  induction 1 as [|x l l' _ IH|x y l|l l' l'' _ IH1 _ IH2].
  - reflexivity.
  - unfold list_sum in *. cbn. now rewrite IH.
  - unfold list_sum. cbn. lia.
  - now rewrite IH1.
Qed.

(** The notices of a cycle, counted with a test [p], alert by alert over the
    snapshot. *)
Lemma checkAlerts_notice_count (p : Event -> bool) (w : World) (s : Storage) :
  alertTest p ->
  countEvents p (eventsOf (checkAlerts w s)) =
  list_sum (map (fun b => countEvents p (notices w b)) (snapshot s)).
Proof.
  intros Hp. unfold checkAlerts. rewrite eventsOf_bind, getAllAlerts_run.
  autorewrite with run.
  destruct (snapshot s) as [|a0 alerts] eqn:Hsnap.
  - cbn [List.length Nat.eqb]. autorewrite with run.
    rewrite countEvents_app, countEvents_cons, Hp by reflexivity. reflexivity.
  - cbn [List.length Nat.eqb]. autorewrite with run.
    rewrite !countEvents_app, !countEvents_cons.
    rewrite (Hp (EvConsole (LogInitiating _))) by reflexivity.
    rewrite (Hp (EvConsole LogCycleCompleted)) by reflexivity.
    change (countEvents p []) with 0.
    rewrite (forEach_count (checkPair w) p
               (fun e => list_sum (map (fun b => countEvents p (notices w b)) (snd e)))).
    + rewrite sum_members.
      rewrite (sum_permutation _ _ _ (groupByPair_members (a0 :: alerts))). lia.
    + intros [k g] s' Hg. rewrite checkPair_notice_count by assumption.
      apply sum_map_ext_in. intros b Hb. cbn [snd] in Hb.
      destruct (group_member _ _ _ _ Hg Hb) as [_ <-]. reflexivity.
Qed.

Lemma sum_indicator {X} (f : X -> bool) (l : list X) :
  list_sum (map (fun x => if f x then 1 else 0) l) = List.length (filter f l).
Proof.
  induction l as [|x l IH]; [reflexivity|].
  cbn [map filter]. unfold list_sum in *. cbn [fold_right]. rewrite IH.
  destruct (f x); reflexivity.
Qed.

End Accounting.

(* ================================================================== *)
(** ** Where the events of a cycle come from *)
(* ================================================================== *)

Module Provenance.

Import ObserveMore Accounting.

(** Every event of a pair's turn: its request, the console line of a failed
    lookup, the pause after a served one, or an event of the evaluation of
    one of its alerts at the served price. *)
Lemma checkPair_events_inv (w : World) (k : string) (g : list PriceAlert)
    (s : Storage) (e : Event) :
  In e (eventsOf (checkPair w (k, g) s)) ->
  e = EvFetch k \/
  (served w k = false /\
   (e = EvConsole (ErrPair k) \/ e = EvConsole (WarnNoMarketData k) \/
    exists status, e = EvConsole (ErrHttp k status))) \/
  (served w k = true /\ e = EvSleep 200) \/
  (exists pairData b s',
     firstPair (http_get w k) = Some pairData /\ In b g /\
     In e (eventsOf (checkAlert w pairData (priceUsd pairData) b s'))).
Proof.
  unfold checkPair, served. autorewrite with run. intros H.
  repeat (apply in_app_or in H as [H|H]);
    try (destruct H as [<-|[]]; now left); try (now destruct H).
  destruct (http_get w k) as [|status| |[[|pairData rest]|]]; cbn [firstPair];
    autorewrite with run in H;
    try (destruct H as [<-|[]]; right; left; split; [reflexivity|]; eauto).
  repeat (apply in_app_or in H as [H|H]).
  - right. right. right.
    destruct (forEach_event_inv _ _ _ _ H) as (b & s' & Hb & He).
    exists pairData, b, s'. auto.
  - destruct H as [<-|[]]. right. right. left. auto.
Qed.

(** Every event of a cycle: one of its framing console lines, or an event of
    the turn of one of its groups. *)
Lemma checkAlerts_events_inv (w : World) (s : Storage) (e : Event) :
  In e (eventsOf (checkAlerts w s)) ->
  e = EvConsole LogNoActiveAlerts \/
  e = EvConsole (LogInitiating (List.length (snapshot s))) \/
  e = EvConsole LogCycleCompleted \/
  (exists k g s', In (k, g) (groupByPair (snapshot s)) /\
                  In e (eventsOf (checkPair w (k, g) s'))).
Proof.
  unfold checkAlerts. rewrite eventsOf_bind, getAllAlerts_run.
  autorewrite with run.
  destruct (snapshot s) as [|a0 alerts] eqn:Hsnap.
  - cbn [List.length Nat.eqb]. autorewrite with run.
    intros H. apply in_app_or in H as [[]|[<-|[]]]. now left.
  - cbn [List.length Nat.eqb]. autorewrite with run. intros H.
    repeat (apply in_app_or in H as [H|H]);
      try (destruct H as [<-|[]]; auto); try (now destruct H).
    destruct (forEach_event_inv _ _ _ _ H) as ([k g] & s' & Hg & He).
    right. right. right. exists k, g, s'. auto.
Qed.

Lemma noticesAt_alertEvent (w : World) (pairData : DexPairData) (a : PriceAlert)
    (e : Event) :
  In e (noticesAt w pairData a) -> alertEvent e = true.
Proof.
  unfold noticesAt. destruct (shouldTrigger a (priceUsd pairData)); [|intros []].
  intros [<-|[<-|[]]]; [reflexivity|].
  now destruct (sendMessage w (chatId a) (noteFor pairData a)).
Qed.

(** The sends and the delivery lines of a cycle are exactly the notices of
    the alerts of its snapshot. *)
Lemma alert_events_of_cycle (w : World) (s : Storage) (e : Event) :
  alertEvent e = true ->
  In e (eventsOf (checkAlerts w s)) <->
  exists b, In b (snapshot s) /\ In e (notices w b).
Proof.
  intros Hkind. split.
  - intros H.
    destruct (checkAlerts_events_inv w s e H)
      as [-> | [-> | [-> | (k & g & s' & Hg & He)]]]; try discriminate.
    destruct (checkPair_events_inv w k g s' e He)
      as [-> | [[_ [-> | [-> | [st ->]]]] | [[_ ->] | (pd & b & s2 & Hq & Hb & Hev)]]];
      try discriminate.
    destruct (group_member _ _ _ _ Hg Hb) as [Hb' Hk]. exists b. split; [assumption|].
    unfold notices, noticesVia. rewrite Hk, Hq.
    destruct (checkAlert_events w pd b s2 e Hev) as [Hn | ->];
      [assumption|discriminate].
  - intros (b & Hb & Hn). unfold notices, noticesVia in Hn.
    destruct (firstPair (http_get w (pairAddress b))) as [pd|] eqn:Hq; [|destruct Hn].
    apply (checkAlerts_event w s pd b e Hb Hq).
    intros s'. now apply noticesAt_events.
Qed.

Lemma checkCondition_alertOf (pairData : DexPairData) (a : PriceAlert) (p : number) :
  shouldTrigger a p = true ->
  alertOf (triggerNote pairData a (snd (checkCondition a p))) = Some a.
Proof.
  unfold shouldTrigger, checkCondition, triggerNote.
  repeat match goal with
         | |- context [if ?c then _ else _] => destruct c; cbn
         end; intros H; try reflexivity; discriminate.
Qed.

(** What a send among the notices of an alert says. *)
Lemma notices_send (w : World) (b : PriceAlert) (c : number) (m : Message) (d : bool) :
  In (EvSend c m d) (notices w b) ->
  exists pairData,
    firstPair (http_get w (pairAddress b)) = Some pairData /\
    shouldTrigger b (priceUsd pairData) = true /\
    c = chatId b /\ m = noteFor pairData b /\ alertOf m = Some b /\
    d = sendMessage w c m.
Proof.
  unfold notices, noticesVia, noticesAt.
  destruct (firstPair (http_get w (pairAddress b))) as [pd|]; [|intros []].
  destruct (shouldTrigger b (priceUsd pd)) eqn:Hshould; [|intros []].
  intros [E|[E|[]]]; [|discriminate]. injection E as <- <- <-.
  exists pd. repeat split; try assumption.
  now apply checkCondition_alertOf.
Qed.

Lemma notices_send_count (w : World) (b : PriceAlert) :
  countEvents isSend (notices w b) = if conditionMet w b then 1 else 0.
Proof.
  unfold notices, noticesVia, noticesAt, conditionMet.
  destruct (firstPair (http_get w (pairAddress b))) as [pd|]; [|reflexivity].
  now destruct (shouldTrigger b (priceUsd pd)).
Qed.

Lemma notices_triggered_count (w : World) (b : PriceAlert) :
  countEvents isTriggeredLine (notices w b) = if delivered w b then 1 else 0.
Proof.
  unfold notices, noticesVia, noticesAt, delivered, firesVia, fires.
  destruct (firstPair (http_get w (pairAddress b))) as [pd|]; [|reflexivity].
  destruct (shouldTrigger b (priceUsd pd)); [|reflexivity].
  now destruct (sendMessage w (chatId b) (noteFor pd b)).
Qed.

Lemma notices_failure_count (w : World) (b : PriceAlert) :
  countEvents isFailureLine (notices w b) =
  if conditionMet w b && negb (delivered w b) then 1 else 0.
Proof.
  unfold notices, noticesVia, noticesAt, conditionMet, delivered, firesVia, fires.
  destruct (firstPair (http_get w (pairAddress b))) as [pd|]; [|reflexivity].
  destruct (shouldTrigger b (priceUsd pd)); [|reflexivity].
  now destruct (sendMessage w (chatId b) (noteFor pd b)).
Qed.

Lemma isSend_alertTest : alertTest isSend.
Proof. intros e H. unfold alertEvent in H. now destruct (isSend e). Qed.

Lemma isTriggeredLine_alertTest : alertTest isTriggeredLine.
Proof.
  intros e H. unfold alertEvent in H.
  destruct (isTriggeredLine e); [|reflexivity].
  now rewrite orb_true_r in H.
Qed.

Lemma isFailureLine_alertTest : alertTest isFailureLine.
Proof.
  intros e H. unfold alertEvent in H.
  destruct (isFailureLine e); [|reflexivity].
  now rewrite orb_true_r in H.
Qed.

Lemma met_split (w : World) (b : PriceAlert) :
  (if conditionMet w b then 1 else 0) =
  (if delivered w b then 1 else 0) +
  (if conditionMet w b && negb (delivered w b) then 1 else 0).
Proof.
  unfold conditionMet, delivered, firesVia, fires.
  destruct (firstPair (http_get w (pairAddress b))) as [pd|]; [|reflexivity].
  destruct (shouldTrigger b (priceUsd pd)); [|reflexivity].
  now destruct (sendMessage w (chatId b) (noteFor pd b)).
Qed.

Lemma sum_add {X} (f g : X -> nat) (l : list X) :
  list_sum (map (fun x => f x + g x) l) = list_sum (map f l) + list_sum (map g l).
Proof.
  induction l as [|x l IH]; [reflexivity|].
  cbn [map]. unfold list_sum in *. cbn [fold_right]. rewrite IH. lia.
Qed.

End Provenance.

(* ================================================================== *)
(** ** Cycles that deliver nothing, pauses, and the content of a group *)
(* ================================================================== *)

Module Quiet.

Import ObserveMore Accounting Provenance.

Lemma forEach_preserves_in {X} (P : Storage -> Prop) (body : X -> M unit) (l : list X) :
  (forall x s, In x l -> P s -> P (storeOf (body x s))) ->
  forall s, P s -> P (storeOf (forEach l body s)).
Proof.
  induction l as [|x l IH]; intros Hstep s Hs; [exact Hs|].
  cbn [forEach]. rewrite storeOf_bind. apply IH.
  - intros y s' Hy. apply Hstep. now right.
  - apply Hstep; [now left|assumption].
Qed.

(** A cycle in which no alert is delivered leaves the storage as it is, not
    merely with the same entries. *)
Lemma checkAlerts_store_fixed (w : World) (s : Storage) :
  (forall b, In b (snapshot s) -> delivered w b = false) ->
  storeOf (checkAlerts w s) = s.
Proof.
  intros Hnone. unfold checkAlerts. rewrite storeOf_bind, getAllAlerts_run.
  autorewrite with run.
  destruct (Nat.eqb (List.length (snapshot s)) 0); autorewrite with run;
    [reflexivity|].
  apply (forEach_preserves_in (fun s' => s' = s)); [|reflexivity].
  intros [k g] s' Hg ->. unfold checkPair. autorewrite with run.
  destruct (http_get w k) as [|status| |[[|pairData rest]|]] eqn:Hget;
    autorewrite with run; try reflexivity.
  apply (forEach_preserves_in (fun s' => s' = s)); [|reflexivity].
  intros b s2 Hb ->. rewrite checkAlert_store.
  destruct (group_member _ _ _ _ Hg Hb) as [Hb' Hk].
  pose proof (Hnone b Hb') as Hd. unfold delivered, firesVia in Hd.
  rewrite Hk, Hget in Hd. cbn [firstPair] in Hd. now rewrite Hd.
Qed.

(** In a well-formed storage, what a cycle leaves is not delivered in the
    world of that cycle. *)
Lemma survivor_not_delivered (w : World) (s : Storage) (b : PriceAlert) :
  AlertMap.wf (entries s) ->
  In b (snapshot (storeOf (checkAlerts w s))) ->
  In b (snapshot s) /\ delivered w b = false.
Proof.
  intros Hwf Hb. unfold snapshot in Hb. apply in_values in Hb as [k Hk].
  pose proof Hk as Hk'. apply checkAlerts_entries in Hk' as [Hin _].
  assert (Hb' : In b (snapshot s)) by (apply in_values; eauto).
  split; [assumption|].
  destruct Hwf as [Hnd Hid]. rewrite (Hid _ _ Hin) in Hk.
  now apply (survives_iff w s b (conj Hnd Hid) Hb').
Qed.

Lemma noticesAt_no_outcome (p : Event -> bool) (w : World)
    (pairData : DexPairData) (a : PriceAlert) (e : Event) :
  outcomeTest p -> In e (noticesAt w pairData a) -> p e = false.
Proof.
  intros Hp. unfold noticesAt.
  destruct (shouldTrigger a (priceUsd pairData)); [|intros []].
  intros [<-|[<-|[]]]; apply Hp; [reflexivity|].
  now destruct (sendMessage w (chatId a) (noteFor pairData a)).
Qed.

(** A pair's turn ends in exactly one way: counted with a test on pauses
    and failure lines, it has one event, its outcome. *)
Lemma checkPair_outcome_count (p : Event -> bool) (w : World) (k : string)
    (g : list PriceAlert) (s : Storage) :
  outcomeTest p ->
  countEvents p (eventsOf (checkPair w (k, g) s)) =
  if p (pairOutcome w k) then 1 else 0.
Proof.
  intros Hp. unfold checkPair, pairOutcome. autorewrite with run.
  rewrite !countEvents_app, countEvents_cons, (Hp (EvFetch k)) by reflexivity.
  change (countEvents p []) with 0.
  destruct (http_get w k) as [|status| |[[|pairData rest]|]];
    autorewrite with run;
    try (rewrite countEvents_cons; change (countEvents p []) with 0; lia).
  rewrite countEvents_app, countEvents_cons.
  change (countEvents p []) with 0.
  rewrite (forEach_count (checkAlert w pairData (priceUsd pairData)) p
             (fun _ => 0)).
  - rewrite sum_zero. lia.
  - intros b s' _. apply countEvents_none. intros e He.
    destruct (checkAlert_events w pairData b s' e He) as [Hn | ->];
      [now apply (noticesAt_no_outcome p w pairData b)|now apply Hp].
Qed.

Lemma checkAlerts_outcome_count (p : Event -> bool) (w : World) (s : Storage) :
  outcomeTest p ->
  countEvents p (eventsOf (checkAlerts w s)) =
  List.length (filter (fun e => p (pairOutcome w (fst e))) (groupByPair (snapshot s))).
Proof.
  intros Hp. unfold checkAlerts. rewrite eventsOf_bind, getAllAlerts_run.
  autorewrite with run.
  destruct (snapshot s) as [|a0 alerts] eqn:Hsnap.
  - cbn [List.length Nat.eqb]. autorewrite with run.
    rewrite countEvents_app, countEvents_cons, Hp by reflexivity. reflexivity.
  - cbn [List.length Nat.eqb]. autorewrite with run.
    rewrite !countEvents_app, !countEvents_cons.
    rewrite (Hp (EvConsole (LogInitiating _))) by reflexivity.
    rewrite (Hp (EvConsole LogCycleCompleted)) by reflexivity.
    change (countEvents p []) with 0.
    rewrite (forEach_count (checkPair w) p
               (fun e => if p (pairOutcome w (fst e)) then 1 else 0)).
    + rewrite sum_indicator. lia.
    + intros [k g] s' _. now apply checkPair_outcome_count.
Qed.

Lemma isSleep_outcomeTest : outcomeTest isSleep.
Proof. intros e H. now destruct (isSleep e). Qed.

Lemma isLookupFailureLine_outcomeTest : outcomeTest isLookupFailureLine.
Proof.
  intros e H. destruct (isLookupFailureLine e); [|reflexivity].
  now rewrite orb_true_r in H.
Qed.

Lemma outcome_is_pause (w : World) (k : string) :
  isSleep (pairOutcome w k) = served w k.
Proof.
  unfold pairOutcome, served.
  now destruct (http_get w k) as [|status| |[[|pairData rest]|]].
Qed.

Lemma outcome_is_failure (w : World) (k : string) :
  isLookupFailureLine (pairOutcome w k) = negb (served w k).
Proof.
  unfold pairOutcome, served.
  now destruct (http_get w k) as [|status| |[[|pairData rest]|]].
Qed.

(** Inserting into the batching map, with distinct keys. *)
Lemma pushTo_in_sharp (k : string) (a : PriceAlert) (pairMap : PairMap)
    (k' : string) (g' : list PriceAlert) :
  NoDup (map fst pairMap) ->
  In (k', g') (pushTo k a pairMap) ->
  (k' <> k /\ In (k', g') pairMap) \/
  (k' = k /\ ((~ In k (map fst pairMap) /\ g' = [a]) \/
              exists g0, In (k, g0) pairMap /\ g' = g0 ++ [a])).
Proof.
  induction pairMap as [|[k0 g0] rest IH]; cbn; intros Hnd.
  - intros [E|[]]. injection E as <- <-. right. split; [reflexivity|]. left. tauto.
  - inversion Hnd as [|? ? Hnotin Hnd']; subst.
    destruct (String.eqb_spec k0 k) as [->|Hne]; cbn.
    + intros [E|Hin].
      * injection E as <- <-. right. split; [reflexivity|]. right. exists g0. auto.
      * left. split; [|now right]. intros ->. apply Hnotin.
        change k with (fst (k, g')). now apply in_map.
    + intros [E|Hin].
      * injection E as <- <-. left. split; [assumption|now left].
      * destruct (IH Hnd' Hin) as [[Hk Hin']|[-> [[Hk ->]|(g1 & Hg1 & ->)]]].
        -- left. split; [assumption|now right].
        -- right. split; [reflexivity|]. left. split; [|reflexivity].
           intros [E|Hk']; [now apply Hne|now apply Hk].
        -- right. split; [reflexivity|]. right. exists g1. auto.
Qed.

Lemma withPair_app (k : string) (l1 l2 : list PriceAlert) :
  withPair k (l1 ++ l2) = withPair k l1 ++ withPair k l2.
Proof. unfold withPair. apply filter_app. Qed.

Lemma withPair_absent (k : string) (l : list PriceAlert) :
  (forall b, In b l -> pairAddress b <> k) -> withPair k l = [].
Proof.
  unfold withPair. induction l as [|b l IH]; intros H; [reflexivity|]. cbn.
  destruct (String.eqb_spec (pairAddress b) k) as [E|_].
  - exfalso. apply (H b); [now left|assumption].
  - apply IH. intros c Hc. apply H. now right.
Qed.

(** While the batching loop runs, each group holds the alerts seen so far
    with its pair address, in the order they were seen. *)
Lemma fold_pushTo_groups (rest seen : list PriceAlert) (pairMap : PairMap) :
  NoDup (map fst pairMap) ->
  (forall k g, In (k, g) pairMap -> g = withPair k seen) ->
  (forall b, In b seen -> In (pairAddress b) (map fst pairMap)) ->
  forall k g,
    In (k, g) (fold_left (fun pm a => pushTo (pairAddress a) a pm) rest pairMap) ->
    g = withPair k (seen ++ rest).
Proof.
  revert seen pairMap. induction rest as [|a rest IH]; intros seen pairMap Hnd Hg Hseen k g.
  - cbn. rewrite app_nil_r. apply Hg.
  - cbn [fold_left]. intros Hin.
    replace (seen ++ a :: rest) with ((seen ++ [a]) ++ rest)
      by (now rewrite <- app_assoc).
    apply (IH (seen ++ [a]) (pushTo (pairAddress a) a pairMap)); [| | |exact Hin].
    + now apply pushTo_NoDup.
    + intros k' g' Hin'. rewrite withPair_app.
      destruct (pushTo_in_sharp _ _ _ _ _ Hnd Hin')
        as [[Hk Hold]|[-> [[Hk ->]|(g0 & Hg0 & ->)]]].
      * rewrite (Hg _ _ Hold). unfold withPair at 2. cbn.
        destruct (String.eqb_spec (pairAddress a) k'); [congruence|].
        now rewrite app_nil_r.
      * rewrite withPair_absent.
        -- unfold withPair. cbn. now rewrite String.eqb_refl.
        -- intros b Hb E. apply Hk. rewrite <- E. now apply Hseen.
      * rewrite (Hg _ _ Hg0). unfold withPair at 2. cbn.
        now rewrite String.eqb_refl.
    + intros b Hb. apply pushTo_keys. apply in_app_or in Hb as [Hb|[<-|[]]].
      * right. now apply Hseen.
      * now left.
Qed.

Lemma groupByPair_withPair (alerts : list PriceAlert) (k : string)
    (g : list PriceAlert) :
  In (k, g) (groupByPair alerts) -> g = withPair k alerts.
Proof.
  intros Hin.
  apply (fold_pushTo_groups alerts [] [] (NoDup_nil _)); [| |exact Hin].
  - intros k' g' [].
  - intros b [].
Qed.

(** One more alert at the end of the input is one more [pushTo]. *)
Lemma groupByPair_snoc (alerts : list PriceAlert) (a : PriceAlert) :
  groupByPair (alerts ++ [a]) = pushTo (pairAddress a) a (groupByPair alerts).
Proof. unfold groupByPair. now rewrite fold_left_app. Qed.

(** [pushTo] keeps the order of the keys: a key that is there keeps its
    place, a new one goes last. *)
Lemma pushTo_keys_present (k : string) (a : PriceAlert) (pairMap : PairMap) :
  In k (map fst pairMap) -> map fst (pushTo k a pairMap) = map fst pairMap.
Proof.
  induction pairMap as [|[k0 g0] rest IH]; cbn; [intros []|].
  destruct (String.eqb_spec k0 k) as [->|Hne]; cbn; [reflexivity|].
  intros [E|Hin]; [congruence|]. now rewrite IH.
Qed.

Lemma pushTo_keys_absent (k : string) (a : PriceAlert) (pairMap : PairMap) :
  ~ In k (map fst pairMap) -> map fst (pushTo k a pairMap) = map fst pairMap ++ [k].
Proof.
  induction pairMap as [|[k0 g0] rest IH]; cbn; [reflexivity|].
  intros Hnot. destruct (String.eqb_spec k0 k) as [->|Hne]; cbn.
  - exfalso. apply Hnot. now left.
  - rewrite IH; [reflexivity|]. intros Hin. apply Hnot. now right.
Qed.

End Quiet.

(* ================================================================== *)
(** ** The replies of the listing, and the tools on the storage *)
(* ================================================================== *)

Module Replies.

Import ObserveMore.

Lemma forEachPush_event_inv {X Y} (body : X -> M (list Y)) (e : Event) (l : list X) :
  forall s, In e (eventsOf (forEachPush l body s)) ->
  exists x s', In x l /\ In e (eventsOf (body x s')).
Proof.
  induction l as [|y l IH]; intros s Hin; [destruct Hin|].
  cbn [forEachPush] in Hin. autorewrite with run in Hin.
  repeat (apply in_app_or in Hin as [Hin|Hin]); try (now destruct Hin).
  - exists y, s. split; [now left|assumption].
  - destruct (IH _ Hin) as (x & s' & Hx & He). exists x, s'.
    split; [now right|assumption].
Qed.

(** Looking up the price of a pair replies nothing. *)
Lemma pricePair_no_reply (w : World) (entry : string * list PriceAlert)
    (s : Storage) (e : Event) :
  In e (eventsOf (pricePair w entry s)) -> isReply e = false.
Proof.
  destruct entry as [k g]. unfold pricePair. autorewrite with run. intros H.
  repeat (apply in_app_or in H as [H|H]);
    try (destruct H as [<-|[]]; reflexivity); try (now destruct H).
  destruct (http_get w k) as [|status| |[[|pairData rest]|]];
    autorewrite with run in H;
    repeat (apply in_app_or in H as [H|H]);
    try (destruct H as [<-|[]]; reflexivity); try (now destruct H).
Qed.

Lemma priceAlerts_no_reply (w : World) (alerts : list PriceAlert) (s : Storage)
    (e : Event) :
  In e (eventsOf (priceAlerts w alerts s)) -> isReply e = false.
Proof.
  unfold priceAlerts. intros H.
  destruct (forEachPush_event_inv _ _ _ _ H) as (x & s' & _ & He).
  exact (pricePair_no_reply w x s' e He).
Qed.

Lemma myalerts_store (w : World) (chat : number) (s : Storage) :
  storeOf (myalerts w chat s) = s.
Proof.
  destruct (filter (fun a => seq (chatId a) chat) (snapshot s)) as [|a0 rest] eqn:E.
  - now rewrite (myalerts_none w chat s E).
  - assert (Hsome : filter (fun a => seq (chatId a) chat) (snapshot s) <> [])
      by (rewrite E; discriminate).
    destruct (ctx_reply w chat ReplyFetching) eqn:Hreply.
    + exact (proj2 (myalerts_accepted w chat s _ eq_refl Hsome Hreply)).
    + now rewrite (myalerts_rejected w chat s Hsome Hreply).
Qed.

(** The replies of the listing: the "no alerts" line, or the "fetching" line
    and then, when that one is accepted, the list built from the priced
    alerts. *)
Lemma myalerts_replies (w : World) (chat : number) (s : Storage) (r : Reply)
    (alerts : list PriceAlert) :
  alerts = filter (fun a => seq (chatId a) chat) (snapshot s) ->
  In (EvReply r) (eventsOf (myalerts w chat s)) ->
  (alerts = [] /\ r = ReplyNoAlerts) \/
  (alerts <> [] /\
   (r = ReplyFetching \/
    (ctx_reply w chat ReplyFetching = true /\
     r = ReplyAlertList (List.length (valueOf (priceAlerts w alerts s)))
           (mapFrom renderAlert 0 (valueOf (priceAlerts w alerts s)))))).
Proof.
  intros Hdef H.
  destruct alerts as [|a0 rest] eqn:Halerts.
  - rewrite (myalerts_none w chat s (eq_sym Hdef)) in H.
    destruct H as [E|[]]. left. split; [reflexivity|]. now injection E.
  - right. split; [discriminate|].
    assert (Hsome : filter (fun a => seq (chatId a) chat) (snapshot s) <> [])
      by (rewrite <- Hdef; discriminate).
    destruct (ctx_reply w chat ReplyFetching) eqn:Hreply.
    + rewrite (proj1 (myalerts_accepted w chat s _ eq_refl Hsome Hreply)) in H.
      destruct H as [E|H]; [left; now injection E|].
      apply in_app_or in H as [H|H].
      * now apply priceAlerts_no_reply in H.
      * destruct H as [E|[]]. right. split; [reflexivity|].
        injection E as <-. now rewrite <- Hdef.
    + rewrite (myalerts_rejected w chat s Hsome Hreply) in H.
      destruct H as [E|[]]. left. now injection E.
Qed.

Lemma mapFrom_length {X Y} (f : nat -> X -> Y) (n : nat) (l : list X) :
  List.length (mapFrom f n l) = List.length l.
Proof. revert n. induction l as [|x l IH]; intros n; cbn; [reflexivity|now rewrite IH]. Qed.

Lemma mapFrom_nth {X Y} (f : nat -> X -> Y) (n i : nat) (l : list X) :
  nth_error (mapFrom f n l) i = option_map (f (n + i)) (nth_error l i).
Proof.
  revert n i. induction l as [|x l IH]; intros n [|i]; cbn; try reflexivity.
  - now rewrite Nat.add_0_r.
  - rewrite IH. now rewrite Nat.add_succ_r.
Qed.

Lemma positions_from (n : nat) (l : list PricedAlert) :
  map position (mapFrom renderAlert n l) = List.seq (n + 1) (List.length l).
Proof.
  revert n. induction l as [|x l IH]; intros n; cbn; [reflexivity|].
  f_equal. rewrite IH. now rewrite Nat.add_succ_l.
Qed.

Lemma priceAlerts_length (w : World) (alerts : list PriceAlert) (s : Storage) :
  List.length (valueOf (priceAlerts w alerts s)) = List.length alerts.
Proof.
  rewrite priceAlerts_value.
  rewrite <- (length_map alert), alerts_of_listing.
  apply Permutation_length, groupByPair_members.
Qed.

Lemma addAlert_store (a : PriceAlert) (s : Storage) :
  storeOf (addAlert a s) = Some (AlertMap.set (id a) a (entries s)).
Proof. unfold addAlert. autorewrite with run. now destruct s. Qed.

Lemma cancelAlert_store (w : World) (i : string) (chat : option number) (s : Storage) :
  storeOf (Tools.cancelAlert w i chat s) = option_map (AlertMap.delete i) s.
Proof. unfold Tools.cancelAlert, bind. now destruct s. Qed.

Lemma option_indices (n : nat) (l : list TokenPair.t) :
  map TokenOption.index (mapFrom Creation.tokenOption n l) =
  List.seq (n + 1) (List.length l).
Proof.
  revert n. induction l as [|x l IH]; intros n; cbn; [reflexivity|].
  f_equal. rewrite IH. now rewrite Nat.add_succ_l.
Qed.

End Replies.

(* ================================================================== *)
(** ** Later cycles *)
(* ================================================================== *)

Module Later.

Import ObserveMore Provenance.

Lemma cycle_keeps_absent (w : World) (s : Storage) (i : string) :
  ~ In i (AlertMap.keys (entries s)) ->
  ~ In i (AlertMap.keys (entries (storeOf (checkAlerts w s)))).
Proof.
  intros Habsent Hin. apply Habsent. unfold AlertMap.keys in *.
  apply in_map_iff in Hin as [[k v] [E Hin]]. cbn in E. subst k.
  apply checkAlerts_entries in Hin as [Hin _].
  change i with (fst (i, v)). now apply in_map.
Qed.

(** An [id] that is not stored stays out of a well-formed storage through
    any number of cycles: cycles insert nothing. *)
Lemma afterCycles_keeps_absent (ws : list World) (s : Storage) (i : string) :
  wfStore s -> ~ In i (AlertMap.keys (entries s)) ->
  wfStore (afterCycles ws s) /\
  ~ In i (AlertMap.keys (entries (afterCycles ws s))).
Proof.
  revert s. induction ws as [|w ws IH]; intros s Hwf Habsent; [now split|].
  cbn [afterCycles fold_left]. apply IH.
  - now apply Invariant.checkAlerts_wf.
  - now apply cycle_keeps_absent.
Qed.

(** In a well-formed storage, a message of a cycle is about an alert whose
    [id] is a key of the storage. *)
Lemma send_names_stored_alert (w : World) (s : Storage) (c : number)
    (m : Message) (d : bool) :
  wfStore s ->
  In (EvSend c m d) (eventsOf (checkAlerts w s)) ->
  exists b, alertOf m = Some b /\ In (id b) (AlertMap.keys (entries s)).
Proof.
  intros Hwf Hin.
  apply (alert_events_of_cycle w s (EvSend c m d) eq_refl) in Hin
    as (b & Hb & Hn).
  destruct (notices_send w b c m d Hn) as (pd & _ & _ & _ & _ & Hof & _).
  exists b. split; [assumption|].
  unfold AlertMap.keys. change (id b) with (fst (id b, b)).
  apply in_map. now apply wf_entry.
Qed.

Lemma delivered_key_absent (w : World) (s : Storage) (a : PriceAlert) :
  In a (snapshot s) -> delivered w a = true ->
  ~ In (id a) (AlertMap.keys (entries (storeOf (checkAlerts w s)))).
Proof.
  intros Ha Hd Hin. unfold AlertMap.keys in Hin.
  apply in_map_iff in Hin as [[k v] [E Hin]]. cbn in E. subst k.
  apply checkAlerts_entries in Hin as [_ Hall].
  now apply (Hall a Ha Hd).
Qed.

End Later.

(* ================================================================== *)
(** ** The log of a cycle, turn by turn *)
(* ================================================================== *)

Module Turns.

Import Monitor Observe ObserveMore Trace Accounting Provenance Quiet.

(** The events of a loop are those of its turns, one after the other. *)
Lemma forEach_turns {X} (body : X -> M unit) (l : list X) :
  forall s, exists turns,
    eventsOf (forEach l body s) = List.concat turns /\
    Forall2 (fun x turn => exists s', turn = eventsOf (body x s')) l turns.
Proof.
  induction l as [|x l IH]; intros s.
  - exists []. split; [reflexivity|constructor].
  - cbn [forEach]. rewrite eventsOf_bind.
    destruct (IH (storeOf (body x s))) as (turns & E & Hturns).
    exists (eventsOf (body x s) :: turns). split.
    + cbn [List.concat]. now rewrite E.
    + constructor; [now exists s|assumption].
Qed.

(** A property of logs that holds of the empty log and of concatenations
    holds of a loop when it holds of every turn. *)
Lemma forEach_closed {X} (P : list Event -> Prop) (body : X -> M unit) (l : list X) :
  P [] -> (forall l1 l2, P l1 -> P l2 -> P (l1 ++ l2)) ->
  (forall x s, In x l -> P (eventsOf (body x s))) ->
  forall s, P (eventsOf (forEach l body s)).
Proof.
  intros Hnil Happ. induction l as [|x l IH]; intros Hbody s; [exact Hnil|].
  cbn [forEach]. rewrite eventsOf_bind. apply Happ.
  - apply Hbody. now left.
  - apply IH. intros y s' Hy. apply Hbody. now right.
Qed.

(** What the evaluation of the alerts of a served pair leaves in the log is
    no request, no pause and no line about a failed lookup. *)
Lemma checkAlert_inner (w : World) (pairData : DexPairData) (a : PriceAlert)
    (s : Storage) (e : Event) :
  In e (eventsOf (checkAlert w pairData (priceUsd pairData) a s)) ->
  isFetch e = false /\ isSleep e = false /\ isLookupFailureLine e = false.
Proof.
  intros He. split; [exact (checkAlert_no_fetch _ _ _ _ _ _ He)|].
  destruct (checkAlert_events w pairData a s e He) as [Hn | ->]; [|split; reflexivity].
  split.
  - exact (noticesAt_no_outcome isSleep w pairData a e isSleep_outcomeTest Hn).
  - exact (noticesAt_no_outcome isLookupFailureLine w pairData a e
             isLookupFailureLine_outcomeTest Hn).
Qed.

(** The turn of a pair address: the request, the evaluation of its alerts
    when it is served, and then the pause or the line about the failure. *)
Lemma checkPair_turn (w : World) (k : string) (g : list PriceAlert) (s : Storage) :
  exists inner outcome,
    eventsOf (checkPair w (k, g) s) = EvFetch k :: inner ++ [outcome] /\
    Forall (fun e => isFetch e = false /\ isSleep e = false /\
                     isLookupFailureLine e = false) inner /\
    (served w k = true -> outcome = EvSleep 200) /\
    (served w k = false -> inner = [] /\ isLookupFailureLine outcome = true).
Proof.
  unfold checkPair, served. autorewrite with run.
  destruct (http_get w k) as [|status| |[[|pairData rest]|]]; cbn [firstPair];
    autorewrite with run;
    try (eexists [], _; split; [reflexivity|]; split; [constructor|];
         split; [discriminate|]; intros _; split; reflexivity).
  exists (eventsOf (forEach g (checkAlert w pairData (priceUsd pairData)) s)),
         (EvSleep 200).
  split; [reflexivity|]. split; [|split; [reflexivity|discriminate]].
  apply Forall_forall. intros e He.
  destruct (forEach_event_inv _ _ _ _ He) as (b & s' & _ & Hb).
  exact (checkAlert_inner w pairData b s' e Hb).
Qed.

(** The log of a cycle over a non-empty snapshot: its opening line, the
    turns of the groups in their order, its closing line. *)
Lemma checkAlerts_turns (w : World) (s : Storage) :
  snapshot s <> [] ->
  exists turns,
    eventsOf (checkAlerts w s) =
      EvConsole (LogInitiating (List.length (snapshot s))) ::
      List.concat turns ++ [EvConsole LogCycleCompleted] /\
    Forall2 (fun group turn => exists s', turn = eventsOf (checkPair w group s'))
            (groupByPair (snapshot s)) turns.
Proof.
  intros Hsome. unfold checkAlerts. rewrite eventsOf_bind, getAllAlerts_run.
  autorewrite with run.
  destruct (snapshot s) as [|a0 alerts]; [congruence|].
  cbn [List.length Nat.eqb]. autorewrite with run. cbn [app].
  destruct (forEach_turns (checkPair w) (groupByPair (a0 :: alerts)) s)
    as (turns & E & Hturns).
  exists turns. split; [now rewrite E|exact Hturns].
Qed.

(** ** Sends and their console lines *)

Lemma paired_app (l1 l2 : list Event) :
  paired l1 -> paired l2 -> paired (l1 ++ l2).
Proof.
  intros H1 H2. induction H1 as [|e rest Hs Hl _ IH|chat note sent b quiet rest Hb Hq _ IH].
  - exact H2.
  - cbn [app]. now apply paired_other.
  - cbn [app]. rewrite <- app_assoc. cbn [app]. now apply paired_notice.
Qed.

Lemma paired_quiet (e : Event) :
  isSend e = false -> isNoticeLine e = false -> paired [e].
Proof. intros Hs Hl. apply paired_other; [assumption|assumption|constructor]. Qed.

Lemma checkAlert_paired (w : World) (pairData : DexPairData) (a : PriceAlert)
    (s : Storage) :
  paired (eventsOf (checkAlert w pairData (priceUsd pairData) a s)).
Proof.
  pose proof (checkCondition_alertOf pairData a (priceUsd pairData)) as Hnote.
  unfold checkAlert, shouldTrigger in *.
  destruct (checkCondition a (priceUsd pairData)) as [should msg].
  cbn [fst snd] in Hnote. destruct should; [|constructor].
  specialize (Hnote eq_refl).
  unfold notify. autorewrite with run.
  destruct (sendMessage w (chatId a) (triggerNote pairData a msg));
    autorewrite with run.
  - destruct (removeAlert_event_list (id a) s) as [-> | ->]; cbn [app].
    + apply (paired_notice _ _ true a [] []); [assumption|now left|constructor].
    + apply (paired_notice _ _ true a [EvConsole (LogRemoved (id a))] []);
        [assumption|now right|constructor].
  - cbn [app].
    apply (paired_notice _ _ false a [] []); [assumption|now left|constructor].
Qed.

Lemma checkPair_paired (w : World) (entry : string * list PriceAlert) (s : Storage) :
  paired (eventsOf (checkPair w entry s)).
Proof.
  destruct entry as [k g]. unfold checkPair. autorewrite with run.
  apply paired_app; [now apply paired_quiet|].
  destruct (http_get w k) as [|status| |[[|pairData rest]|]];
    autorewrite with run; try (now apply paired_quiet).
  apply paired_app; [|now apply paired_quiet].
  apply (forEach_closed paired); [constructor|exact paired_app|].
  intros b s' _. apply checkAlert_paired.
Qed.

Lemma checkAlerts_paired (w : World) (s : Storage) :
  paired (eventsOf (checkAlerts w s)).
Proof.
  unfold checkAlerts. rewrite eventsOf_bind, getAllAlerts_run.
  autorewrite with run.
  destruct (Nat.eqb (List.length (snapshot s)) 0); autorewrite with run;
    cbn [app].
  - now apply paired_quiet.
  - apply paired_other; [reflexivity|reflexivity|].
    apply paired_app; [|now apply paired_quiet].
    apply (forEach_closed paired); [constructor|exact paired_app|].
    intros e s' _. apply checkPair_paired.
Qed.

(** No console line of an alert comes before the first send. *)
Lemma paired_until (events : list Event) :
  paired events -> filter isNoticeLine (untilSend events) = [].
Proof.
  induction 1 as [|e rest Hs Hl _ IH|chat note sent b quiet rest Hb Hq _ IH].
  - reflexivity.
  - cbn [untilSend]. rewrite Hs. cbn [filter]. now rewrite Hl.
  - reflexivity.
Qed.

(** Every send of a paired log, with what follows it. *)
Lemma paired_split (events : list Event) :
  paired events ->
  forall before chat note sent after,
    events = before ++ EvSend chat note sent :: after ->
    exists b quiet rest,
      alertOf note = Some b /\
      after = quiet ++
              EvConsole (if sent then LogTriggered (id b) else ErrNotification (id b))
              :: rest /\
      (quiet = [] \/ quiet = [EvConsole (LogRemoved (id b))]) /\
      filter isNoticeLine (untilSend rest) = [].
Proof.
  induction 1 as [|e rest Hs Hl Hrest IH|chat0 note0 sent0 b0 quiet rest Hb Hq Hrest IH];
    intros before chat note sent after E.
  - now destruct before.
  - destruct before as [|x before]; cbn [app] in E.
    + injection E as -> _. discriminate Hs.
    + injection E as _ E. exact (IH _ _ _ _ _ E).
  - destruct before as [|x before]; cbn [app] in E.
    + injection E as <- <- <- <-.
      exists b0, quiet, rest. split; [assumption|]. split; [reflexivity|].
      split; [assumption|]. now apply paired_until.
    + injection E as _ E.
      assert (Hin : exists before', rest = before' ++ EvSend chat note sent :: after).
      { destruct Hq as [-> | ->]; cbn [app] in E.
        - destruct before as [|y before]; cbn [app] in E; [now destruct sent0|].
          injection E as _ E. now exists before.
        - destruct before as [|y before]; cbn [app] in E; [discriminate|].
          injection E as _ E.
          destruct before as [|z before]; cbn [app] in E; [now destruct sent0|].
          injection E as _ E. now exists before. }
      destruct Hin as [before' E']. exact (IH _ _ _ _ _ E').
Qed.

End Turns.

(* ================================================================== *)
(** ** Further properties *)
(* ================================================================== *)

Import ObserveMore AlertMapMore Accounting Provenance Quiet Replies Turns.

(** X1. What [addAlert] stores is found under its [id] and is in the next
    snapshot; every other key reads as before. *)
Theorem added_alert_is_found (a : PriceAlert) (s : Storage) :
  let after := storeOf (addAlert a s) in
  AlertMap.get (id a) (entries after) = Some a /\
  In a (snapshot after) /\
  forall k, k <> id a ->
    AlertMap.get k (entries after) = AlertMap.get k (entries s).
Proof.
  intros after. unfold after. rewrite addAlert_store. cbn [entries].
  split; [apply get_set_same|]. split.
  - unfold snapshot. cbn [entries]. apply in_values. exists (id a).
    apply get_some_in, get_set_same.
  - intros k Hk. now apply get_set_other.
Qed.

Lemma added_alert_is_found_witness :
  AlertMap.get "alert_1"%string
    (entries (storeOf (addAlert Samples.dropTen Samples.oneAlert)))
  = AlertMap.get "alert_1"%string (entries Samples.oneAlert).
Proof.
  apply (added_alert_is_found Samples.dropTen Samples.oneAlert).
  discriminate.
Defined.

(** X2. [addAlert] with an [id] that is not stored puts the alert last in
    the snapshot, and so last in the group of its pair address when the next
    cycle batches the snapshot; the groups keep their order, the group of a
    pair address that was not watched yet going last.  With a stored [id]
    it keeps the keys and their order and the number of alerts; and in a
    well-formed storage the alert is then the only record under its [id]
    (an older one is overwritten). *)
Theorem added_alert_position (a : PriceAlert) (s : Storage) :
  let after := storeOf (addAlert a s) in
  let groups := groupByPair (snapshot s) in
  let groups' := groupByPair (snapshot after) in
  (~ In (id a) (AlertMap.keys (entries s)) ->
     snapshot after = snapshot s ++ [a] /\
     In (pairAddress a, withPair (pairAddress a) (snapshot s) ++ [a]) groups' /\
     (In (pairAddress a) (map fst groups) -> map fst groups' = map fst groups) /\
     (~ In (pairAddress a) (map fst groups) ->
        map fst groups' = map fst groups ++ [pairAddress a])) /\
  (In (id a) (AlertMap.keys (entries s)) ->
     AlertMap.keys (entries after) = AlertMap.keys (entries s) /\
     List.length (snapshot after) = List.length (snapshot s)) /\
  (wfStore s -> forall v, In (id a, v) (entries after) -> v = a).
Proof.
  intros after groups groups'. unfold groups', groups, after.
  rewrite addAlert_store. cbn [entries].
  split; [|split].
  - intros Hfresh.
    assert (Hsnap : snapshot (Some (AlertMap.set (id a) a (entries s)))
                    = snapshot s ++ [a]).
    { unfold snapshot. cbn [entries].
      rewrite (set_fresh _ _ _ Hfresh). unfold AlertMap.values.
      now rewrite map_app. }
    rewrite Hsnap. split; [reflexivity|]. split; [|split].
    + assert (Hin : In a (snapshot s ++ [a])) by (apply in_or_app; right; now left).
      destruct (member_group _ _ Hin) as [g [Hg _]].
      rewrite (groupByPair_withPair _ _ _ Hg), withPair_app in Hg.
      unfold withPair at 2 in Hg. cbn [filter] in Hg.
      now rewrite String.eqb_refl in Hg.
    + intros Hin. rewrite groupByPair_snoc. now apply pushTo_keys_present.
    + intros Hnot. rewrite groupByPair_snoc. now apply pushTo_keys_absent.
  - intros Hin. pose proof (set_present (id a) a (entries s) Hin) as Hkeys.
    split; [exact Hkeys|].
    unfold snapshot, AlertMap.values. cbn [entries]. rewrite !length_map.
    unfold AlertMap.keys in Hkeys.
    now rewrite <- (length_map fst), Hkeys, length_map.
  - intros Hwf v Hv.
    destruct (Invariant.wf_set a (entries s) Hwf) as [Hnd _].
    apply (NoDup_keys_functional _ (id a) v a Hnd Hv).
    apply get_some_in, get_set_same.
Qed.

Lemma added_alert_position_witness :
  (snapshot (storeOf (addAlert Samples.dropTen Samples.oneAlert))
   = snapshot Samples.oneAlert ++ [Samples.dropTen] /\
   In ("0xpair"%string, [Samples.aboveHundred; Samples.dropTen])
      (groupByPair (snapshot (storeOf (addAlert Samples.dropTen Samples.oneAlert))))) /\
  List.length (snapshot (storeOf (addAlert Samples.aboveHundred Samples.oneAlert)))
  = List.length (snapshot Samples.oneAlert).
Proof.
  pose proof (added_alert_position Samples.dropTen Samples.oneAlert) as H.
  cbv zeta in H. destruct H as (Hfresh & _ & _).
  destruct Hfresh as (Hsnap & Hgroup & _); [cbn; intuition discriminate|].
  split; [split; [exact Hsnap|exact Hgroup]|].
  apply (added_alert_position Samples.aboveHundred Samples.oneAlert).
  cbn. now left.
Defined.

(** X3. After [removeAlert] nothing is found under the removed [id] and
    every other key reads as before; removing again changes nothing; and on
    a Durable Object that has stored no map, nothing is written or logged. *)
Theorem removed_alert_is_gone (i : string) (s : Storage) :
  let after := storeOf (removeAlert i s) in
  AlertMap.get i (entries after) = None /\
  (forall k, k <> i ->
     AlertMap.get k (entries after) = AlertMap.get k (entries s)) /\
  storeOf (removeAlert i after) = after /\
  (s = None -> removeAlert i s = (None, None, [])).
Proof.
  intros after. unfold after. rewrite !removeAlert_store.
  destruct s as [m|]; cbn [option_map entries].
  - split; [apply get_delete_same|]. split; [intros k Hk; now apply get_delete_other|].
    split; [now rewrite delete_twice|discriminate].
  - split; [reflexivity|]. split; [intros k _; reflexivity|].
    split; reflexivity.
Qed.

Lemma removed_alert_is_gone_witness :
  AlertMap.get "alert_3"%string
    (entries (storeOf (removeAlert "alert_1"%string Samples.twoPairs)))
  = AlertMap.get "alert_3"%string (entries Samples.twoPairs) /\
  removeAlert "alert_1"%string None = (None, None, []).
Proof.
  split.
  - apply (removed_alert_is_gone "alert_1"%string Samples.twoPairs). discriminate.
  - apply (removed_alert_is_gone "alert_1"%string None). reflexivity.
Defined.

(** X4. Adding an alert whose [id] is not stored and removing it again
    gives back the entries that were there, in their order. *)
Theorem add_then_remove_restores (a : PriceAlert) (s : Storage) :
  ~ In (id a) (AlertMap.keys (entries s)) ->
  entries (storeOf (removeAlert (id a) (storeOf (addAlert a s)))) = entries s.
Proof.
  intros Hfresh. rewrite removeAlert_store, addAlert_store. cbn [option_map entries].
  now apply delete_set_fresh.
Qed.

Lemma add_then_remove_restores_witness :
  entries (storeOf (removeAlert "alert_3"%string
                      (storeOf (addAlert Samples.dropTen Samples.oneAlert))))
  = entries Samples.oneAlert.
Proof.
  apply (add_then_remove_restores Samples.dropTen Samples.oneAlert).
  cbn. intuition discriminate.
Defined.

(** X5. Every storage that [addAlert], [removeAlert], [checkAlerts], the
    listing, [cancelAlert] and [confirmTokenAlert] can produce from a Durable
    Object that has stored nothing is well formed: no key occurs twice and
    every key is the [id] of its alert. *)
Theorem reachable_storage_well_formed (s : Storage) :
  reachable s -> AlertMap.wf (entries s).
Proof.
  induction 1 as [|a s _ IH|i s _ IH|w s _ IH|w chat s _ IH|w i chat s _ IH
                  |accepts newId now params s _ IH].
  - apply Invariant.wfStore_initial.
  - now apply Invariant.addAlert_wf.
  - now apply Invariant.removeAlert_wf.
  - now apply Invariant.checkAlerts_wf.
  - now rewrite myalerts_store.
  - rewrite cancelAlert_store. now apply Invariant.wfStore_delete.
  - cbn [Creation.confirmTokenAlert fst snd]. now apply Invariant.addAlert_wf.
Qed.

Lemma reachable_storage_well_formed_witness :
  AlertMap.wf (entries Samples.twoPairs).
Proof.
  apply (reachable_storage_well_formed Samples.twoPairs).
  apply (reach_addAlert Samples.gainTenFromZero
           (Some [("alert_1"%string, Samples.aboveHundred);
                  ("alert_3"%string, Samples.dropTen)])).
  apply (reach_addAlert Samples.dropTen Samples.oneAlert).
  apply (reach_addAlert Samples.aboveHundred None).
  exact reach_start.
Defined.

(** X6. A cycle sends a message only for an alert of its snapshot whose pair
    was served and whose condition holds at the served price; the message is
    the one about that alert and goes to that alert's chat. *)
Theorem sends_only_for_met_conditions (w : World) (s : Storage)
    (c : number) (m : Message) (d : bool) :
  In (EvSend c m d) (eventsOf (checkAlerts w s)) ->
  exists b pairData,
    In b (snapshot s) /\
    firstPair (http_get w (pairAddress b)) = Some pairData /\
    shouldTrigger b (priceUsd pairData) = true /\
    c = chatId b /\ m = noteFor pairData b /\ alertOf m = Some b /\
    d = sendMessage w c m.
Proof.
  intros Hin.
  apply (alert_events_of_cycle w s (EvSend c m d) eq_refl) in Hin
    as (b & Hb & Hn).
  destruct (notices_send w b c m d Hn) as (pd & H). exists b, pd. tauto.
Qed.

Lemma sends_only_for_met_conditions_witness :
  exists b pairData,
    In b (snapshot Samples.oneAlert) /\
    firstPair (http_get (Samples.flatWorld 101%float true) (pairAddress b))
      = Some pairData /\
    shouldTrigger b (priceUsd pairData) = true /\
    7%float = chatId b /\
    noteFor (mkPair 101%float None None None) Samples.aboveHundred
      = noteFor pairData b /\
    alertOf (noteFor (mkPair 101%float None None None) Samples.aboveHundred)
      = Some b /\
    true = sendMessage (Samples.flatWorld 101%float true) 7%float
             (noteFor (mkPair 101%float None None None) Samples.aboveHundred).
Proof.
  apply (sends_only_for_met_conditions (Samples.flatWorld 101%float true)
           Samples.oneAlert).
  vm_compute. right. right. left. reflexivity.
Defined.

(** X7. The accounts of a cycle: it sends as many messages as its snapshot
    has alerts whose condition is met, logs as many deliveries as alerts are
    delivered and as many failures as met alerts are not.  And the order:
    every send is followed by the console line of its alert, "triggered and
    removed" when the message was accepted and "failed to deliver" when not,
    with at most the line of [removeAlert] between the two; no other such
    line comes before the next send, and none before the first. *)
Theorem cycle_accounting (w : World) (s : Storage) :
  let events := eventsOf (checkAlerts w s) in
  countEvents isSend events = List.length (filter (conditionMet w) (snapshot s)) /\
  countEvents isTriggeredLine events
    = List.length (filter (delivered w) (snapshot s)) /\
  countEvents isFailureLine events
    = List.length (filter (fun b => conditionMet w b && negb (delivered w b))
                     (snapshot s)) /\
  countEvents isSend events
    = countEvents isTriggeredLine events + countEvents isFailureLine events /\
  (forall before chat note sent after,
     events = before ++ EvSend chat note sent :: after ->
     exists b quiet rest,
       alertOf note = Some b /\
       after = quiet ++
               EvConsole (if sent then LogTriggered (id b) else ErrNotification (id b))
               :: rest /\
       (quiet = [] \/ quiet = [EvConsole (LogRemoved (id b))]) /\
       filter isNoticeLine (untilSend rest) = []) /\
  filter isNoticeLine (untilSend events) = [].
Proof.
  intros events.
  split; [|split; [|split; [|split; [|split]]]]; unfold events.
  - rewrite (checkAlerts_notice_count isSend w s isSend_alertTest).
    rewrite (sum_map_ext_in _ _ _ (fun b _ => notices_send_count w b)).
    now rewrite <- sum_indicator.
  - rewrite (checkAlerts_notice_count isTriggeredLine w s isTriggeredLine_alertTest).
    rewrite (sum_map_ext_in _ _ _ (fun b _ => notices_triggered_count w b)).
    now rewrite <- sum_indicator.
  - rewrite (checkAlerts_notice_count isFailureLine w s isFailureLine_alertTest).
    rewrite (sum_map_ext_in _ _ _ (fun b _ => notices_failure_count w b)).
    now rewrite <- sum_indicator.
  - rewrite (checkAlerts_notice_count isSend w s isSend_alertTest).
    rewrite (checkAlerts_notice_count isTriggeredLine w s isTriggeredLine_alertTest).
    rewrite (checkAlerts_notice_count isFailureLine w s isFailureLine_alertTest).
    rewrite (sum_map_ext_in _ _ _ (fun b _ => notices_send_count w b)).
    rewrite (sum_map_ext_in _ _ _ (fun b _ => notices_triggered_count w b)).
    rewrite (sum_map_ext_in _ _ _ (fun b _ => notices_failure_count w b)).
    rewrite (sum_map_ext_in _ _ _ (fun b _ => met_split w b)).
    apply sum_add.
  - exact (paired_split _ (checkAlerts_paired w s)).
  - exact (paired_until _ (checkAlerts_paired w s)).
Qed.

Lemma cycle_accounting_witness :
  exists b quiet rest,
    alertOf (noteFor (mkPair 101%float None None None) Samples.aboveHundred)
      = Some b /\
    [EvConsole (LogRemoved "alert_1"%string);
     EvConsole (LogTriggered "alert_1"%string);
     EvSleep 200; EvConsole LogCycleCompleted]
    = quiet ++ EvConsole (LogTriggered (id b)) :: rest /\
    (quiet = [] \/ quiet = [EvConsole (LogRemoved (id b))]) /\
    filter isNoticeLine (untilSend rest) = [].
Proof.
  pose proof (cycle_accounting (Samples.flatWorld 101%float true) Samples.oneAlert)
    as H.
  cbv zeta in H. destruct H as (_ & _ & _ & _ & Hfollow & _).
  apply (Hfollow [EvConsole (LogInitiating 1); EvFetch "0xpair"%string]
           7%float
           (noteFor (mkPair 101%float None None None) Samples.aboveHundred)
           true).
  reflexivity.
Defined.

(** X8. A cycle in which no alert is delivered leaves the storage exactly as
    it was; and on a well-formed storage, a second cycle in the same world
    changes nothing more. *)
Theorem quiet_cycle_changes_nothing (w : World) (s : Storage) :
  ((forall b, In b (snapshot s) -> delivered w b = false) ->
     storeOf (checkAlerts w s) = s) /\
  (AlertMap.wf (entries s) ->
     storeOf (checkAlerts w (storeOf (checkAlerts w s)))
     = storeOf (checkAlerts w s)).
Proof.
  split; [apply checkAlerts_store_fixed|].
  intros Hwf. apply checkAlerts_store_fixed.
  intros b Hb. now destruct (survivor_not_delivered w s b Hwf Hb).
Qed.

Lemma quiet_cycle_changes_nothing_witness :
  storeOf (checkAlerts (Samples.flatWorld 95%float true) Samples.oneAlert)
  = Samples.oneAlert /\
  storeOf (checkAlerts (Samples.flatWorld 101%float true)
             (storeOf (checkAlerts (Samples.flatWorld 101%float true) Samples.twoPairs)))
  = storeOf (checkAlerts (Samples.flatWorld 101%float true) Samples.twoPairs).
Proof.
  split.
  - apply (proj1 (quiet_cycle_changes_nothing (Samples.flatWorld 95%float true)
                    Samples.oneAlert)).
    intros b [<-|[]]. reflexivity.
  - apply (proj2 (quiet_cycle_changes_nothing (Samples.flatWorld 101%float true)
                    Samples.twoPairs)).
    exact twoPairs_wf.
Defined.

Import Later.

(** X9. One shot: once an alert of a well-formed storage is delivered, no
    later cycle, in whatever world and after however many cycles, sends a
    message about it. *)
Theorem delivered_alert_not_notified_again (w : World) (s : Storage) (a : PriceAlert) :
  AlertMap.wf (entries s) ->
  In a (snapshot s) ->
  delivered w a = true ->
  forall (ws : list World) (w' : World) (c : number) (m : Message) (d : bool),
    In (EvSend c m d)
       (eventsOf (checkAlerts w' (afterCycles ws (storeOf (checkAlerts w s))))) ->
    alertOf m <> Some a.
Proof.
  intros Hwf Ha Hd ws w' c m d Hin Hof.
  destruct (afterCycles_keeps_absent ws (storeOf (checkAlerts w s)) (id a))
    as [Hwf' Habsent].
  - now apply Invariant.checkAlerts_wf.
  - now apply delivered_key_absent.
  - destruct (send_names_stored_alert w' _ c m d Hwf' Hin) as (b & Hb & Hkey).
    rewrite Hof in Hb. injection Hb as <-. now apply Habsent.
Qed.

Lemma delivered_alert_not_notified_again_witness :
  alertOf (noteFor (mkPair 40%float None None None) Samples.dropTen)
  <> Some Samples.aboveHundred.
Proof.
  apply (delivered_alert_not_notified_again (Samples.onePairWorld 101%float)
           Samples.twoPairs Samples.aboveHundred twoPairs_wf
           (or_introl eq_refl) eq_refl
           [Samples.flatWorld 95%float true] (Samples.flatWorld 40%float true)
           7%float _ true).
  vm_compute. right. right. left. reflexivity.
Defined.

(** X10. The log of a cycle over a non-empty snapshot is its opening line,
    the turns of the pair addresses in the order of their groups, and its
    closing line.  The turn of a pair address begins with its price request
    and ends in one of two ways: when the pair is served, with the pause of
    200 ms, after the evaluation of its alerts (which requests nothing,
    pauses nowhere and logs no failed lookup); when its lookup fails, with
    one error or warning line, right after the request and without pause.
    So a cycle pauses once per served pair, logs one such line per failed
    pair, and the two together are as many as its price requests. *)
Theorem pair_turns_end_in_pause_or_failure_line (w : World) (s : Storage) :
  let events := eventsOf (checkAlerts w s) in
  let groups := groupByPair (snapshot s) in
  countEvents isSleep events
    = List.length (filter (fun e => served w (fst e)) groups) /\
  countEvents isLookupFailureLine events
    = List.length (filter (fun e => negb (served w (fst e))) groups) /\
  countEvents isSleep events + countEvents isLookupFailureLine events
    = countEvents isFetch events /\
  (forall ms, In (EvSleep ms) events -> ms = 200) /\
  (snapshot s <> [] ->
   exists turns,
     events = EvConsole (LogInitiating (List.length (snapshot s))) ::
              List.concat turns ++ [EvConsole LogCycleCompleted] /\
     Forall2
       (fun group turn =>
          exists inner outcome,
            turn = EvFetch (fst group) :: inner ++ [outcome] /\
            Forall (fun e => isFetch e = false /\ isSleep e = false /\
                             isLookupFailureLine e = false) inner /\
            (served w (fst group) = true -> outcome = EvSleep 200) /\
            (served w (fst group) = false ->
               inner = [] /\ isLookupFailureLine outcome = true))
       groups turns).
Proof.
  intros events groups.
  split; [|split; [|split; [|split]]]; unfold events.
  - rewrite (checkAlerts_outcome_count isSleep w s isSleep_outcomeTest).
    fold groups.
    now rewrite (filter_ext _ _ (fun e => outcome_is_pause w (fst e))).
  - rewrite (checkAlerts_outcome_count isLookupFailureLine w s
               isLookupFailureLine_outcomeTest).
    fold groups.
    now rewrite (filter_ext _ _ (fun e => outcome_is_failure w (fst e))).
  - rewrite (checkAlerts_outcome_count isSleep w s isSleep_outcomeTest).
    rewrite (checkAlerts_outcome_count isLookupFailureLine w s
               isLookupFailureLine_outcomeTest).
    rewrite (checkAlerts_count isFetch w s isFetch_fetchTest). cbn [isFetch].
    rewrite sum_ones. fold groups.
    rewrite (filter_ext _ _ (fun e => outcome_is_pause w (fst e))).
    rewrite (filter_ext _ _ (fun e => outcome_is_failure w (fst e))).
    induction groups as [|e l IH]; [reflexivity|]. cbn.
    destruct (served w (fst e)); cbn; lia.
  - intros ms Hin.
    destruct (checkAlerts_events_inv w s _ Hin)
      as [E | [E | [E | (k & g & s' & Hg & He)]]]; try discriminate.
    destruct (checkPair_events_inv w k g s' _ He)
      as [E | [[_ [E | [E | [st E]]]] | [[_ E] | (pd & b & s2 & Hq & Hb & Hev)]]];
      try discriminate.
    + now injection E.
    + destruct (checkAlert_events w pd b s2 _ Hev) as [Hn | E]; [|discriminate].
      now apply (noticesAt_no_outcome isSleep w pd b _ isSleep_outcomeTest) in Hn.
  - intros Hsome.
    destruct (checkAlerts_turns w s Hsome) as (turns & E & Hturns).
    exists turns. split; [exact E|].
    fold groups in Hturns. clear E.
    induction Hturns as [|[k g] turn l l' [s' ->] _ IH]; constructor; [|exact IH].
    apply checkPair_turn.
Qed.

Lemma pair_turns_end_in_pause_or_failure_line_witness :
  countEvents isSleep
    (eventsOf (checkAlerts (Samples.onePairWorld 95%float) Samples.twoPairs)) = 1 /\
  exists turns,
    eventsOf (checkAlerts (Samples.onePairWorld 95%float) Samples.twoPairs)
    = EvConsole (LogInitiating 3) :: List.concat turns ++ [EvConsole LogCycleCompleted] /\
    Forall2
      (fun group turn =>
         exists inner outcome,
           turn = EvFetch (fst group) :: inner ++ [outcome] /\
           Forall (fun e => isFetch e = false /\ isSleep e = false /\
                            isLookupFailureLine e = false) inner /\
           (served (Samples.onePairWorld 95%float) (fst group) = true ->
              outcome = EvSleep 200) /\
           (served (Samples.onePairWorld 95%float) (fst group) = false ->
              inner = [] /\ isLookupFailureLine outcome = true))
      (groupByPair (snapshot Samples.twoPairs)) turns.
Proof.
  pose proof (pair_turns_end_in_pause_or_failure_line
                (Samples.onePairWorld 95%float) Samples.twoPairs) as H.
  cbv zeta in H. destruct H as (Hsleep & _ & _ & _ & Hturns).
  split; [exact Hsleep|].
  apply Hturns. discriminate.
Defined.

(** X11. The batching loop puts in the group of a pair address exactly the
    alerts with that pair address, in the order of the input; and every
    alert of the input finds its group that way. *)
Theorem groups_hold_their_pair (alerts : list PriceAlert) :
  (forall k g, In (k, g) (groupByPair alerts) -> g = withPair k alerts /\ g <> []) /\
  (forall a, In a alerts ->
     In (pairAddress a, withPair (pairAddress a) alerts) (groupByPair alerts)).
Proof.
  assert (Hgroups : forall k g, In (k, g) (groupByPair alerts) -> g = withPair k alerts).
  { intros k g Hin.
    apply (fold_pushTo_groups alerts [] [] (NoDup_nil _)); [| |exact Hin].
    - intros k' g' [].
    - intros b []. }
  split.
  - intros k g Hin. split; [now apply Hgroups|].
    destruct (groupByPair_partitioned alerts) as [_ Hp]. now apply (Hp k g).
  - intros a Ha. destruct (member_group alerts a Ha) as [g [Hg _]].
    now rewrite <- (Hgroups _ _ Hg).
Qed.

Lemma groups_hold_their_pair_witness :
  In ("0xpair"%string, [Samples.aboveHundred; Samples.dropTen])
     (groupByPair (snapshot Samples.twoPairs)).
Proof.
  apply (proj2 (groups_hold_their_pair (snapshot Samples.twoPairs))
           Samples.aboveHundred).
  cbn. auto.
Defined.

(** X12. The listing for a recipient without stored alerts replies once,
    that there are none: no price request, no change of the storage. *)
Theorem listing_without_alerts (w : World) (chat : number) (s : Storage) :
  filter (fun a => seq (chatId a) chat) (snapshot s) = [] ->
  myalerts w chat s = (tt, s, [EvReply ReplyNoAlerts]).
Proof.
  intros Hnone. now apply myalerts_none.
Qed.

Lemma listing_without_alerts_witness :
  myalerts Samples.downWorld 8%float Samples.oneAlert
  = (tt, Samples.oneAlert, [EvReply ReplyNoAlerts]).
Proof.
  apply (listing_without_alerts Samples.downWorld 8%float Samples.oneAlert).
  reflexivity.
Defined.

(** X13. The replies of the listing.  "No alerts" is said only when the
    recipient has none, "fetching" only when there are some; and a list that
    is sent announces its own length, which is the number of the recipient's
    stored alerts, and numbers its entries 1, 2, ... in order. *)
Theorem listing_replies (w : World) (chat : number) (s : Storage) (r : Reply) :
  In (EvReply r) (eventsOf (myalerts w chat s)) ->
  let alerts := filter (fun a => seq (chatId a) chat) (snapshot s) in
  match r with
  | ReplyNoAlerts => alerts = []
  | ReplyFetching => alerts <> []
  | ReplyAlertList count alertList =>
      count = List.length alertList /\
      count = List.length alerts /\
      0 < count /\
      map position alertList = List.seq 1 count
  end.
Proof.
  intros Hin alerts.
  destruct (myalerts_replies w chat s r alerts eq_refl Hin)
    as [[Hnone ->] | [Hsome [-> | [_ ->]]]]; try assumption.
  rewrite mapFrom_length, (positions_from 0), priceAlerts_length.
  repeat split.
  destruct alerts; [congruence|cbn; lia].
Qed.

Lemma listing_replies_witness :
  2 = List.length (filter (fun a => seq (chatId a) 7%float)
                     (snapshot Samples.twoPairs)) /\
  map position
    (mapFrom renderAlert 0
       [mkPriced Samples.aboveHundred 95%float; mkPriced Samples.dropTen 95%float])
  = List.seq 1 2.
Proof.
  pose proof (listing_replies (Samples.onePairWorld 95%float) 7%float
                Samples.twoPairs
                (ReplyAlertList 2
                   (mapFrom renderAlert 0
                      [mkPriced Samples.aboveHundred 95%float;
                       mkPriced Samples.dropTen 95%float]))) as H.
  cbv zeta in H.
  destruct H as (_ & Hcount & _ & Hpos).
  - vm_compute. right. right. right. left. reflexivity.
  - split; [exact Hcount|exact Hpos].
Defined.

(** X14. Cancelling works on the storage whatever the tool answers: after
    [cancelAlert] on a well-formed storage, no later cycle sends a message
    about an alert with the cancelled [id]. *)
Theorem cancelled_alert_not_notified (w : World) (i : string)
    (chat : option number) (s : Storage) :
  AlertMap.wf (entries s) ->
  forall (ws : list World) (w' : World) (c : number) (m : Message) (d : bool)
         (b : PriceAlert),
    In (EvSend c m d)
       (eventsOf (checkAlerts w'
          (afterCycles ws (storeOf (Tools.cancelAlert w i chat s))))) ->
    alertOf m = Some b -> id b <> i.
Proof.
  intros Hwf ws w' c m d b Hin Hof E.
  destruct (afterCycles_keeps_absent ws (storeOf (Tools.cancelAlert w i chat s)) i)
    as [Hwf' Habsent].
  - rewrite cancelAlert_store. now apply Invariant.wfStore_delete.
  - rewrite cancelAlert_store. destruct s as [m0|]; cbn; [apply delete_keys|tauto].
  - destruct (send_names_stored_alert w' _ c m d Hwf' Hin) as (b' & Hb' & Hkey).
    rewrite Hof in Hb'. injection Hb' as <-. rewrite E in Hkey. now apply Habsent.
Qed.

Lemma cancelled_alert_not_notified_witness :
  id Samples.dropTen <> "alert_1"%string.
Proof.
  apply (cancelled_alert_not_notified Samples.downWorld "alert_1"%string
           (Some 7%float) Samples.twoPairs twoPairs_wf
           [] (Samples.onePairWorld 40%float) 7%float
           (noteFor (mkPair 40%float None None None) Samples.dropTen) true
           Samples.dropTen).
  - vm_compute. right. right. left. reflexivity.
  - reflexivity.
Defined.

(** X15. Cancelling an [id] that is not stored leaves the storage exactly as
    it is; when a map is stored, the console line of a removal is written
    all the same. *)
Theorem cancel_unknown_id_keeps_storage (w : World) (i : string)
    (chat : option number) (s : Storage) :
  ~ In i (AlertMap.keys (entries s)) ->
  storeOf (Tools.cancelAlert w i chat s) = s /\
  eventsOf (Tools.cancelAlert w i chat s) =
    match s with
    | Some _ => [EvConsole (LogRemoved i)]
    | None => []
    end.
Proof.
  intros Habsent. rewrite cancelAlert_store. destruct s as [m|]; cbn.
  - now rewrite (delete_absent i m Habsent).
  - split; reflexivity.
Qed.

Lemma cancel_unknown_id_keeps_storage_witness :
  storeOf (Tools.cancelAlert Samples.downWorld "alert_9"%string None Samples.twoPairs)
  = Samples.twoPairs.
Proof.
  apply (cancel_unknown_id_keeps_storage Samples.downWorld "alert_9"%string None
           Samples.twoPairs).
  cbn. intuition discriminate.
Defined.

Lemma mapFrom_projection {X Y Z} (f : nat -> X -> Y) (g : Y -> Z) (h : X -> Z)
    (n : nat) (l : list X) :
  (forall i x, g (f i x) = h x) -> map g (mapFrom f n l) = map h l.
Proof.
  intros H. revert n. induction l as [|x l IH]; intros n; cbn; [reflexivity|].
  now rewrite H, IH.
Qed.

(** X16. [confirmTokenAlert] stores, under the generated [id], an alert made
    of its arguments and of the creation time, and reports that same alert;
    every other key reads as before.  Nothing is validated (any price and
    any target are taken, [tokenChoice] is not read), and whether Telegram
    accepts the confirmation changes neither the storage nor the answer: a
    refusal is only logged. *)
Theorem confirmation_stores_alert
    (accepts : number -> Creation.ConfirmationNote -> bool)
    (newId : string) (now : number) (params : Params.t) (s : Storage) :
  let run := Creation.confirmTokenAlert accepts newId now params s in
  let after := snd (fst run) in
  exists text alert note,
    fst (fst run) = Creation.Activated text newId alert /\
    alert = mkAlert newId (Params.telegramChatId params)
              (Params.tokenAddress params) (Params.tokenSymbol params)
              (Params.tokenName params) (Params.chainId params)
              (Params.pairAddress params) (Params.alertType params)
              (Params.targetValue params) (Params.currentPrice params) now None /\
    AlertMap.get newId (entries after) = Some alert /\
    (forall k, k <> newId ->
       AlertMap.get k (entries after) = AlertMap.get k (entries s)) /\
    (forall accepts',
       let run' := Creation.confirmTokenAlert accepts' newId now params s in
       snd (fst run') = after /\ fst (fst run') = fst (fst run)) /\
    In (Creation.ConfirmationSend (Params.telegramChatId params) note
          (accepts (Params.telegramChatId params) note)) (snd run) /\
    (accepts (Params.telegramChatId params) note = false ->
       In Creation.ConfirmationFailed (snd run)).
Proof.
  intros run after. unfold after, run, Creation.confirmTokenAlert. cbn [fst snd].
  eexists. eexists. eexists.
  split; [reflexivity|]. split; [reflexivity|].
  rewrite addAlert_store. cbn [entries id].
  split; [apply get_set_same|].
  split; [intros k Hk; now apply get_set_other|].
  split; [intros accepts'; split; reflexivity|].
  split.
  - apply in_or_app. right. left. reflexivity.
  - intros Hrefused. apply in_or_app. right. right. rewrite Hrefused. now left.
Qed.

Lemma confirmation_stores_alert_witness :
  AlertMap.get "alert_9"%string
    (entries (snd (fst (Creation.confirmTokenAlert (fun _ _ => false)
                          "alert_1"%string 1700000000000%float
                          MoreSamples.aboveHundredParams Samples.twoPairs))))
  = AlertMap.get "alert_9"%string (entries Samples.twoPairs).
Proof.
  destruct (confirmation_stores_alert (fun _ _ => false) "alert_1"%string
              1700000000000%float MoreSamples.aboveHundredParams Samples.twoPairs)
    as (text & alert & note & _ & _ & _ & Hframe & _).
  apply Hframe. discriminate.
Defined.

(** X17. Creation and monitoring compose: when the next cycle finds the pair
    of a freshly confirmed alert served at a price that meets its condition
    and Telegram accepts the message, the message goes to the chat given at
    creation and the alert's [id] is gone from the storage after the
    cycle. *)
Theorem confirmed_alert_fires
    (accepts : number -> Creation.ConfirmationNote -> bool)
    (newId : string) (now : number) (params : Params.t) (s : Storage)
    (w : World) (pairData : DexPairData)
    (text : Creation.ActivationText) (alert : PriceAlert) :
  fst (fst (Creation.confirmTokenAlert accepts newId now params s))
    = Creation.Activated text newId alert ->
  firstPair (http_get w (Params.pairAddress params)) = Some pairData ->
  shouldTrigger alert (priceUsd pairData) = true ->
  sendMessage w (Params.telegramChatId params) (noteFor pairData alert) = true ->
  let after := snd (fst (Creation.confirmTokenAlert accepts newId now params s)) in
  In (EvSend (Params.telegramChatId params) (noteFor pairData alert) true)
     (eventsOf (checkAlerts w after)) /\
  ~ In newId (AlertMap.keys (entries (storeOf (checkAlerts w after)))).
Proof.
  intros Hrun Hq Hshould Hsend after. subst after.
  unfold Creation.confirmTokenAlert in *. cbn [fst snd] in *.
  assert (Halert : alert =
            mkAlert newId (Params.telegramChatId params)
              (Params.tokenAddress params) (Params.tokenSymbol params)
              (Params.tokenName params) (Params.chainId params)
              (Params.pairAddress params) (Params.alertType params)
              (Params.targetValue params) (Params.currentPrice params) now None)
    by congruence.
  clear Hrun. rewrite <- Halert.
  assert (Hin : In alert (snapshot (storeOf (addAlert alert s)))).
  { unfold snapshot. rewrite addAlert_store. cbn [entries].
    apply in_values. exists (id alert). apply get_some_in, get_set_same. }
  assert (Hpair : pairAddress alert = Params.pairAddress params)
    by (now rewrite Halert).
  assert (Hchat : chatId alert = Params.telegramChatId params)
    by (now rewrite Halert).
  assert (Hid : id alert = newId) by (now rewrite Halert).
  clear Halert. rewrite <- Hpair in Hq. rewrite <- Hchat in *. split.
  - rewrite <- Hsend.
    apply (checkAlerts_event w _ pairData alert _ Hin Hq).
    intros s'. now apply checkAlert_sends.
  - rewrite <- Hid. apply delivered_key_absent; [assumption|].
    unfold delivered, firesVia, fires. now rewrite Hq, Hshould, Hsend.
Qed.

Lemma confirmed_alert_fires_witness :
  In (EvSend 7%float
        (noteFor (mkPair 101%float None None None) Samples.aboveHundred) true)
     (eventsOf (checkAlerts (Samples.flatWorld 101%float true) Samples.oneAlert)) /\
  ~ In "alert_1"%string
       (AlertMap.keys
          (entries (storeOf (checkAlerts (Samples.flatWorld 101%float true)
                               Samples.oneAlert)))).
Proof.
  apply (confirmed_alert_fires (fun _ _ => true) "alert_1"%string
           1700000000000%float MoreSamples.aboveHundredParams None
           (Samples.flatWorld 101%float true) (mkPair 101%float None None None)
           _ Samples.aboveHundred eq_refl eq_refl eq_refl eq_refl).
Defined.

Lemma tokenPriceAlert_pairs (search : string -> Creation.SearchResponse)
    (searchQuery : string) (alertType : AlertType) (targetValue chat : number)
    (pairs : list TokenPair.t) :
  search searchQuery = Creation.SearchPairs (Some pairs) ->
  pairs <> [] ->
  Creation.tokenPriceAlert search searchQuery alertType targetValue chat
  = Creation.AwaitingConfirmation (List.length (firstn 5 pairs)) (List.length pairs)
      (mapFrom Creation.tokenOption 0 (firstn 5 pairs))
      alertType targetValue chat.
Proof.
  intros Hsearch Hsome. unfold Creation.tokenPriceAlert. rewrite Hsearch.
  destruct pairs; [contradiction|reflexivity].
Qed.

(** X18. When the search tool asks for a confirmation, the search had found
    pairs; it offers the first five of them (all, when there are fewer), in
    the order DexScreener gave them, numbered 1, 2, ... up to the last
    choice it announces, each with the pair address, token address and
    parsed price of its pair; and it repeats the alert configuration it was
    given. *)
Theorem proposal_offers_first_five (search : string -> Creation.SearchResponse)
    (searchQuery : string) (alertType : AlertType) (targetValue chat : number)
    (lastChoice total : nat) (tokens : list TokenOption.t)
    (alertType' : AlertType) (targetValue' chat' : number) :
  Creation.tokenPriceAlert search searchQuery alertType targetValue chat
    = Creation.AwaitingConfirmation lastChoice total tokens
        alertType' targetValue' chat' ->
  exists pairs,
    search searchQuery = Creation.SearchPairs (Some pairs) /\
    total = List.length pairs /\
    lastChoice = List.length tokens /\
    lastChoice = Nat.min 5 total /\
    1 <= lastChoice <= 5 /\
    map TokenOption.index tokens = List.seq 1 lastChoice /\
    map TokenOption.pairAddress tokens
      = map TokenPair.pairAddress (firstn 5 pairs) /\
    map TokenOption.tokenAddress tokens
      = map TokenPair.baseTokenAddress (firstn 5 pairs) /\
    map TokenOption.priceRaw tokens = map TokenPair.priceUsd (firstn 5 pairs) /\
    alertType' = alertType /\ targetValue' = targetValue /\ chat' = chat.
Proof.
  intros E.
  destruct (search searchQuery) as [|status|[[|pair rest]|]] eqn:Hsearch;
    try (unfold Creation.tokenPriceAlert in E; rewrite Hsearch in E; discriminate).
  rewrite (tokenPriceAlert_pairs search searchQuery alertType targetValue chat
             (pair :: rest) Hsearch) in E by discriminate.
  assert (Hsome : 1 <= List.length (pair :: rest)) by (cbn; lia).
  remember (pair :: rest) as pairs eqn:Hpairs. clear Hpairs.
  remember (firstn 5 pairs) as top eqn:Htop.
  injection E as <- <- <- <- <- <-.
  exists pairs. rewrite <- Htop. split; [reflexivity|]. split; [reflexivity|].
  rewrite mapFrom_length.
  split; [reflexivity|].
  split; [now rewrite Htop, length_firstn|].
  split; [rewrite Htop, length_firstn; lia|].
  split; [apply (option_indices 0)|].
  split; [now apply mapFrom_projection|].
  split; [now apply mapFrom_projection|].
  split; [now apply mapFrom_projection|].
  split; [reflexivity|]. split; reflexivity.
Qed.

Lemma proposal_offers_first_five_witness :
  exists pairs,
    MoreSamples.sixPairSearch "pepe"%string = Creation.SearchPairs (Some pairs) /\
    6 = List.length pairs /\
    5 = List.length (mapFrom Creation.tokenOption 0 (firstn 5 MoreSamples.sixPairs)) /\
    5 = Nat.min 5 6 /\
    1 <= 5 <= 5 /\
    map TokenOption.index (mapFrom Creation.tokenOption 0 (firstn 5 MoreSamples.sixPairs))
      = List.seq 1 5 /\
    map TokenOption.pairAddress
        (mapFrom Creation.tokenOption 0 (firstn 5 MoreSamples.sixPairs))
      = map TokenPair.pairAddress (firstn 5 pairs) /\
    map TokenOption.tokenAddress
        (mapFrom Creation.tokenOption 0 (firstn 5 MoreSamples.sixPairs))
      = map TokenPair.baseTokenAddress (firstn 5 pairs) /\
    map TokenOption.priceRaw
        (mapFrom Creation.tokenOption 0 (firstn 5 MoreSamples.sixPairs))
      = map TokenPair.priceUsd (firstn 5 pairs) /\
    price_above = price_above /\ 100%float = 100%float /\ 7%float = 7%float.
Proof.
  apply (proposal_offers_first_five MoreSamples.sixPairSearch "pepe"%string
           price_above 100%float 7%float 5 6
           (mapFrom Creation.tokenOption 0 (firstn 5 MoreSamples.sixPairs))
           price_above 100%float 7%float).
  reflexivity.
Defined.
